(** * Revenue-Integrity-Engine: filter engine, nested-field flattener and
      pie-segment builder

    A shallow embedding of
      - [src/filters/contract_filters.py]
          ([apply_filters], [leakage_zombies], [expiring_soon_contracts],
           [normalize_dates]),
      - [src/data_extraction/loaders.py]
          ([records_to_df], [extract_nested_fields], [extract_from_dict],
           [extract_nested_fields_n_level], [clean_soql_dataframe]),
      - [src/ai_chart_overview_generator/groq_overview_generator.py]
          ([build_pie_segments]),
      - the row selections by index label of [src/usecase/usecase1.py],
        [usecase3.py] and [usecase5.py], and the wedge sizes of
        [zombie_analysis_chart] in [src/chart_generator/matplotlib_charts.py],
    together with the fragment of pandas these functions call.

    Conventions.
      - A Python value is a [Value]; [None], [NaN] and [NaT] are all [VNull]
        (pandas' [isna] does not tell them apart).  Numbers are integers.
      - A Python [dict] is an association list in insertion order
        ([dict_get], [dict_set]); iteration order is list order.
      - A raised exception is [Raise e]; a returned value is [Ok v].
      - A [DataFrame] has column labels and rows; every row carries its index
        label, because pandas aligns frames on index labels ([pd.concat]) and
        the use cases identify rows across frames by label.
      - Columns have no dtype: cells are compared and stored as the values
        they are.  Where pandas' dtypes change that (a string operand
        against timestamps, integers beyond 2^53 in a [float64] column) or a
        column label is repeated, statements carry the hypothesis that
        rules the case out. *)

From Stdlib Require Import ZArith String Ascii List Permutation Lia.
From stdpp Require Import base list strings.

Set Warnings "-register-all".

Open Scope Z_scope.
Open Scope nat_scope.
Open Scope string_scope.
Open Scope list_scope.

(* ================================================================== *)
(** * Python values and dictionaries *)
(* ================================================================== *)

Inductive Value : Type :=
| VNull
| VBool (b : bool)
| VNum (n : Z)
| VStr (s : string)
| VDate (t : Z)                        (* pd.Timestamp, nanoseconds since the epoch *)
| VDict (items : list (string * Value))
| VList (elems : list Value).

(** Exceptions raised by the modelled code and by the pandas calls it makes. *)
Inductive exn : Type :=
| KeyError (key : string)
| ValueError (msg : string)
| TypeError (msg : string)
| AttributeError (msg : string)
| InvalidIndexError
| ReferenceError.                      (* an unallocated frame handle; no Python program produces one *)

Inductive result (A : Type) : Type :=
| Ok (a : A)
| Raise (e : exn).
Arguments Ok {A} a.
Arguments Raise {A} e.

Definition bind {A B} (m : result A) (k : A -> result B) : result B :=
  match m with
  | Ok a => k a
  | Raise e => Raise e
  end.

Notation "'do' x <- m ; k" := (bind m (fun x => k))
  (at level 10, x name, m at level 100, k at level 200).

Fixpoint mapM {A B} (f : A -> result B) (l : list A) : result (list B) :=
  match l with
  | [] => Ok []
  | x :: l' => do y <- f x; do ys <- mapM f l'; Ok (y :: ys)
  end.

Fixpoint mapM2 {A B C} (f : A -> B -> result C) (l : list A) (l' : list B)
  : result (list C) :=
  match l, l' with
  | x :: t, y :: t' => do z <- f x y; do zs <- mapM2 f t t'; Ok (z :: zs)
  | _, _ => Ok []
  end.

Section Dict.
Context {V : Type}.

(** [d.get(k)] *)
Fixpoint dict_get (d : list (string * V)) (k : string) : option V :=
  match d with
  | [] => None
  | (k', v) :: d' => if String.eqb k' k then Some v else dict_get d' k
  end.

(** [d.get(k, dflt)] *)
Definition dict_get_default (d : list (string * V)) (k : string) (dflt : V) : V :=
  match dict_get d k with
  | Some v => v
  | None => dflt
  end.

(** [d[k] = v]: an existing key keeps its place, a new key goes last. *)
Fixpoint dict_set (d : list (string * V)) (k : string) (v : V) : list (string * V) :=
  match d with
  | [] => [(k, v)]
  | (k', v') :: d' =>
      if String.eqb k' k then (k', v) :: d' else (k', v') :: dict_set d' k v
  end.

(** [d.update(d')] *)
Definition dict_update (d d' : list (string * V)) : list (string * V) :=
  fold_left (fun acc kv => dict_set acc (fst kv) (snd kv)) d' d.

Definition dict_keys (d : list (string * V)) : list string := map fst d.
End Dict.

(** [isinstance(x, dict)] *)
Definition is_dict (x : Value) : bool :=
  match x with
  | VDict _ => true
  | _ => false
  end.

(** pandas' null test on one element. *)
Definition isna (x : Value) : bool :=
  match x with
  | VNull => true
  | _ => false
  end.

Definition notna (x : Value) : bool := negb (isna x).

(** Python's [==] on values: [True == 1], dictionaries compare without
    regard to the order of their keys, lists element by element. *)
Fixpoint value_eqb (a b : Value) {struct a} : bool :=
  match a, b with
  | VNull, VNull => true
  | VBool x, VBool y => Bool.eqb x y
  | VBool x, VNum y => Z.eqb (Z.b2z x) y
  | VNum x, VBool y => Z.eqb x (Z.b2z y)
  | VNum x, VNum y => Z.eqb x y
  | VStr x, VStr y => String.eqb x y
  | VDate x, VDate y => Z.eqb x y
  | VDict xs, VDict ys =>
      Nat.eqb (length xs) (length ys) &&
      (fix items_eqb (xs : list (string * Value)) : bool :=
         match xs with
         | [] => true
         | (k, x) :: xs' =>
             match dict_get ys k with
             | Some y => value_eqb x y
             | None => false
             end && items_eqb xs'
         end) xs
  | VList xs, VList ys =>
      (fix elems_eqb (xs ys : list Value) : bool :=
         match xs, ys with
         | [], [] => true
         | x :: xs', y :: ys' => value_eqb x y && elems_eqb xs' ys'
         | _, _ => false
         end) xs ys
  | _, _ => false
  end.

(* ================================================================== *)
(** * The pandas fragment *)
(* ================================================================== *)

(** A row is its index label and its cells, one per column label. *)
Definition Row : Type := Z * list Value.

Record DataFrame : Type := mkDataFrame {
  columns : list string;
  rows : list Row
}.

(** [len(df)] *)
Definition len (df : DataFrame) : nat := length (rows df).

(** [df.index] *)
Definition index (df : DataFrame) : list Z := map fst (rows df).

(** The default index [RangeIndex(n)]. *)
Definition range_index (n : nat) : list Z := map Z.of_nat (seq 0 n).

(** Every row has one cell per column and column labels are unique. *)
Definition wf_df (df : DataFrame) : Prop :=
  NoDup (columns df) /\
  Forall (fun r : Row => length (snd r) = length (columns df)) (rows df).

Fixpoint find_col (cols : list string) (c : string) : option nat :=
  match cols with
  | [] => None
  | c' :: cols' =>
      if String.eqb c' c then Some 0
      else match find_col cols' c with
           | Some j => Some (S j)
           | None => None
           end
  end.

(** [col in df.columns] *)
Definition has_column (df : DataFrame) (c : string) : bool :=
  match find_col (columns df) c with
  | Some _ => true
  | None => false
  end.

(** The cell of a row in a given column position. *)
Definition cell_at (j : nat) (r : Row) : Value := nth j (snd r) VNull.

(** [df[c]] for a label that names one column: the column as a Series (its
    values in row order; the Series shares [df.index]).  A missing label
    raises [KeyError].  For a label that names several columns pandas
    returns a frame, on which the modelled code raises; the definition
    resolves such a label to its first column, so a statement that asserts
    a result is made for frames with pairwise distinct labels
    ([NoDup (columns df)], [wf_df]). *)
Definition getitem (df : DataFrame) (c : string) : result (list Value) :=
  match find_col (columns df) c with
  | Some j => Ok (map (cell_at j) (rows df))
  | None => Raise (KeyError c)
  end.

(** Series are sequences of Python objects, compared cell by cell, which
    is what pandas does on an [object] column and, between values of the
    column's own kind, on a typed one.  A typed column converts the
    operand first (a string is parsed against a [datetime64] column) and a
    [float64] column has rounded integers beyond 2^53; statements about
    what a test does to one cell are made where neither happens
    ([compared_as_is]).

    Equality of a cell with a scalar operand: a null on either side
    compares unequal. *)
Definition cmp_eq (x v : Value) : bool :=
  if isna x || isna v then false else value_eqb x v.

Definition cmp_ne (x v : Value) : bool := negb (cmp_eq x v).

Inductive ordop : Type := OpGe | OpLe | OpGt | OpLt.

Definition ord_Z (o : ordop) (a b : Z) : bool :=
  match o with
  | OpGe => Z.geb a b
  | OpLe => Z.leb a b
  | OpGt => Z.gtb a b
  | OpLt => Z.ltb a b
  end.

Definition ord_string (o : ordop) (a b : string) : bool :=
  match o with
  | OpGe => String.leb b a
  | OpLe => String.leb a b
  | OpGt => String.ltb b a
  | OpLt => String.ltb a b
  end.

Definition as_number (x : Value) : option Z :=
  match x with
  | VBool b => Some (Z.b2z b)
  | VNum n => Some n
  | _ => None
  end.

(** Ordering of a cell against a scalar: null compares false, values of
    one kind are ordered, values of different kinds raise [TypeError]. *)
Definition cmp_ord (o : ordop) (x v : Value) : result bool :=
  if isna x || isna v then Ok false
  else match as_number x, as_number v with
       | Some a, Some b => Ok (ord_Z o a b)
       | _, _ =>
           match x, v with
           | VStr a, VStr b => Ok (ord_string o a b)
           | VDate a, VDate b => Ok (ord_Z o a b)
           | _, _ => Raise (TypeError "'<' not supported between instances")
           end
       end.

(** [series <op> value]: against a list operand pandas compares element
    by element and insists on equal lengths; against anything else it
    broadcasts the scalar. *)
Definition series_cmp (f : Value -> Value -> result bool)
    (s : list Value) (value : Value) : result (list bool) :=
  match value with
  | VList l =>
      if Nat.eqb (length l) (length s) then mapM2 f s l
      else Raise (ValueError "Lengths must match to compare")
  | _ => mapM (fun x => f x value) s
  end.

Definition series_eq := series_cmp (fun x v => Ok (cmp_eq x v)).
Definition series_ne := series_cmp (fun x v => Ok (cmp_ne x v)).
Definition series_ord (o : ordop) := series_cmp (cmp_ord o).

(** [series.isin(values)]: membership, where a null cell matches a null
    member (as on an [object] column; on a [float64] column [NaN] does not
    match [None]).  A dict operand is iterated over its keys; a scalar
    operand is refused. *)
Definition isin_one (l : list Value) (x : Value) : bool :=
  existsb (fun y => (isna x && isna y) || value_eqb x y) l.

Definition series_isin (s : list Value) (value : Value) : result (list bool) :=
  match value with
  | VList l => Ok (map (isin_one l) s)
  | VDict d => Ok (map (isin_one (map (fun kv => VStr (fst kv)) d)) s)
  | _ => Raise (TypeError "only list-like objects are allowed to be passed to isin()")
  end.

(** [mask &= s] for two boolean Series over the same index. *)
Definition mask_and (mask s : list bool) : list bool := zip_with andb mask s.

(** Keep the entries of [xs] whose mask bit is set. *)
Fixpoint select {A} (mask : list bool) (xs : list A) : list A :=
  match mask, xs with
  | b :: mask', x :: xs' => if b then x :: select mask' xs' else select mask' xs'
  | _, _ => []
  end.

(** [df.loc[mask]] for a boolean Series over [df.index]. *)
Definition loc (df : DataFrame) (mask : list bool) : DataFrame :=
  {| columns := columns df; rows := select mask (rows df) |}.

(** [df.copy()] on the level of values: a frame with the same content. *)
Definition copy (df : DataFrame) : DataFrame :=
  {| columns := columns df; rows := rows df |}.

(* ================================================================== *)
(** * filters/contract_filters.py *)
(* ================================================================== *)

(** The right-hand side of the [mask &= ...] statement selected by [op].
    The column is only looked up once the operator is recognised. *)
Definition eval_op (df : DataFrame) (column op : string) (value : Value)
  : result (list bool) :=
  if String.eqb op "isna" then
    do s <- getitem df column; Ok (map isna s)
  else if String.eqb op "notna" then
    do s <- getitem df column; Ok (map notna s)
  else if String.eqb op "=" then
    do s <- getitem df column; series_eq s value
  else if String.eqb op "!=" then
    do s <- getitem df column; series_ne s value
  else if String.eqb op "in" then
    do s <- getitem df column; series_isin s value
  else if String.eqb op ">=" then
    do s <- getitem df column; series_ord OpGe s value
  else if String.eqb op "<=" then
    do s <- getitem df column; series_ord OpLe s value
  else if String.eqb op ">" then
    do s <- getitem df column; series_ord OpGt s value
  else if String.eqb op "<" then
    do s <- getitem df column; series_ord OpLt s value
  else Raise (ValueError ("Unsupported operator: " +:+ op)).

(** [for op, value in condition.items(): ...] *)
Fixpoint apply_ops (df : DataFrame) (column : string)
    (ops : list (string * Value)) (mask : list bool) : result (list bool) :=
  match ops with
  | [] => Ok mask
  | (op, value) :: ops' =>
      do s <- eval_op df column op value;
      apply_ops df column ops' (mask_and mask s)
  end.

(** The body of the outer loop for one [(column, condition)] item. *)
Definition apply_condition (df : DataFrame) (column : string)
    (condition : Value) (mask : list bool) : result (list bool) :=
  match condition with
  | VDict ops => apply_ops df column ops mask
  | _ =>
      do s <- getitem df column;
      do b <- series_eq s condition;
      Ok (mask_and mask b)
  end.

(** [for column, condition in filters.items(): ...] *)
Fixpoint filter_loop (df : DataFrame) (filters : list (string * Value))
    (mask : list bool) : result (list bool) :=
  match filters with
  | [] => Ok mask
  | (column, condition) :: filters' =>
      do mask' <- apply_condition df column condition mask;
      filter_loop df filters' mask'
  end.

Definition apply_filters (df : DataFrame) (filters : list (string * Value))
  : result DataFrame :=
  do mask <- filter_loop df filters (repeat true (len df));
  Ok (copy (loc df mask)).

(** One day in nanoseconds, and [pd.Timedelta(days=n)]. *)
Definition day_ns : Z := 86400000000000.
Definition Timedelta_days (n : Z) : Z := (n * day_ns)%Z.

(** [ts.normalize()]: midnight of the same day. *)
Definition normalize (t : Z) : Z := (t - t mod day_ns)%Z.

(** [a & b] for two boolean Series over the same index. *)
Definition series_and (a b : list bool) : list bool := zip_with andb a b.

(** [leakage_zombies(df, today=None)].  [now] is what
    [pd.Timestamp.today()] returns at the time of the call. *)
Definition leakage_zombies (now : Z) (df : DataFrame) (today : option Z)
  : result DataFrame :=
  let today := match today with
               | None => normalize now
               | Some t => t
               end in
  do e <- getitem df "EndDate";
  do a <- series_ord OpLe e (VDate (today - Timedelta_days 30)%Z);
  do s <- getitem df "Status";
  do b <- series_eq s (VStr "Activated");
  do r <- getitem df "SBQQ__RenewalOpportunity__c";
  Ok (copy (loc df (series_and (series_and a b) (map isna r)))).

(** [expiring_soon_contracts(df)].  [today] is the module-level constant,
    [pd.Timestamp.today().normalize()] at import time. *)
Definition expiring_soon_contracts (today : Z) (df : DataFrame)
  : result DataFrame :=
  do e <- getitem df "EndDate";
  do a <- series_ord OpGe e (VDate (today - Timedelta_days 30)%Z);
  do s <- getitem df "Status";
  do b <- series_eq s (VStr "Activated");
  do r <- getitem df "SBQQ__RenewalOpportunity__c";
  Ok (copy (loc df (series_and (series_and a b) (map isna r)))).


(* ================================================================== *)
(** * Frames as heap objects *)
(* ================================================================== *)

(** The flatteners work on a private copy of the frame they are given.
    Frames therefore live in a heap and are passed by handle; a handle is
    the position of the object in the heap. *)
Abbreviation handle := nat (only parsing).
Abbreviation heap := (list DataFrame) (only parsing).

Definition St (A : Type) : Type := heap -> result A * heap.

Definition ret {A} (a : A) : St A := fun h => (Ok a, h).

Definition bindS {A B} (m : St A) (k : A -> St B) : St B :=
  fun h =>
    match m h with
    | (Ok a, h') => k a h'
    | (Raise e, h') => (Raise e, h')
    end.

Notation "'run' x <- m ; k" := (bindS m (fun x => k))
  (at level 10, x name, m at level 100, k at level 200).

Definition lift {A} (m : result A) : St A := fun h => (m, h).

Definition load (r : handle) : St DataFrame :=
  fun h =>
    match h !! r with
    | Some d => (Ok d, h)
    | None => (Raise ReferenceError, h)
    end.

Definition alloc (d : DataFrame) : St handle :=
  fun h => (Ok (length h), h ++ [d]).

Definition store (r : handle) (d : DataFrame) : St unit :=
  fun h =>
    match h !! r with
    | Some _ => (Ok tt, <[r := d]> h)
    | None => (Raise ReferenceError, h)
    end.

(** [df.copy()]: a new object with the same content. *)
Definition df_copy (r : handle) : St handle :=
  run d <- load r; alloc (copy d).

(** The content of a frame after [df[c] = s], for a Series [s] over
    [df.index]: an existing column is overwritten in place, a new label is
    appended as the last column. *)
Definition set_column (d : DataFrame) (c : string) (s : list Value) : DataFrame :=
  match find_col (columns d) c with
  | Some j =>
      {| columns := columns d;
         rows := zip_with (fun (r : Row) v => (fst r, <[j := v]> (snd r))) (rows d) s |}
  | None =>
      {| columns := columns d ++ [c];
         rows := zip_with (fun (r : Row) v => (fst r, snd r ++ [v])) (rows d) s |}
  end.

(** [df[c] = s] mutates the object behind the handle. *)
Definition setitem (r : handle) (c : string) (s : list Value) : St unit :=
  run d <- load r; store r (set_column d c s).

(* ================================================================== *)
(** * data_extraction/loaders.py *)
(* ================================================================== *)

(** [lambda x: x.get(field_name) if isinstance(x, dict) else None] *)
Definition get_field (field_name : string) (x : Value) : Value :=
  match x with
  | VDict d => dict_get_default d field_name VNull
  | _ => VNull
  end.

(** [for field_name, new_col_name in field_mapping.items(): ...].  The
    Series [df[nested_col].apply(...)] returns is taken with the values
    the lambda returned; pandas stores integers beside nulls as [float64]
    ([float_exact]). *)
Fixpoint extract_fields (df : handle) (nested_col : string)
    (field_mapping : list (string * string)) : St unit :=
  match field_mapping with
  | [] => ret tt
  | (field_name, new_col_name) :: rest =>
      run d <- load df;
      run s <- lift (getitem d nested_col);
      run _ <- setitem df new_col_name (map (get_field field_name) s);
      extract_fields df nested_col rest
  end.

(** [for nested_col, field_mapping in nested_mapping.items(): ...] *)
Fixpoint extract_columns (df : handle)
    (nested_mapping : list (string * list (string * string))) : St unit :=
  match nested_mapping with
  | [] => ret tt
  | (nested_col, field_mapping) :: rest =>
      run d <- load df;
      run _ <- (if has_column d nested_col
                then extract_fields df nested_col field_mapping
                else ret tt);
      extract_columns df rest
  end.

Definition extract_nested_fields (df : handle)
    (nested_mapping : list (string * list (string * string))) : St handle :=
  run df <- df_copy df;
  run _ <- extract_columns df nested_mapping;
  ret df.

(** A value of a [NestedMapping]: a destination column name, a nested
    mapping, or anything else (which [extract_from_dict] skips). *)
Inductive mapping_value : Type :=
| MLeaf (dest : string)
| MNested (m : list (string * mapping_value))
| MOther.

Definition NestedMapping : Type := list (string * mapping_value).

(** The body of the loop of [extract_from_dict] for one [(key, value)]
    item of the mapping, on a [dict] [d]; [result] is the dictionary built
    so far.  The recursive call on a nested mapping is the inner loop. *)
Fixpoint extract_item (d : list (string * Value)) (key : string)
    (value : mapping_value) (result : list (string * Value)) {struct value}
  : list (string * Value) :=
  match value with
  | MLeaf dest => dict_set result dest (dict_get_default d key VNull)
  | MNested m =>
      match dict_get d key with
      | Some (VDict nested_data) =>
          dict_update result
            ((fix items (mapping : NestedMapping) (res : list (string * Value))
                : list (string * Value) :=
                match mapping with
                | [] => res
                | (k, v) :: mapping' => items mapping' (extract_item nested_data k v res)
                end) m [])
      | _ => result
      end
  | MOther => result
  end.

(** [extract_from_dict(data, mapping)] for a [dict] mapping. *)
Definition extract_from_dict (data : Value) (mapping : NestedMapping)
  : list (string * Value) :=
  match data with
  | VDict d =>
      fold_left (fun result kv => extract_item d (fst kv) (snd kv) result) mapping []
  | _ => []
  end.

(** [extract_from_dict(x, mapping)] as the lambda of
    [extract_nested_fields_n_level] calls it, where [mapping] is whatever
    the top-level entry holds: on a [dict] [x], a mapping that is not a
    [dict] has no [items()]. *)
Definition extract_from_dict_top (data : Value) (mapping : mapping_value)
  : result (list (string * Value)) :=
  match data with
  | VDict _ =>
      match mapping with
      | MNested m => Ok (extract_from_dict data m)
      | MLeaf _ => Raise (AttributeError "'str' object has no attribute 'items'")
      | MOther => Raise (AttributeError "object has no attribute 'items'")
      end
  | _ => Ok []
  end.

(** pandas' [_normalise_json]: flatten nested dictionaries into dotted
    keys, writing into [normalized]. *)
Definition new_key (key_string key : string) : string :=
  if String.eqb key_string "" then key else key_string +:+ "." +:+ key.

Fixpoint normalise_json (data : Value) (key_string : string)
    (normalized : list (string * Value)) {struct data} : list (string * Value) :=
  match data with
  | VDict items =>
      (fix each (items : list (string * Value)) (normalized : list (string * Value))
         : list (string * Value) :=
         match items with
         | [] => normalized
         | (key, value) :: items' =>
             each items' (normalise_json value (new_key key_string key) normalized)
         end) items normalized
  | _ => dict_set normalized key_string data
  end.

(** pandas' [_normalise_json_ordered]: the scalar entries first, then the
    flattened nested ones. *)
Definition normalise_json_ordered (data : list (string * Value))
  : list (string * Value) :=
  dict_update
    (List.filter (fun kv => negb (is_dict (snd kv))) data)
    (normalise_json (VDict (List.filter (fun kv => is_dict (snd kv)) data)) "" []).

(** The column labels of [DataFrame(records)]: the keys of the records in
    order of first appearance. *)
Fixpoint union_keys (records : list (list (string * Value))) (acc : list string)
  : list string :=
  match records with
  | [] => acc
  | d :: records' =>
      union_keys records'
        (fold_left (fun a k => if existsb (String.eqb k) a then a else a ++ [k])
                   (dict_keys d) acc)
  end.

(** [pd.json_normalize(records)] for a list of dictionaries: one row per
    record under the default index, a null where a record lacks a key. *)
Definition json_normalize (records : list (list (string * Value))) : DataFrame :=
  let normal := map normalise_json_ordered records in
  let cols := union_keys normal [] in
  {| columns := cols;
     rows := imap (fun i d => (Z.of_nat i, map (fun c => dict_get_default d c VNull) cols))
                  normal |}.

(** The cells of the row labelled [l], or nulls when no row has the label. *)
Definition cells_of_label (df : DataFrame) (l : Z) : list Value :=
  match List.find (fun r : Row => Z.eqb (fst r) l) (rows df) with
  | Some r => snd r
  | None => repeat VNull (length (columns df))
  end.

Fixpoint has_dup (l : list Z) : bool :=
  match l with
  | [] => false
  | x :: l' => existsb (Z.eqb x) l' || has_dup l'
  end.

(** [pd.concat([a, b], axis=1)]: the frames are put side by side after
    aligning their rows on the index labels.  Equal indexes are used as
    they are; otherwise the result has one row per label of either frame
    (an outer join), which needs both indexes to be free of duplicates. *)
Definition concat_axis1 (a b : DataFrame) : result DataFrame :=
  if bool_decide (index a = index b) then
    Ok {| columns := columns a ++ columns b;
          rows := zip_with (fun (r r' : Row) => (fst r, snd r ++ snd r')) (rows a) (rows b) |}
  else if has_dup (index a) || has_dup (index b) then Raise InvalidIndexError
  else
    let labels :=
      index a ++ List.filter (fun l => negb (existsb (Z.eqb l) (index a))) (index b) in
    Ok {| columns := columns a ++ columns b;
          rows := map (fun l => (l, cells_of_label a l ++ cells_of_label b l)) labels |}.

(** [for top_column, mapping in nested_mapping.items(): ...]; [df] is the
    handle the local variable is bound to, rebound by every [pd.concat]. *)
Fixpoint extract_levels (df : handle) (nested_mapping : NestedMapping) : St handle :=
  match nested_mapping with
  | [] => ret df
  | (top_column, mapping) :: rest =>
      run d <- load df;
      if has_column d top_column then
        run s <- lift (getitem d top_column);
        run extracted_series <- lift (mapM (fun x => extract_from_dict_top x mapping) s);
        let extracted_df := json_normalize extracted_series in
        run d' <- lift (concat_axis1 d extracted_df);
        run df' <- alloc d';
        extract_levels df' rest
      else extract_levels df rest
  end.

Definition extract_nested_fields_n_level (df : handle) (nested_mapping : NestedMapping)
  : St handle :=
  run df <- df_copy df;
  extract_levels df nested_mapping.

(* ================================================================== *)
(** * ai_chart_overview_generator/groq_overview_generator.py *)
(* ================================================================== *)

(** Strings are sequences of characters with code points below 256.
    [is_space] is Python's whitespace class ([str.isspace], [\s]) and
    [is_digit] its decimal-digit class ([\d]) on that range. *)
Definition is_space (c : ascii) : bool :=
  let n := nat_of_ascii c in
  (Nat.leb 9 n && Nat.leb n 13) || (Nat.leb 28 n && Nat.leb n 32)
  || Nat.eqb n 133 || Nat.eqb n 160.

Definition is_digit (c : ascii) : bool :=
  let n := nat_of_ascii c in Nat.leb 48 n && Nat.leb n 57.

Fixpoint drop_while {A} (p : A -> bool) (l : list A) : list A :=
  match l with
  | [] => []
  | x :: l' => if p x then drop_while p l' else l
  end.

Fixpoint take_while {A} (p : A -> bool) (l : list A) : list A :=
  match l with
  | [] => []
  | x :: l' => if p x then x :: take_while p l' else []
  end.

(** On the reversed text before a [$] position: match [\s*\(\d+\)]
    backwards and return what is left of the text, still reversed. *)
Definition strip_count_group (r : list ascii) : option (list ascii) :=
  match r with
  | ")"%char :: r1 =>
      match take_while is_digit r1, drop_while is_digit r1 with
      | _ :: _, "("%char :: r3 => Some (drop_while is_space r3)
      | _, _ => None
      end
  | _ => None
  end.

(** [re.sub(r"\s*\(\d+\)$", "", s)].  [$] matches at the end of the string
    and just before a newline that ends the string. *)
Definition re_sub_count (s : list ascii) : list ascii :=
  match rev s with
  | "010"%char :: r' =>
      match strip_count_group r' with
      | Some r'' => rev r'' ++ ["010"%char]
      | None => s
      end
  | r =>
      match strip_count_group r with
      | Some r'' => rev r''
      | None => s
      end
  end.

(** [s.strip()] *)
Definition strip (s : list ascii) : list ascii :=
  rev (drop_while is_space (rev (drop_while is_space s))).

(** [re.sub(r"\s*\(\d+\)$", "", raw_title).strip()] *)
Definition base_title (raw_title : string) : string :=
  string_of_list_ascii (strip (re_sub_count (list_ascii_of_string raw_title))).

(** The first loop of [build_pie_segments]: base title -> description.
    [re.sub] refuses a title that is not a string. *)
Fixpoint build_description_map (llm_output : list (list (string * Value)))
    (description_map : list (string * Value)) : result (list (string * Value)) :=
  match llm_output with
  | [] => Ok description_map
  | item :: rest =>
      do raw_title <-
        match dict_get_default item "title" (VStr "") with
        | VStr s => Ok s
        | _ => Raise (TypeError "expected string or bytes-like object")
        end;
      build_description_map rest
        (dict_set description_map (base_title raw_title)
           (dict_get_default item "description" (VStr "")))
  end.

Record Segment : Type := mkSegment {
  seg_title : string;
  seg_count : nat;
  seg_description : Value;
  seg_color : string
}.

(** The second loop: [for idx, label in enumerate(pie_labels): ...].
    The values of [label_to_df_map] are frames, so [df is None] means that
    the label is not a key. *)
Fixpoint pie_loop (description_map : list (string * Value))
    (label_to_df_map : list (string * DataFrame)) (pie_colors : list string)
    (idx : nat) (pie_labels : list string) : list Segment :=
  match pie_labels with
  | [] => []
  | label :: rest =>
      match dict_get label_to_df_map label with
      | None => pie_loop description_map label_to_df_map pie_colors (S idx) rest
      | Some df =>
          {| seg_title := label;
             seg_count := len df;
             seg_description := dict_get_default description_map label (VStr "");
             seg_color := nth idx pie_colors "#CCCCCC" |}
          :: pie_loop description_map label_to_df_map pie_colors (S idx) rest
      end
  end.

Definition build_pie_segments (llm_output : list (list (string * Value)))
    (label_to_df_map : list (string * DataFrame))
    (pie_labels pie_colors : list string) : result (list Segment) :=
  do description_map <- build_description_map llm_output [];
  Ok (pie_loop description_map label_to_df_map pie_colors 0 pie_labels).

(* ================================================================== *)
(** * Vocabulary of the statements *)
(* ================================================================== *)

(** The value a row holds under a column label, if the frame has the label. *)
Definition cell (df : DataFrame) (r : Row) (c : string) : option Value :=
  match find_col (columns df) c with
  | Some j => snd r !! j
  | None => None
  end.

(** The operator symbols [apply_filters] has a branch for. *)
Definition recognized : list string :=
  ["isna"; "notna"; "="; "!="; "in"; ">="; "<="; ">"; "<"].

Definition is_recognized (op : string) : bool :=
  existsb (String.eqb op) recognized.

(** [m] selects no position that [b] does not select. *)
Definition mask_le (m b : list bool) : Prop :=
  Forall2 (fun x y : bool => x = true -> y = true) m b.

(** A filter specification has an operator symbol outside [recognized]. *)
Definition has_unsupported (F : list (string * Value)) : Prop :=
  exists column ops op value,
    In (column, VDict ops) F /\ In (op, value) ops /\ is_recognized op = false.

(** The first thing a condition does is to look its column up: a literal
    does, and so does a mapping whose first operator is recognised. *)
Definition looks_up_column (condition : Value) : bool :=
  match condition with
  | VDict [] => false
  | VDict ((op, _) :: _) => is_recognized op
  | _ => true
  end.

(** [today] as [leakage_zombies] computes it from its optional argument. *)
Definition effective_today (now : Z) (today : option Z) : Z :=
  match today with
  | None => normalize now
  | Some t => t
  end.

(** A Series of timestamps and nulls, as [normalize_dates] leaves it. *)
Definition date_series (s : list Value) : Prop :=
  forall x, In x s -> x = VNull \/ exists t, x = VDate t.

(** The source and the destination column names of a one-level mapping. *)
Definition sources (M : list (string * list (string * string))) : list string :=
  map fst M.

Definition destinations (M : list (string * list (string * string))) : list string :=
  flat_map (fun e => map snd (snd e)) M.

(** The content of the private copy after the inner loop of
    [extract_nested_fields] has run over [field_mapping]. *)
Fixpoint fields_content (d : DataFrame) (nested_col : string)
    (field_mapping : list (string * string)) : DataFrame :=
  match field_mapping with
  | [] => d
  | (field_name, new_col_name) :: rest =>
      match getitem d nested_col with
      | Ok s =>
          fields_content (set_column d new_col_name (map (get_field field_name) s))
            nested_col rest
      | Raise _ => d
      end
  end.

(** The content of the private copy after the outer loop. *)
Fixpoint columns_content (d : DataFrame)
    (nested_mapping : list (string * list (string * string))) : DataFrame :=
  match nested_mapping with
  | [] => d
  | (nested_col, field_mapping) :: rest =>
      columns_content
        (if has_column d nested_col then fields_content d nested_col field_mapping else d)
        rest
  end.

(** The frame the local variable of [extract_nested_fields_n_level] is
    bound to after the loop, or the exception that ends the loop. *)
Fixpoint levels_content (d : DataFrame) (nested_mapping : NestedMapping)
  : result DataFrame :=
  match nested_mapping with
  | [] => Ok d
  | (top_column, mapping) :: rest =>
      if has_column d top_column then
        do s <- getitem d top_column;
        do extracted_series <- mapM (fun x => extract_from_dict_top x mapping) s;
        do d' <- concat_axis1 d (json_normalize extracted_series);
        levels_content d' rest
      else levels_content d rest
  end.

(** The path to [field_name] does not resolve in [x]: [x] is null or not
    an object, or the object has no such field. *)
Definition unresolved (field_name : string) (x : Value) : Prop :=
  match x with
  | VDict d => dict_get d field_name = None
  | _ => True
  end.

(* ================================================================== *)
(** * Sample data *)
(* ================================================================== *)

(** The scenario table of the specification: five contracts. *)
Definition scenario_df : DataFrame :=
  {| columns := ["Status"; "RenewalOpportunity"];
     rows := [ (0%Z, [VStr "Activated"; VNull]);
               (1%Z, [VStr "Activated"; VStr "X"]);
               (2%Z, [VStr "Draft"; VNull]);
               (3%Z, [VStr "Activated"; VNull]);
               (4%Z, [VStr "Activated"; VStr "Y"]) ] |}.

Definition scenario_filter : list (string * Value) :=
  [("Status", VStr "Activated");
   ("RenewalOpportunity", VDict [("isna", VBool true)])].

(** Two contracts, the first without an account. *)
Definition contracts_df : DataFrame :=
  {| columns := ["Id"; "Account"];
     rows := [ (0%Z, [VStr "001"; VNull]);
               (1%Z, [VStr "002"; VDict [("Name", VStr "ACME")]]) ] |}.

(** What [apply_filters] leaves of [contracts_df] under
    [{"Account": {"notna": True}}]: the second contract, still labelled 1. *)
Definition with_account_df : DataFrame :=
  {| columns := ["Id"; "Account"];
     rows := [ (1%Z, [VStr "002"; VDict [("Name", VStr "ACME")]]) ] |}.

(** One contract whose account is null. *)
Definition no_account_df : DataFrame :=
  {| columns := ["Id"; "Account"];
     rows := [ (0%Z, [VStr "001"; VNull]) ] |}.

(** A table that has no [Account] column at all. *)
Definition ids_df : DataFrame :=
  {| columns := ["Id"]; rows := [ (0%Z, [VStr "001"]) ] |}.

(** A table with a flat [Name] column next to the nested [Account]. *)
Definition named_df : DataFrame :=
  {| columns := ["Account"; "Name"];
     rows := [ (0%Z, [VDict [("Name", VStr "ACME")]; VStr "Contract 7"]) ] |}.

(** [{"Account": {"Name": "Account Name"}}], for either flattener. *)
Definition account_mapping : list (string * list (string * string)) :=
  [("Account", [("Name", "Account Name")])].

(** One contract without an account but with an owner, and a mapping that
    sends both names to the same destination. *)
Definition owner_df : DataFrame :=
  {| columns := ["Account"; "Owner"];
     rows := [ (0%Z, [VNull; VDict [("Name", VStr "Bob")]]) ] |}.

Definition party_mapping : list (string * list (string * string)) :=
  [("Account", [("Name", "Party")]); ("Owner", [("Name", "Party")])].

(** [{"Account": {"Name": "Name"}}]: the destination is an existing column. *)
Definition account_mapping_name : list (string * list (string * string)) :=
  [("Account", [("Name", "Name")])].

Definition account_mapping_n : NestedMapping :=
  [("Account", MNested [("Name", MLeaf "Account Name")])].

(** Contracts for the two date segments, with today at day 100. *)
Definition day (n : Z) : Z := (n * day_ns)%Z.

Definition dated_df : DataFrame :=
  {| columns := ["EndDate"; "Status"; "SBQQ__RenewalOpportunity__c"];
     rows := [ (0%Z, [VDate (day 70); VStr "Activated"; VNull]);
               (1%Z, [VDate (day 90); VStr "Activated"; VNull]);
               (2%Z, [VNull; VStr "Draft"; VStr "006"]) ] |}.

(** A record whose title, when it has one, is a string. *)
Definition title_well_typed (item : list (string * Value)) : Prop :=
  match dict_get item "title" with
  | Some (VStr _) | None => True
  | Some _ => False
  end.

(** The key under which the first loop of [build_pie_segments] files a
    record. *)
Definition record_base_title (item : list (string * Value)) : option string :=
  match dict_get_default item "title" (VStr "") with
  | VStr s => Some (base_title s)
  | _ => None
  end.

(** [label in label_to_df_map] *)
Definition has_label (label_to_df_map : list (string * DataFrame)) (label : string) : bool :=
  match dict_get label_to_df_map label with
  | Some _ => true
  | None => false
  end.

(** The segments produced for one label. *)
Definition segments_of (label : string) (segs : list Segment) : list Segment :=
  List.filter (fun s => String.eqb (seg_title s) label) segs.

(** A narrative answer whose records lack titles and descriptions. *)
Definition partial_output : list (list (string * Value)) :=
  [ [("segment_no", VNum 1); ("title", VStr "Healthy (2)")];
    [("segment_no", VNum 2)];
    [("description", VStr "two contracts")] ].

(* ================================================================== *)
(** * More of the source: the other functions of the cited files and
      the callers of the filter engine *)
(* ================================================================== *)

(** ** filters/contract_filters.py: [normalize_dates] *)

(** [.dt.tz_convert(None).dt.normalize()] on one cell: the instant is
    kept, the time of day is dropped; [NaT] stays [NaT]. *)
Definition dt_normalize (x : Value) : Value :=
  match x with
  | VDate t => VDate (normalize t)
  | _ => x
  end.

Section NormalizeDates.

(** [pd.to_datetime(s, errors="coerce", utc=True)] on a Series: the parser
    of pandas, taken as given.  It returns a Series or raises. *)
Variable to_datetime : list Value -> result (list Value).

(** [normalize_dates(df, columns)]: every listed column is rewritten in the
    frame it is given, and that frame is returned. *)
Fixpoint normalize_dates (df : handle) (columns : list string) : St handle :=
  match columns with
  | [] => ret df
  | col :: rest =>
      run d <- load df;
      run s <- lift (getitem d col);
      run parsed <- lift (to_datetime s);
      run _ <- setitem df col (map dt_normalize parsed);
      normalize_dates df rest
  end.

(** The content of the frame when the loop ends or raises. *)
Fixpoint dates_content (d : DataFrame) (columns : list string) : DataFrame :=
  match columns with
  | [] => d
  | col :: rest =>
      match getitem d col with
      | Ok s =>
          match to_datetime s with
          | Ok parsed => dates_content (set_column d col (map dt_normalize parsed)) rest
          | Raise _ => d
          end
      | Raise _ => d
      end
  end.

End NormalizeDates.

(** ** data_extraction/loaders.py: [records_to_df], [clean_soql_dataframe] *)

(** [pd.DataFrame(records)] for a list of dictionaries: the columns are
    the keys in order of first appearance, a record that lacks a key holds
    a null there, and the index is the default one.  The cells are the
    records' values; pandas stores a column of integers and nulls as
    [float64], so a statement about a cell is made for values that survive
    this ([float_exact]). *)
Definition DataFrame_of_records (records : list (list (string * Value))) : DataFrame :=
  let cols := union_keys records [] in
  {| columns := cols;
     rows := imap (fun i d => (Z.of_nat i, map (fun c => dict_get_default d c VNull) cols))
                  records |}.

(** Which columns survive [df.drop(columns=to_drop)]. *)
Definition keep_mask (cols to_drop : list string) : list bool :=
  map (fun c => negb (existsb (String.eqb c) to_drop)) cols.

(** [df.drop(columns=to_drop)]: a new frame without the listed columns; a
    label the frame does not have raises [KeyError]. *)
Definition drop_columns (d : DataFrame) (to_drop : list string) : result DataFrame :=
  match List.find (fun c => negb (has_column d c)) to_drop with
  | Some c => Raise (KeyError c)
  | None =>
      Ok {| columns := select (keep_mask (columns d) to_drop) (columns d);
            rows := map (fun r : Row => (fst r, select (keep_mask (columns d) to_drop) (snd r)))
                        (rows d) |}
  end.

(** [records_to_df(records)] *)
Definition records_to_df (records : list (list (string * Value))) : result DataFrame :=
  let df := DataFrame_of_records records in
  if has_column df "attributes" then drop_columns df ["attributes"] else Ok df.

(** [df.rename(columns=mapping)] on the content of a frame: a label that
    is a key of the mapping is replaced, the others stay. *)
Definition rename_labels (d : DataFrame) (mapping : list (string * string)) : DataFrame :=
  {| columns := map (fun c => dict_get_default mapping c c) (columns d);
     rows := rows d |}.

(** [clean_soql_dataframe(df, columns_to_drop=None, rename_columns=None)].
    [df.drop] returns a new object, [df.rename(..., inplace=True)] changes
    the object the local variable is bound to. *)
Definition clean_soql_dataframe (df : handle) (columns_to_drop : option (list string))
    (rename_columns : option (list (string * string))) : St handle :=
  run df <- df_copy df;
  let columns_to_drop :=
    match columns_to_drop with
    | None => ["attributes"]
    | Some l => l
    end in
  run d <- load df;
  let existing_cols_to_drop := List.filter (has_column d) columns_to_drop in
  run df <- match existing_cols_to_drop with
            | [] => ret df
            | _ :: _ => run d' <- lift (drop_columns d existing_cols_to_drop); alloc d'
            end;
  run _ <- match rename_columns with
           | Some (kv :: m) => run d <- load df; store df (rename_labels d (kv :: m))
           | _ => ret tt
           end;
  ret df.

(** ** The callers of the segment filters *)

(** [df.index.isin(sub.index)] *)
Definition index_isin (df sub : DataFrame) : list bool :=
  map (fun l => existsb (Z.eqb l) (index sub)) (index df).

(** [df[df.index.isin(sub.index)].copy()] (usecase1). *)
Definition details_of (df sub : DataFrame) : DataFrame :=
  copy (loc df (index_isin df sub)).

(** [df.loc[~df.index.isin(sub.index)].copy()] (usecase3, usecase5). *)
Definition residual (df sub : DataFrame) : DataFrame :=
  copy (loc df (map negb (index_isin df sub))).

(** [df[~df.index.isin(a.index) & ~df.index.isin(b.index)].copy()]
    (usecase1, the healthy contracts). *)
Definition residual2 (df a b : DataFrame) : DataFrame :=
  copy (loc df (series_and (map negb (index_isin df a)) (map negb (index_isin df b)))).

(** The wedge sizes of [zombie_analysis_chart]:
    [healthy_count], [warning_count], [zombie_count]. *)
Definition warning_count (df_expiring_soon : option DataFrame) : Z :=
  match df_expiring_soon with
  | Some e => Z.of_nat (len e)
  | None => 0%Z
  end.

Definition zombie_count (df_zombie_contracts : DataFrame) : Z :=
  Z.of_nat (len df_zombie_contracts).

Definition healthy_count (df_all_contracts df_zombie_contracts : DataFrame)
    (df_expiring_soon : option DataFrame) : Z :=
  (Z.of_nat (len df_all_contracts) - Z.of_nat (len df_zombie_contracts)
   - warning_count df_expiring_soon)%Z.

(* ================================================================== *)
(** * More vocabulary *)
(* ================================================================== *)

(** [isinstance(x, list)] *)
Definition is_list (x : Value) : bool :=
  match x with
  | VList _ => true
  | _ => false
  end.

(** What the branch of [apply_filters] for [op] asks of one cell. *)
Definition cell_test (op : string) (x value : Value) : result bool :=
  if String.eqb op "isna" then Ok (isna x)
  else if String.eqb op "notna" then Ok (notna x)
  else if String.eqb op "=" then Ok (cmp_eq x value)
  else if String.eqb op "!=" then Ok (cmp_ne x value)
  else if String.eqb op "in" then
    match value with
    | VList l => Ok (isin_one l x)
    | VDict d => Ok (isin_one (map (fun kv => VStr (fst kv)) d) x)
    | _ => Raise (TypeError "only list-like objects are allowed to be passed to isin()")
    end
  else if String.eqb op ">=" then cmp_ord OpGe x value
  else if String.eqb op "<=" then cmp_ord OpLe x value
  else if String.eqb op ">" then cmp_ord OpGt x value
  else if String.eqb op "<" then cmp_ord OpLt x value
  else Raise (ValueError ("Unsupported operator: " +:+ op)).

(** The operand is used cell by cell: it is the operand of [isna],
    [notna] or [in], or it is not a list (which a comparison would pair
    with the rows by position). *)
Definition cellwise (op : string) (value : Value) : bool :=
  String.eqb op "isna" || String.eqb op "notna" || String.eqb op "in"
  || negb (is_list value).

(** The tests a condition stands for: those of the mapping, or equality
    with the literal. *)
Definition condition_tests (condition : Value) : list (string * Value) :=
  match condition with
  | VDict ops => ops
  | v => [("=", v)]
  end.

(** A Series of numbers and nulls. *)
Definition number_series (s : list Value) : Prop :=
  forall x, In x s -> x = VNull \/ exists n, x = VNum n.

(** Every test of the condition uses its operand cell by cell. *)
Definition cellwise_condition (condition : Value) : bool :=
  forallb (fun kv => cellwise (fst kv) (snd kv)) (condition_tests condition).

(** The common shape of [leakage_zombies] and [expiring_soon_contracts]:
    the activated contracts without a renewal whose [EndDate] is on the
    [o] side of the cutoff date. *)
Definition date_segment (o : ordop) (cutoff : Z) (df : DataFrame) : result DataFrame :=
  do e <- getitem df "EndDate";
  do a <- series_ord o e (VDate cutoff);
  do s <- getitem df "Status";
  do b <- series_eq s (VStr "Activated");
  do r <- getitem df "SBQQ__RenewalOpportunity__c";
  Ok (copy (loc df (series_and (series_and a b) (map isna r)))).

(** The filter specification that selects the same contracts. *)
Definition date_segment_filter (op : string) (cutoff : Z) : list (string * Value) :=
  [("EndDate", VDict [(op, VDate cutoff)]);
   ("Status", VStr "Activated");
   ("SBQQ__RenewalOpportunity__c", VDict [("isna", VBool true)])].

(** An activated contract without a renewal. *)
Definition open_contract (df : DataFrame) (r : Row) : Prop :=
  cell df r "Status" = Some (VStr "Activated") /\
  cell df r "SBQQ__RenewalOpportunity__c" = Some VNull.

(** The destination names a nested mapping can write to. *)
Fixpoint leaves_of (value : mapping_value) : list string :=
  match value with
  | MLeaf dest => [dest]
  | MNested m =>
      (fix each (m : NestedMapping) : list string :=
         match m with
         | [] => []
         | (_, v) :: m' => leaves_of v ++ each m'
         end) m
  | MOther => []
  end.

Definition leaves (mapping : NestedMapping) : list string :=
  flat_map (fun kv => leaves_of (snd kv)) mapping.

(** Every row has one cell per column. *)
Definition rows_fit (df : DataFrame) : Prop :=
  Forall (fun r : Row => length (snd r) = length (columns df)) (rows df).

(** The columns [clean_soql_dataframe] drops when it is given
    [columns_to_drop]. *)
Definition dropped (columns_to_drop : option (list string)) : list string :=
  match columns_to_drop with
  | None => ["attributes"]
  | Some l => l
  end.

(** The label [df.rename(columns=rename_columns)] gives to a column. *)
Definition renamed (rename_columns : option (list (string * string))) (c : string) : string :=
  match rename_columns with
  | None => c
  | Some m => dict_get_default m c c
  end.

(** A Series of nulls and of timestamps at midnight. *)
Definition midnight_series (s : list Value) : Prop :=
  forall x, In x s -> x = VNull \/ exists t, x = VDate t /\ (t mod day_ns = 0)%Z.

(** What [normalize_dates] relies on from [pd.to_datetime] with
    [errors="coerce"]: a Series over the same index whose cells are
    timestamps, or [NaT] where the input could not be parsed. *)
Definition coercing (to_datetime : list Value -> result (list Value)) : Prop :=
  forall s, exists parsed,
    to_datetime s = Ok parsed /\ length parsed = length s /\ date_series parsed.

(** A text with no whitespace at either end, which [strip()] leaves as
    it is. *)
Definition trimmed (s : list ascii) : Prop :=
  drop_while is_space s = s /\ drop_while is_space (rev s) = rev s.

(** [isinstance(x, pd.Timestamp)] *)
Definition is_date (x : Value) : bool :=
  match x with
  | VDate _ => true
  | _ => false
  end.

(** A value that a [float64] column or operand holds without rounding:
    an integer of magnitude at most 2^53, also as an element of a list;
    any value that is not a number. *)
Fixpoint float_exact (v : Value) : bool :=
  match v with
  | VNum n => (Z.abs n <=? 2 ^ 53)%Z
  | VList l =>
      (fix all (l : list Value) : bool :=
         match l with
         | [] => true
         | y :: l' => float_exact y && all l'
         end) l
  | _ => true
  end.

(** The test [op] compares the cell [x] and the operand [value] as the
    values they are: the null tests always do; the others do unless
    pandas converts the operand to the dtype of a timestamp column (a
    string, or the strings of a list, against timestamps) or a number is
    beyond the integers that [float64] holds exactly. *)
Definition compared_as_is (op : string) (x value : Value) : bool :=
  String.eqb op "isna" || String.eqb op "notna"
  || ((negb (is_date x) || is_date value) && float_exact x && float_exact value).

(** A Series of strings and nulls. *)
Definition string_series (s : list Value) : Prop :=
  forall x, In x s -> x = VNull \/ exists a, x = VStr a.

(** [isinstance(value, Mapping)] for a value of a nested mapping. *)
Definition is_mapping (value : mapping_value) : bool :=
  match value with
  | MNested _ => true
  | _ => false
  end.

(** Every source column the loop of [extract_nested_fields_n_level] reads
    is, in the frame the loop has built by then, the label of one column
    only: no [pd.concat] before it has added a second column of that
    name. *)
Fixpoint sources_unambiguous (d : DataFrame) (nested_mapping : NestedMapping) : bool :=
  match nested_mapping with
  | [] => true
  | (top_column, mapping) :: rest =>
      if has_column d top_column then
        Nat.eqb (count_occ string_dec (columns d) top_column) 1 &&
        match (do s <- getitem d top_column;
               do extracted_series <- mapM (fun x => extract_from_dict_top x mapping) s;
               concat_axis1 d (json_normalize extracted_series)) with
        | Ok d' => sources_unambiguous d' rest
        | Raise _ => true
        end
      else sources_unambiguous d rest
  end.

(* ================================================================== *)
(** * More sample data *)
(* ================================================================== *)

(** Orders with an amount; the second has none. *)
Definition amounts_df : DataFrame :=
  {| columns := ["Id"; "Amount"];
     rows := [ (0%Z, [VStr "001"; VNum 5]);
               (1%Z, [VStr "002"; VNull]);
               (2%Z, [VStr "003"; VNum 40]) ] |}.

(** Query records as the client returns them: each carries an
    [attributes] entry, and the two do not have the same fields. *)
Definition contract_records : list (list (string * Value)) :=
  [ [("attributes", VDict [("type", VStr "Contract")]); ("Id", VStr "001");
     ("Account", VDict [("Name", VStr "ACME")])];
    [("attributes", VDict [("type", VStr "Contract")]); ("Id", VStr "002");
     ("Amount", VNum 5)] ].

(** The table [records_to_df] builds from them. *)
Definition contract_records_df : DataFrame :=
  {| columns := ["Id"; "Account"; "Amount"];
     rows := [ (0%Z, [VStr "001"; VDict [("Name", VStr "ACME")]; VNull]);
               (1%Z, [VStr "002"; VNull; VNum 5]) ] |}.

(** A contract whose [EndDate] carries a time of day. *)
Definition stamped_df : DataFrame :=
  {| columns := ["EndDate"; "Status"; "SBQQ__RenewalOpportunity__c"];
     rows := [ (0%Z, [VDate (day 70 + 5); VStr "Activated"; VNull]) ] |}.

(** A stand-in for the parser on columns that hold timestamps already:
    they are kept, and anything else is coerced to [NaT]. *)
Definition keep_timestamps (s : list Value) : result (list Value) :=
  Ok (map (fun x => match x with
                    | VDate t => VDate t
                    | _ => VNull
                    end) s).

(** A mapping with a leaf and a nested level. *)
Definition owner_mapping : NestedMapping :=
  [("Name", MLeaf "Account Name"); ("Owner", MNested [("Name", MLeaf "Owner Name")])].

(** Two narrative records for the same segment. *)
Definition repeated_output : list (list (string * Value)) :=
  [ [("title", VStr "Healthy (2)"); ("description", VStr "first")];
    [("title", VStr "Healthy"); ("description", VStr "second")] ].

(* ================================================================== *)
(** * Properties *)
(* ================================================================== *)

(** ** The result monad *)

Lemma bind_Ok {A B} (m : result A) (k : A -> result B) (b : B) :
  bind m k = Ok b -> exists a, m = Ok a /\ k a = Ok b.
Proof. destruct m as [a|e]; simpl; [eauto | discriminate]. Qed.

Ltac inv_bind H :=
  let a := fresh "x" in
  let Ha := fresh "E" in
  apply bind_Ok in H; destruct H as (a & Ha & H).

Lemma mapM_length {A B} (f : A -> result B) l l' :
  mapM f l = Ok l' -> length l' = length l.
Proof.
  revert l'. induction l as [|x l IH]; simpl; intros l' H.
  - now inversion H.
  - inv_bind H. inv_bind H. inversion H; subst. simpl. f_equal. eauto.
Qed.

Lemma mapM2_length {A B C} (f : A -> B -> result C) l1 l2 l' :
  length l2 = length l1 -> mapM2 f l1 l2 = Ok l' -> length l' = length l1.
Proof.
  revert l2 l'. induction l1 as [|x l1 IH]; intros [|y l2] l' Hl H; simpl in *;
    try discriminate.
  - now inversion H.
  - inv_bind H. inv_bind H. inversion H; subst. simpl. f_equal. eapply IH; eauto.
Qed.

Lemma mapM_lookup {A B} (f : A -> result B) l l' i x :
  mapM f l = Ok l' -> l !! i = Some x -> exists y, f x = Ok y /\ l' !! i = Some y.
Proof.
  revert l' i. induction l as [|a l IH]; simpl; intros l' i H Hi.
  - discriminate.
  - inv_bind H. inv_bind H. inversion H; subst. destruct i as [|i]; simpl in *.
    + inversion Hi; subst. eauto.
    + eauto.
Qed.

Lemma mapM_total {A B} (f : A -> result B) l :
  (forall x, In x l -> exists y, f x = Ok y) -> exists l', mapM f l = Ok l'.
Proof.
  induction l as [|a l IH]; simpl; intros H.
  - eauto.
  - destruct (H a) as [y Hy]; [now left|]. rewrite Hy. simpl.
    destruct IH as [l' Hl']; [intros; apply H; now right|].
    rewrite Hl'. simpl. eauto.
Qed.

(** ** Masks and selection *)

Lemma mask_and_length m s : length s = length m -> length (mask_and m s) = length m.
Proof. intros H. unfold mask_and. rewrite length_zip_with. lia. Qed.

Lemma mask_and_true n s : length s = n -> mask_and (repeat true n) s = s.
Proof.
  revert n. induction s as [|b s IH]; intros [|n] H; simpl in *; try discriminate; auto.
  unfold mask_and in *. simpl. f_equal. apply IH. lia.
Qed.

Lemma mask_and_true_r n m : length m = n -> mask_and m (repeat true n) = m.
Proof.
  revert n. induction m as [|b s IH]; intros [|n] H; simpl in *; try discriminate; auto.
  unfold mask_and in *. simpl. rewrite andb_true_r. f_equal. apply IH. lia.
Qed.

Lemma mask_and_assoc a b c : mask_and (mask_and a b) c = mask_and a (mask_and b c).
Proof.
  revert b c. induction a as [|x a IH]; intros [|y b] [|z c]; simpl; auto.
  unfold mask_and in *. simpl. rewrite andb_assoc. f_equal. apply IH.
Qed.

Lemma mask_le_refl m : mask_le m m.
Proof. induction m; constructor; auto. Qed.

Lemma mask_le_trans a b c : mask_le a b -> mask_le b c -> mask_le a c.
Proof.
  intros H. revert c. induction H; intros c Hc; inversion Hc; subst; constructor; auto.
  now apply IHForall2.
Qed.

Lemma mask_le_and_l a b : length b = length a -> mask_le (mask_and a b) a.
Proof.
  revert b. induction a as [|x a IH]; intros [|y b] H; simpl in *; try discriminate;
    constructor.
  - intros Hxy. now apply andb_true_iff in Hxy.
  - apply IH. lia.
Qed.

Lemma mask_le_and_r a b : length b = length a -> mask_le (mask_and a b) b.
Proof.
  revert b. induction a as [|x a IH]; intros [|y b] H; simpl in *; try discriminate;
    constructor.
  - intros Hxy. now apply andb_true_iff in Hxy.
  - apply IH. lia.
Qed.

Lemma mask_le_length a b : mask_le a b -> length a = length b.
Proof. induction 1; simpl; auto. Qed.

Lemma select_sublist {A} (m : list bool) (xs : list A) : sublist (select m xs) xs.
Proof.
  revert m. induction xs as [|x xs IH]; intros [|b m]; simpl;
    try apply sublist_nil_l.
  destruct b; [apply sublist_skip | apply sublist_cons]; apply IH.
Qed.

Lemma select_mono {A} (m b : list bool) (xs : list A) :
  mask_le m b -> sublist (select m xs) (select b xs).
Proof.
  intros H. revert xs. induction H as [|x y m b Hxy H IH]; intros xs; simpl.
  - constructor.
  - destruct xs as [|a xs]; [constructor|].
    destruct x.
    + rewrite Hxy by reflexivity. apply sublist_skip. apply IH.
    + destruct y; [apply sublist_cons|]; apply IH.
Qed.

Lemma select_all {A} (xs : list A) : select (repeat true (length xs)) xs = xs.
Proof. induction xs; simpl; congruence. Qed.

Lemma select_In {A} (m : list bool) (xs : list A) x : In x (select m xs) -> In x xs.
Proof.
  intros H. apply list_elem_of_In. eapply elem_of_sublist; [|apply select_sublist].
  apply list_elem_of_In. exact H.
Qed.

Lemma select_lookup {A} (m : list bool) (xs : list A) i x :
  xs !! i = Some x -> m !! i = Some true -> In x (select m xs).
Proof.
  revert m i. induction xs as [|a xs IH]; intros [|b m] [|i] Hx Hm; simpl in *;
    try discriminate.
  - inversion Hx; inversion Hm; subst. now left.
  - destruct b; [right|]; eauto.
Qed.

Lemma select_length_split {A} (m : list bool) (xs : list A) :
  length m = length xs ->
  length (select m xs) + length (select (map negb m) xs) = length xs.
Proof.
  revert xs. induction m as [|b m IH]; intros [|x xs] H; simpl in *; try discriminate; auto.
  destruct b; simpl; rewrite <- (IH xs) by lia; lia.
Qed.

Lemma select_perm_split {A} (m : list bool) (xs : list A) :
  length m = length xs ->
  Permutation (select m xs ++ select (map negb m) xs) xs.
Proof.
  revert xs. induction m as [|b m IH]; intros [|x xs] H; simpl in *; try discriminate; auto.
  destruct b; simpl.
  - constructor. apply IH. lia.
  - rewrite <- Permutation_middle. constructor. apply IH. lia.
Qed.

Lemma select_disjoint (m : list bool) (xs : list Row) r :
  NoDup (map fst xs) -> In r (select m xs) -> In r (select (map negb m) xs) -> False.
Proof.
  revert m. induction xs as [|x xs IH]; intros [|b m] Hnd H1 H2; simpl in *; auto.
  apply NoDup_cons in Hnd. destruct Hnd as [Hx Hnd].
  assert (Hin : forall m', In r (select m' xs) -> r = x -> False).
  { intros m' Hr ->. apply Hx. apply list_elem_of_In. apply in_map.
    eapply select_In; eauto. }
  destruct b; simpl in *.
  - destruct H1 as [<-|H1]; [eapply Hin; eauto|]. eauto.
  - destruct H2 as [<-|H2]; [eapply Hin; eauto|]. eauto.
Qed.

(** ** Series *)

Lemma getitem_length df c s : getitem df c = Ok s -> length s = len df.
Proof.
  unfold getitem, len. destruct (find_col _ _); intros H; inversion H.
  apply length_map.
Qed.

Lemma series_cmp_length f s v b : series_cmp f s v = Ok b -> length b = length s.
Proof.
  unfold series_cmp. intros H.
  destruct v; try (eapply mapM_length; eassumption).
  destruct (Nat.eqb_spec (length elems) (length s)); [|discriminate].
  eapply mapM2_length; eauto.
Qed.

Lemma series_isin_length s v b : series_isin s v = Ok b -> length b = length s.
Proof.
  unfold series_isin. destruct v; intros H; inversion H; apply length_map.
Qed.

Lemma eval_op_length df column op value b :
  eval_op df column op value = Ok b -> length b = len df.
Proof.
  unfold eval_op. intros H.
  repeat match type of H with
         | (if ?c then _ else _) = _ => destruct c
         end;
    try discriminate;
    inv_bind H; apply getitem_length in E; rewrite <- E;
    first [ inversion H; apply length_map
          | eapply series_cmp_length; eassumption
          | eapply series_isin_length; eassumption ].
Qed.

(** ** The loops of [apply_filters] only narrow the mask *)

Section Narrowing.
Variable df : DataFrame.

(** Every step of the loops replaces the mask by its conjunction with a
    Series [b] that does not depend on the mask: started from another
    mask of the right length, the same step succeeds with the same [b]. *)

Lemma apply_ops_narrow column ops mask mask' m :
  length mask = len df -> length mask' = len df ->
  apply_ops df column ops mask = Ok m ->
  exists b, length b = len df /\ m = mask_and mask b /\
            apply_ops df column ops mask' = Ok (mask_and mask' b).
Proof.
  revert mask mask' m. induction ops as [|[op value] ops IH]; simpl; intros mask mask' m Hl Hl' H.
  - inversion H; subst. exists (repeat true (len df)).
    rewrite repeat_length, !mask_and_true_r by assumption. auto.
  - inv_bind H. pose proof (eval_op_length _ _ _ _ _ E) as Hx.
    destruct (IH (mask_and mask x) (mask_and mask' x) m) as (b & Hb & -> & Hb');
      try (rewrite mask_and_length; congruence); auto.
    exists (mask_and x b). rewrite E. simpl.
    rewrite mask_and_length by congruence.
    rewrite <- !mask_and_assoc. auto.
Qed.

Lemma apply_condition_narrow column condition mask mask' m :
  length mask = len df -> length mask' = len df ->
  apply_condition df column condition mask = Ok m ->
  exists b, length b = len df /\ m = mask_and mask b /\
            apply_condition df column condition mask' = Ok (mask_and mask' b).
Proof.
  intros Hl Hl' H.
  assert (Hlit : (do s <- getitem df column;
                  do b <- series_eq s condition; Ok (mask_and mask b)) = Ok m ->
                 exists b, length b = len df /\ m = mask_and mask b /\
                   (do s <- getitem df column;
                    do b <- series_eq s condition; Ok (mask_and mask' b))
                   = Ok (mask_and mask' b)).
  { clear H. intros H. inv_bind H. inv_bind H. inversion H; subst.
    exists x0. rewrite E. simpl. rewrite E0. simpl. split; auto.
    apply series_cmp_length in E0. apply getitem_length in E. congruence. }
  destruct condition; simpl in *; auto.
  eapply apply_ops_narrow; eauto.
Qed.

Lemma apply_condition_alone column condition mask m :
  length mask = len df ->
  apply_condition df column condition mask = Ok m ->
  exists b, length b = len df /\ m = mask_and mask b /\
            apply_condition df column condition (repeat true (len df)) = Ok b.
Proof.
  intros Hl H.
  destruct (apply_condition_narrow column condition mask (repeat true (len df)) m)
    as (b & Hb & -> & Hb'); auto using repeat_length.
  rewrite mask_and_true in Hb' by assumption. eauto.
Qed.

Lemma filter_loop_narrow filters mask m :
  length mask = len df ->
  filter_loop df filters mask = Ok m ->
  length m = len df /\ mask_le m mask /\
  forall column condition, In (column, condition) filters ->
    exists b, apply_condition df column condition (repeat true (len df)) = Ok b /\
              mask_le m b.
Proof.
  revert mask m. induction filters as [|[c cond] filters IH]; simpl; intros mask m Hl H.
  - inversion H; subst. split; [assumption|]. split; [apply mask_le_refl|].
    intros ? ? [].
  - inv_bind H.
    destruct (apply_condition_alone _ _ _ _ Hl E) as (b & Hb & -> & Hb').
    assert (Hlen : length (mask_and mask b) = len df)
      by (rewrite mask_and_length; congruence).
    destruct (IH _ _ Hlen H) as (Hm & Hle & Hall).
    split; [assumption|]. split.
    + eapply mask_le_trans; [exact Hle|]. apply mask_le_and_l. congruence.
    + intros column condition [Heq|Hin].
      * inversion Heq; subst. exists b. split; [assumption|].
        eapply mask_le_trans; [exact Hle|]. apply mask_le_and_r. congruence.
      * auto.
Qed.

End Narrowing.

(** C4.  With an empty filter specification [apply_filters] returns a
    table equal to its input: the same columns and the same rows, with
    their labels, in the same order. *)
Theorem apply_filters_empty (T : DataFrame) : apply_filters T [] = Ok T.
Proof.
  unfold apply_filters, copy, loc, len. simpl. rewrite select_all. now destruct T.
Qed.

Lemma has_column_getitem df c :
  has_column df c = true -> exists s, getitem df c = Ok s.
Proof.
  unfold has_column, getitem. destruct (find_col _ _); [eauto|discriminate].
Qed.

Lemma negb_isna_map s : map notna s = map negb (map isna s).
Proof. rewrite map_map. reflexivity. Qed.

(** C8.  For a table [T] whose column labels are pairwise distinct and a
    column [C] of [T], filtering by [{C: {"isna": v}}] and by
    [{C: {"notna": v'}}] both succeed, whatever the operands; the two
    results are selected by a mask and its complement, so together they
    hold every row of [T] exactly once, their sizes add up to [len T], and
    no row (told apart by its index label) is in both. *)
Theorem isna_notna_partition (T : DataFrame) (C : string) (v v' : Value) :
  NoDup (columns T) ->
  has_column T C = true ->
  exists A B,
    apply_filters T [(C, VDict [("isna", v)])] = Ok A /\
    apply_filters T [(C, VDict [("notna", v')])] = Ok B /\
    len A + len B = len T /\
    Permutation (rows A ++ rows B) (rows T) /\
    (exists mask, length mask = len T /\
                  rows A = select mask (rows T) /\
                  rows B = select (map negb mask) (rows T)) /\
    (NoDup (index T) -> forall r, In r (rows A) -> In r (rows B) -> False).
Proof.
  intros _ Hc. destruct (has_column_getitem _ _ Hc) as [s Hs].
  pose proof (getitem_length _ _ _ Hs) as Hl.
  assert (Hm : length (map isna s) = length (rows T))
    by (rewrite length_map; exact Hl).
  exists (copy (loc T (map isna s))), (copy (loc T (map negb (map isna s)))).
  unfold apply_filters. simpl. unfold eval_op. simpl. rewrite Hs. simpl.
  rewrite !mask_and_true by (rewrite ?length_map; assumption).
  rewrite negb_isna_map.
  split; [reflexivity|]. split; [reflexivity|].
  unfold len. simpl.
  split; [now apply select_length_split|].
  split; [now apply select_perm_split|].
  split; [exists (map isna s); auto|].
  intros Hnd r. now apply select_disjoint.
Qed.

(** ** Errors of [apply_filters] *)

Lemma filter_loop_app df pre rest mask :
  filter_loop df (pre ++ rest) mask =
  do m <- filter_loop df pre mask; filter_loop df rest m.
Proof.
  revert mask. induction pre as [|[c cond] pre IH]; simpl; intros mask; [reflexivity|].
  destruct (apply_condition df c cond mask); simpl; auto.
Qed.

Lemma apply_ops_app df column ops1 ops2 mask :
  apply_ops df column (ops1 ++ ops2) mask =
  do m <- apply_ops df column ops1 mask; apply_ops df column ops2 m.
Proof.
  revert mask. induction ops1 as [|[op v] ops1 IH]; simpl; intros mask; [reflexivity|].
  destruct (eval_op df column op v); simpl; auto.
Qed.

Lemma eval_op_unsupported df column op value :
  is_recognized op = false ->
  eval_op df column op value = Raise (ValueError ("Unsupported operator: " +:+ op)).
Proof.
  unfold is_recognized, recognized, eval_op. simpl. intros H.
  repeat (apply orb_false_elim in H; destruct H as [-> H]). reflexivity.
Qed.

Lemma eval_op_missing df column op value :
  is_recognized op = true -> has_column df column = false ->
  eval_op df column op value = Raise (KeyError column).
Proof.
  unfold is_recognized, recognized, has_column, eval_op, getitem. simpl. intros H Hc.
  destruct (find_col (columns df) column); [discriminate|].
  repeat match goal with
         | |- (if ?c then _ else _) = _ => destruct c; [reflexivity|]
         end.
  discriminate.
Qed.

Lemma apply_ops_unsupported df column ops op value mask :
  In (op, value) ops -> is_recognized op = false ->
  exists e, apply_ops df column ops mask = Raise e.
Proof.
  revert mask. induction ops as [|[op' v'] ops IH]; simpl; intros mask Hin Hop; [easy|].
  destruct (eval_op df column op' v') as [s|e] eqn:E; simpl; [|eauto].
  destruct Hin as [Heq|Hin]; [|eauto].
  inversion Heq; subst. rewrite eval_op_unsupported in E by assumption. discriminate.
Qed.

Lemma filter_loop_unsupported df F mask :
  has_unsupported F -> exists e, filter_loop df F mask = Raise e.
Proof.
  intros (column & ops & op & value & Hin & Hop & Hrec).
  revert mask. induction F as [|[c cond] F IH]; simpl; intros mask; [easy|].
  destruct (apply_condition df c cond mask) as [m|e] eqn:E; simpl; [|eauto].
  destruct Hin as [Heq|Hin]; [|eauto].
  inversion Heq; subst. simpl in E.
  destruct (apply_ops_unsupported df column ops op value mask Hop Hrec) as [e He].
  congruence.
Qed.

(** C2, as amended.  A filter specification with an operator symbol
    outside the recognised set never yields a table: [apply_filters]
    raises.  The exception is [ValueError "Unsupported operator: <op>"]
    for the first such symbol [op], provided the items before it, and the
    operators before it in its own condition, evaluate without error
    (otherwise the earlier error is the one raised).  In particular
    [{"Amount": {"~=": 5}}] raises that [ValueError] on every table. *)
Theorem unsupported_operator_raises (T : DataFrame) :
  (forall F, has_unsupported F -> exists e, apply_filters T F = Raise e) /\
  (forall pre column ops1 op value ops2 rest mask mask',
     is_recognized op = false ->
     filter_loop T pre (repeat true (len T)) = Ok mask ->
     apply_ops T column ops1 mask = Ok mask' ->
     apply_filters T (pre ++ (column, VDict (ops1 ++ (op, value) :: ops2)) :: rest)
     = Raise (ValueError ("Unsupported operator: " +:+ op))) /\
  apply_filters T [("Amount", VDict [("~=", VNum 5)])]
  = Raise (ValueError "Unsupported operator: ~=").
Proof.
  split; [|split].
  - intros F HF. unfold apply_filters.
    destruct (filter_loop_unsupported T F (repeat true (len T)) HF) as [e ->].
    simpl. eauto.
  - intros pre column ops1 op value ops2 rest mask mask' Hop Hpre Hops.
    unfold apply_filters. rewrite filter_loop_app, Hpre. simpl.
    rewrite apply_ops_app, Hops. simpl.
    now rewrite eval_op_unsupported.
  - reflexivity.
Qed.

(** C3, as amended.  When the items before it evaluate without error, a
    condition on a column the table does not have raises [KeyError] with
    the column name as soon as it looks the column up: a literal does, and
    so does a mapping whose first operator is recognised, [isna] and
    [notna] included.  No operator treats the missing column as null and
    none yields false for it. *)
Theorem missing_column_raises (T : DataFrame) (pre rest : list (string * Value))
    (column : string) (condition : Value) (mask : list bool) :
  has_column T column = false ->
  looks_up_column condition = true ->
  filter_loop T pre (repeat true (len T)) = Ok mask ->
  apply_filters T (pre ++ (column, condition) :: rest) = Raise (KeyError column).
Proof.
  intros Hc Hlook Hpre. unfold apply_filters. rewrite filter_loop_app, Hpre. simpl.
  assert (Hget : getitem T column = Raise (KeyError column)).
  { unfold has_column in Hc. unfold getitem.
    destruct (find_col (columns T) column); [discriminate|reflexivity]. }
  destruct condition; simpl; try (rewrite Hget; reflexivity).
  destruct items as [|[op v] items]; simpl in *; [discriminate|].
  now rewrite eval_op_missing.
Qed.

(** ** The two contract segments *)

Lemma lookup_map {A B} (f : A -> B) (l : list A) i :
  map f l !! i = f <$> (l !! i).
Proof. exact (list_lookup_fmap f l i). Qed.

Lemma mapM_pure {A B} (f : A -> B) (l : list A) :
  mapM (fun x => Ok (f x)) l = Ok (map f l).
Proof. induction l as [|x l IH]; simpl; [reflexivity|]. now rewrite IH. Qed.

Lemma In_lookup {A} (l : list A) x : In x l -> exists i, l !! i = Some x.
Proof. intros H. apply list_elem_of_lookup. now apply list_elem_of_In. Qed.

Lemma cell_getitem df r c v i :
  rows df !! i = Some r -> cell df r c = Some v ->
  exists s, getitem df c = Ok s /\ s !! i = Some v.
Proof.
  unfold cell, getitem. intros Hi Hc.
  destruct (find_col (columns df) c) as [j|]; [|discriminate].
  eexists. split; [reflexivity|].
  rewrite lookup_map, Hi. simpl. unfold cell_at.
  now rewrite (nth_lookup_Some _ _ VNull _ Hc).
Qed.

Lemma series_ord_dates o s d :
  date_series s -> exists a, series_ord o s (VDate d) = Ok a.
Proof.
  intros Hs. unfold series_ord, series_cmp. apply mapM_total.
  intros x Hx. destruct (Hs x Hx) as [->|[t ->]]; simpl; eauto.
Qed.

Lemma series_ord_lookup o s d a i x :
  series_ord o s (VDate d) = Ok a -> s !! i = Some x ->
  exists y, cmp_ord o x (VDate d) = Ok y /\ a !! i = Some y.
Proof.
  unfold series_ord, series_cmp. intros Ha Hi.
  exact (mapM_lookup (fun x => cmp_ord o x (VDate d)) s a i x Ha Hi).
Qed.

Lemma segment_mask_lookup (a b c : list bool) i :
  a !! i = Some true -> b !! i = Some true -> c !! i = Some true ->
  series_and (series_and a b) c !! i = Some true.
Proof.
  intros Ha Hb Hc. unfold series_and.
  apply lookup_zip_with_Some. exists true, true. split; [reflexivity|].
  split; [|assumption].
  apply lookup_zip_with_Some. exists true, true. auto.
Qed.

(** C10.  Let [today] be the day both functions work with (the argument or
    the clock of [leakage_zombies], the module constant of
    [expiring_soon_contracts]), let the table have pairwise distinct
    column labels and one cell per column in every row, and let its
    [EndDate] column hold timestamps and nulls.  A row with [Status]
    "Activated", a null
    [SBQQ__RenewalOpportunity__c] and [EndDate] exactly 30 days before
    [today] is returned by both functions: the two segments overlap on the
    boundary date. *)
Theorem boundary_row_in_both (now today : Z) (today_arg : option Z)
    (T : DataFrame) (e : list Value) (r : Row) :
  wf_df T ->
  effective_today now today_arg = today ->
  getitem T "EndDate" = Ok e ->
  date_series e ->
  In r (rows T) ->
  cell T r "Status" = Some (VStr "Activated") ->
  cell T r "SBQQ__RenewalOpportunity__c" = Some VNull ->
  cell T r "EndDate" = Some (VDate (today - Timedelta_days 30)%Z) ->
  exists Zs Es,
    leakage_zombies now T today_arg = Ok Zs /\
    expiring_soon_contracts today T = Ok Es /\
    In r (rows Zs) /\ In r (rows Es).
Proof.
  intros _ Htoday He Hdates Hr Hstatus Hrenewal Hend.
  destruct (In_lookup _ _ Hr) as [i Hi].
  destruct (cell_getitem _ _ _ _ _ Hi Hstatus) as (s & Hs & Hsi).
  destruct (cell_getitem _ _ _ _ _ Hi Hrenewal) as (o & Ho & Hoi).
  destruct (cell_getitem _ _ _ _ _ Hi Hend) as (e' & He' & Hei).
  assert (e' = e) by congruence. subst e'.
  set (d := (today - Timedelta_days 30)%Z) in *.
  destruct (series_ord_dates OpLe e d Hdates) as [le Hle].
  destruct (series_ord_dates OpGe e d Hdates) as [ge Hge].
  destruct (series_ord_lookup _ _ _ _ _ _ Hle Hei) as (y & Hy & Hlei).
  destruct (series_ord_lookup _ _ _ _ _ _ Hge Hei) as (y' & Hy' & Hgei).
  cbv [cmp_ord isna orb as_number ord_Z] in Hy, Hy'.
  assert (y = true) by (rewrite Z.leb_refl in Hy; congruence).
  assert (y' = true) by (rewrite Z.geb_leb, Z.leb_refl in Hy'; congruence).
  subst y y'.
  assert (Heq : (map (fun x => cmp_eq x (VStr "Activated")) s) !! i = Some true)
    by (rewrite lookup_map, Hsi; reflexivity).
  assert (Hna : (map isna o) !! i = Some true)
    by (rewrite lookup_map, Hoi; reflexivity).
  unfold leakage_zombies, expiring_soon_contracts.
  fold (effective_today now today_arg). rewrite Htoday. fold d.
  rewrite He, Hs, Ho. cbn [bind]. rewrite Hle, Hge. cbn [bind].
  unfold series_eq, series_cmp. rewrite mapM_pure. cbn [bind].
  do 2 eexists. split; [reflexivity|]. split; [reflexivity|]. cbn [rows copy loc].
  split; eapply select_lookup; eauto using segment_mask_lookup.
Qed.

(** ** Column positions *)

Lemma find_col_Some cols c j : find_col cols c = Some j -> cols !! j = Some c.
Proof.
  revert j. induction cols as [|c' cols IH]; simpl; intros j H; [discriminate|].
  destruct (String.eqb_spec c' c).
  - inversion H; subst. reflexivity.
  - destruct (find_col cols c); inversion H; subst. simpl. auto.
Qed.

Lemma find_col_None cols c : find_col cols c = None -> ~ In c cols.
Proof.
  induction cols as [|c' cols IH]; simpl; intros H; [tauto|].
  destruct (String.eqb_spec c' c); [discriminate|].
  destruct (find_col cols c); [discriminate|]. intros [?|?]; tauto.
Qed.

Lemma find_col_lt cols c j : find_col cols c = Some j -> j < length cols.
Proof. intros H. apply find_col_Some in H. eapply lookup_lt_Some; eauto. Qed.

Lemma find_col_snoc cols c c' :
  find_col (cols ++ [c]) c' =
  match find_col cols c' with
  | Some j => Some j
  | None => if String.eqb c c' then Some (length cols) else None
  end.
Proof.
  induction cols as [|x cols IH]; simpl.
  - destruct (String.eqb c c'); reflexivity.
  - destruct (String.eqb x c'); [reflexivity|]. rewrite IH.
    destruct (find_col cols c'); [reflexivity|].
    destruct (String.eqb c c'); reflexivity.
Qed.

Lemma find_col_inj cols c c' j :
  find_col cols c = Some j -> find_col cols c' = Some j -> c = c'.
Proof. intros H H'. apply find_col_Some in H, H'. congruence. Qed.

(** ** [df[c] = s] *)

Lemma map_zip_with_l {A B C D} (g : C -> D) (f : A -> B -> C) (k : A -> D) l s :
  length s = length l ->
  (forall x y, In x l -> g (f x y) = k x) ->
  map g (zip_with f l s) = map k l.
Proof.
  revert s. induction l as [|x l IH]; intros [|y s] Hl H; simpl in *; try discriminate; auto.
  f_equal; [apply H; now left|]. apply IH; [lia|]. intros; apply H; now right.
Qed.

Lemma map_zip_with_r {A B C} (g : C -> B) (f : A -> B -> C) l s :
  length s = length l ->
  (forall x y, In x l -> g (f x y) = y) ->
  map g (zip_with f l s) = s.
Proof.
  revert s. induction l as [|x l IH]; intros [|y s] Hl H; simpl in *; try discriminate; auto.
  f_equal; [apply H; now left|]. apply IH; [lia|]. intros; apply H; now right.
Qed.

Lemma In_zip_with {A B C} (f : A -> B -> C) l k z :
  In z (zip_with f l k) -> exists x y, z = f x y /\ In x l /\ In y k.
Proof.
  revert k. induction l as [|a l IH]; intros [|b k]; simpl; try tauto.
  intros [<-|H].
  - exists a, b. auto.
  - destruct (IH _ H) as (x & y & ? & ? & ?). exists x, y. auto.
Qed.

Lemma set_column_rows_length d c s :
  length s = len d -> len (set_column d c s) = len d.
Proof.
  unfold set_column, len. intros H.
  destruct (find_col _ _); simpl; rewrite length_zip_with; unfold len in H; lia.
Qed.

Lemma set_column_index d c s :
  length s = len d -> index (set_column d c s) = index d.
Proof.
  unfold set_column, index, len. intros H.
  destruct (find_col _ _); simpl; apply map_zip_with_l; auto.
Qed.

Lemma set_column_wf d c s :
  wf_df d -> wf_df (set_column d c s).
Proof.
  unfold set_column, wf_df. intros [Hnd Hrows].
  destruct (find_col (columns d) c) as [j|] eqn:E; simpl.
  - split; [assumption|].
    apply List.Forall_forall. intros r Hr.
    apply In_zip_with in Hr.
    destruct Hr as (x & y & -> & Hx & Hy). simpl. rewrite length_insert.
    rewrite List.Forall_forall in Hrows. now apply Hrows.
  - split.
    + apply NoDup_app. split; [assumption|]. split; [|apply NoDup_singleton].
      intros x Hx Hc. apply list_elem_of_singleton in Hc. subst.
      apply find_col_None in E. apply E. now apply list_elem_of_In.
    + apply List.Forall_forall. intros r Hr.
      apply In_zip_with in Hr.
      destruct Hr as (x & y & -> & Hx & Hy). simpl. rewrite !length_app. simpl.
      rewrite List.Forall_forall in Hrows. now rewrite (Hrows x).
Qed.

Lemma has_column_set_column d c s c' :
  has_column d c' = true -> has_column (set_column d c s) c' = true.
Proof.
  unfold has_column, set_column.
  destruct (find_col (columns d) c); simpl; [auto|].
  rewrite find_col_snoc. destruct (find_col (columns d) c'); [auto|discriminate].
Qed.

Lemma getitem_set_column_same d c s :
  wf_df d -> length s = len d -> getitem (set_column d c s) c = Ok s.
Proof.
  unfold set_column, getitem, len. intros [_ Hrows] Hl. rewrite List.Forall_forall in Hrows.
  destruct (find_col (columns d) c) as [j|] eqn:E; simpl.
  - rewrite E. f_equal. apply map_zip_with_r; [assumption|].
    intros x y Hx. unfold cell_at. simpl. apply nth_lookup_Some.
    apply list_lookup_insert_eq. rewrite (Hrows x Hx).
    eapply find_col_lt; eauto.
  - rewrite find_col_snoc, E, String.eqb_refl. f_equal.
    apply map_zip_with_r; [assumption|].
    intros x y Hx. unfold cell_at. simpl.
    rewrite <- (Hrows x Hx). apply nth_middle.
Qed.

Lemma getitem_set_column_other d c s c' :
  wf_df d -> length s = len d -> c' <> c ->
  getitem (set_column d c s) c' = getitem d c'.
Proof.
  unfold set_column, getitem, len. intros [_ Hrows] Hl Hne. rewrite List.Forall_forall in Hrows.
  destruct (find_col (columns d) c) as [j|] eqn:E; simpl.
  - destruct (find_col (columns d) c') as [j'|] eqn:E'; [|reflexivity].
    f_equal. apply map_zip_with_l; [assumption|].
    intros x y Hx. unfold cell_at. simpl.
    assert (j <> j') by (intros ->; apply Hne; eapply find_col_inj; eauto).
    destruct (snd x !! j') as [v|] eqn:Ev.
    + rewrite (nth_lookup_Some _ _ VNull v Ev). apply nth_lookup_Some.
      now rewrite list_lookup_insert_ne.
    + rewrite !nth_overflow; auto.
      * apply lookup_ge_None in Ev. lia.
      * rewrite length_insert. now apply lookup_ge_None in Ev.
  - rewrite find_col_snoc.
    destruct (find_col (columns d) c') as [j'|] eqn:E'.
    + f_equal. apply map_zip_with_l; [assumption|].
      intros x y Hx. unfold cell_at. simpl. apply app_nth1.
      rewrite (Hrows x Hx). eapply find_col_lt; eauto.
    + destruct (String.eqb_spec c c'); [congruence|reflexivity].
Qed.

(** ** The heap effect of [extract_nested_fields] *)

Lemma copy_id d : copy d = d.
Proof. now destruct d. Qed.

Lemma setitem_run h df d c s :
  h !! df = Some d -> setitem df c s h = (Ok tt, <[df := set_column d c s]> h).
Proof. intros H. unfold setitem, bindS, load, store. rewrite H. now rewrite H. Qed.

Lemma extract_fields_run df nested_col field_mapping h d :
  h !! df = Some d -> has_column d nested_col = true ->
  extract_fields df nested_col field_mapping h
  = (Ok tt, <[df := fields_content d nested_col field_mapping]> h).
Proof.
  revert h d. induction field_mapping as [|[field_name new_col_name] rest IH];
    cbn [extract_fields fields_content]; intros h d Hd Hc.
  - unfold ret. now rewrite list_insert_id.
  - destruct (has_column_getitem _ _ Hc) as [s Hs]. rewrite Hs.
    unfold bindS at 1. unfold load at 1. rewrite Hd.
    unfold bindS at 1. unfold lift at 1. rewrite Hs.
    unfold bindS at 1. rewrite (setitem_run _ _ _ _ _ Hd).
    rewrite (IH _ (set_column d new_col_name (map (get_field field_name) s))).
    + now rewrite list_insert_insert_eq.
    + apply list_lookup_insert_eq. eapply lookup_lt_Some; eauto.
    + now apply has_column_set_column.
Qed.

Lemma extract_columns_run df nested_mapping h d :
  h !! df = Some d ->
  extract_columns df nested_mapping h
  = (Ok tt, <[df := columns_content d nested_mapping]> h).
Proof.
  revert h d. induction nested_mapping as [|[nested_col field_mapping] rest IH];
    cbn [extract_columns columns_content]; intros h d Hd.
  - unfold ret. now rewrite list_insert_id.
  - unfold bindS at 1. unfold load at 1. rewrite Hd.
    unfold bindS at 1.
    destruct (has_column d nested_col) eqn:Hc.
    + rewrite (extract_fields_run _ _ _ _ _ Hd Hc).
      rewrite (IH _ (fields_content d nested_col field_mapping)).
      * now rewrite list_insert_insert_eq.
      * apply list_lookup_insert_eq. eapply lookup_lt_Some; eauto.
    + unfold ret at 1. now apply IH.
Qed.

Lemma extract_nested_fields_run h df T nested_mapping :
  h !! df = Some T ->
  extract_nested_fields df nested_mapping h
  = (Ok (length h), h ++ [columns_content T nested_mapping]).
Proof.
  intros HT. unfold extract_nested_fields, df_copy.
  unfold bindS at 1. unfold bindS at 1. unfold load at 1. rewrite HT.
  unfold alloc at 1. rewrite copy_id.
  unfold bindS at 1.
  rewrite (extract_columns_run _ _ _ T).
  - unfold ret. f_equal.
    rewrite <- (Nat.add_0_r (length h)) at 1.
    rewrite insert_app_r. reflexivity.
  - now apply list_lookup_middle.
Qed.

(** ** What the loops do to the content of the copy *)

Lemma fields_content_shape d nested_col fm :
  len (fields_content d nested_col fm) = len d /\
  index (fields_content d nested_col fm) = index d /\
  (wf_df d -> wf_df (fields_content d nested_col fm)) /\
  (forall c, has_column d c = true -> has_column (fields_content d nested_col fm) c = true).
Proof.
  revert d. induction fm as [|[field_name new_col_name] rest IH]; simpl; intros d; [auto|].
  destruct (getitem d nested_col) as [s|] eqn:Hs; [|auto].
  assert (Hl : length (map (get_field field_name) s) = len d)
    by (rewrite length_map; eapply getitem_length; eauto).
  destruct (IH (set_column d new_col_name (map (get_field field_name) s)))
    as (H1 & H2 & H3 & H4).
  rewrite H1, H2, set_column_rows_length, set_column_index by assumption.
  split; [reflexivity|]. split; [reflexivity|]. split.
  - intros Hwf. apply H3. now apply set_column_wf.
  - intros c Hc. apply H4. now apply has_column_set_column.
Qed.

Lemma columns_content_shape d M :
  len (columns_content d M) = len d /\
  index (columns_content d M) = index d /\
  (wf_df d -> wf_df (columns_content d M)) /\
  (forall c, has_column d c = true -> has_column (columns_content d M) c = true).
Proof.
  revert d. induction M as [|[nested_col fm] rest IH]; simpl; intros d; [auto|].
  destruct (has_column d nested_col); [|apply IH].
  destruct (fields_content_shape d nested_col fm) as (H1 & H2 & H3 & H4).
  destruct (IH (fields_content d nested_col fm)) as (G1 & G2 & G3 & G4).
  rewrite G1, G2, H1, H2.
  split; [reflexivity|]. split; [reflexivity|]. split; auto.
Qed.

Lemma fields_content_frame d nested_col fm c :
  wf_df d -> ~ In c (map snd fm) ->
  getitem (fields_content d nested_col fm) c = getitem d c.
Proof.
  revert d. induction fm as [|[field_name new_col_name] rest IH]; simpl; intros d Hwf Hc;
    [reflexivity|].
  destruct (getitem d nested_col) as [s|] eqn:Hs; [|reflexivity].
  assert (Hl : length (map (get_field field_name) s) = len d)
    by (rewrite length_map; eapply getitem_length; eauto).
  rewrite IH; [|now apply set_column_wf|tauto].
  apply getitem_set_column_other; auto.
Qed.

Lemma columns_content_frame d M c :
  wf_df d -> ~ In c (destinations M) ->
  getitem (columns_content d M) c = getitem d c.
Proof.
  revert d. induction M as [|[nested_col fm] rest IH]; simpl; intros d Hwf Hc;
    [reflexivity|].
  rewrite in_app_iff in Hc.
  destruct (has_column d nested_col); [|apply IH; tauto].
  rewrite IH; [|now apply fields_content_shape|tauto].
  apply fields_content_frame; tauto.
Qed.

Lemma fields_content_dest d nested_col fm field_name dest s :
  wf_df d -> NoDup (map snd fm) -> ~ In nested_col (map snd fm) ->
  In (field_name, dest) fm -> getitem d nested_col = Ok s ->
  getitem (fields_content d nested_col fm) dest = Ok (map (get_field field_name) s).
Proof.
  revert d. induction fm as [|[f c] rest IH]; simpl; intros d Hwf Hnd Hsrc Hin Hs; [easy|].
  rewrite Hs. apply NoDup_cons in Hnd. destruct Hnd as [Hc Hnd].
  assert (Hl : length (map (get_field f) s) = len d)
    by (rewrite length_map; eapply getitem_length; eauto).
  destruct Hin as [Heq|Hin].
  - inversion Heq; subst. rewrite fields_content_frame.
    + now apply getitem_set_column_same.
    + now apply set_column_wf.
    + intros H. apply Hc. now apply list_elem_of_In.
  - apply IH; auto using set_column_wf.
    rewrite getitem_set_column_other; auto.
Qed.

Lemma columns_content_dest d M nested_col fm field_name dest s :
  wf_df d -> NoDup (destinations M) -> ~ In nested_col (destinations M) ->
  In (nested_col, fm) M -> In (field_name, dest) fm ->
  getitem d nested_col = Ok s ->
  getitem (columns_content d M) dest = Ok (map (get_field field_name) s).
Proof.
  revert d. induction M as [|[nc fm0] rest IH]; simpl; intros d Hwf Hnd Hsrc HM Hfm Hs;
    [easy|].
  apply NoDup_app in Hnd. destruct Hnd as (Hnd0 & Hdisj & Hnd).
  rewrite in_app_iff in Hsrc.
  destruct HM as [Heq|HM].
  - inversion Heq; subst.
    assert (Hc : has_column d nested_col = true).
    { unfold has_column. unfold getitem in Hs.
      destruct (find_col (columns d) nested_col); [reflexivity|discriminate]. }
    rewrite Hc. rewrite columns_content_frame.
    + eapply fields_content_dest; eauto.
    + now apply fields_content_shape.
    + intros H. apply (Hdisj dest); apply list_elem_of_In; [|assumption].
      apply in_map_iff. exists (field_name, dest). auto.
  - apply IH; auto.
    + destruct (has_column d nc); [now apply fields_content_shape|assumption].
    + destruct (has_column d nc); [|assumption].
      rewrite fields_content_frame; auto.
Qed.

(** ** The n-level flattener *)

Lemma json_normalize_index records :
  index (json_normalize records) = range_index (length records).
Proof.
  unfold index, json_normalize, range_index. simpl.
  change (map fst ?l) with (fst <$> l).
  rewrite fmap_imap.
  rewrite <- (length_map normalise_json_ordered records).
  exact (imap_seq_0 _ (fun j => Z.of_nat j)).
Qed.

Lemma json_normalize_len records : len (json_normalize records) = length records.
Proof. unfold len, json_normalize. simpl. now rewrite length_imap, length_map. Qed.

Lemma concat_axis1_aligned a b :
  index a = index b ->
  exists c, concat_axis1 a b = Ok c /\ len c = len a /\ index c = index a.
Proof.
  intros H. unfold concat_axis1. rewrite bool_decide_eq_true_2 by assumption.
  eexists. split; [reflexivity|].
  assert (Hl : length (rows b) = length (rows a)).
  { unfold index in H. apply (f_equal (@length Z)) in H. now rewrite !length_map in H. }
  unfold len, index. simpl. split.
  - rewrite length_zip_with. lia.
  - apply map_zip_with_l; auto.
Qed.

Lemma extract_from_dict_top_error x mapping e :
  extract_from_dict_top x mapping = Raise e -> exists msg, e = AttributeError msg.
Proof.
  unfold extract_from_dict_top. destruct x; try discriminate.
  destruct mapping; intros H; inversion H; eauto.
Qed.

Lemma mapM_error {A B} (f : A -> result B) l e :
  mapM f l = Raise e -> exists x, In x l /\ f x = Raise e.
Proof.
  induction l as [|a l IH]; simpl; [discriminate|].
  destruct (f a) as [y|e'] eqn:E; simpl.
  - destruct (mapM f l) as [ys|e'']; simpl; [discriminate|].
    intros H. inversion H; subst. destruct IH as (x & ? & ?); eauto.
  - intros H. inversion H; subst. eauto.
Qed.

Lemma levels_content_range d M :
  index d = range_index (len d) ->
  match levels_content d M with
  | Ok d' => len d' = len d /\ index d' = index d
  | Raise e => exists msg, e = AttributeError msg
  end.
Proof.
  revert d. induction M as [|[top_column mapping] rest IH]; simpl; intros d Hd; [auto|].
  destruct (has_column d top_column) eqn:Hc; [|now apply IH].
  destruct (has_column_getitem _ _ Hc) as [s Hs]. rewrite Hs. cbn [bind].
  destruct (mapM (fun x => extract_from_dict_top x mapping) s) as [ex|e] eqn:Hex; cbn [bind].
  - assert (Hi : index d = index (json_normalize ex)).
    { rewrite json_normalize_index, Hd. f_equal.
      erewrite (mapM_length _ s ex) by eassumption.
      symmetry. eapply getitem_length; eauto. }
    destruct (concat_axis1_aligned _ _ Hi) as (c & -> & Hlen & Hidx). cbn [bind].
    specialize (IH c). rewrite Hlen, Hidx in IH. now apply IH.
  - apply mapM_error in Hex. destruct Hex as (x & _ & Hx).
    eapply extract_from_dict_top_error; eauto.
Qed.

Lemma extract_levels_run M h df d :
  h !! df = Some d ->
  exists res extra,
    extract_levels df M h = (res, h ++ extra) /\
    match res with
    | Ok r => exists d', levels_content d M = Ok d' /\ (h ++ extra) !! r = Some d'
    | Raise e => levels_content d M = Raise e
    end.
Proof.
  revert h df d. induction M as [|[top_column mapping] rest IH];
    cbn [extract_levels levels_content]; intros h df d Hd.
  - exists (Ok df), []. rewrite app_nil_r. unfold ret. eauto.
  - unfold bindS at 1. unfold load at 1. rewrite Hd.
    destruct (has_column d top_column); [|now apply IH].
    unfold bindS at 1. unfold lift at 1.
    destruct (getitem d top_column) as [s|e]; cbn [bind];
      [|exists (Raise e), []; rewrite app_nil_r; auto].
    unfold bindS at 1. unfold lift at 1.
    destruct (mapM (fun x => extract_from_dict_top x mapping) s) as [ex|e]; cbn [bind];
      [|exists (Raise e), []; rewrite app_nil_r; auto].
    unfold bindS at 1. unfold lift at 1.
    destruct (concat_axis1 d (json_normalize ex)) as [d1|e]; cbn [bind];
      [|exists (Raise e), []; rewrite app_nil_r; auto].
    unfold bindS at 1. unfold alloc at 1.
    destruct (IH (h ++ [d1]) (length h) d1) as (res & extra & Hh & Hres);
      [now apply list_lookup_middle|].
    exists res, (d1 :: extra). rewrite Hh. rewrite <- app_assoc. split; [reflexivity|].
    rewrite <- app_assoc in Hres. exact Hres.
Qed.

Lemma extract_nested_fields_n_level_run M h df T :
  h !! df = Some T ->
  exists res extra,
    extract_nested_fields_n_level df M h = (res, h ++ extra) /\
    match res with
    | Ok r => exists T', levels_content T M = Ok T' /\ (h ++ extra) !! r = Some T'
    | Raise e => levels_content T M = Raise e
    end.
Proof.
  intros HT. unfold extract_nested_fields_n_level, df_copy.
  unfold bindS at 1. unfold bindS at 1. unfold load at 1. rewrite HT.
  unfold alloc at 1. rewrite copy_id.
  destruct (extract_levels_run M (h ++ [T]) (length h) T) as (res & extra & Hh & Hres);
    [now apply list_lookup_middle|].
  exists res, (T :: extra). rewrite Hh, <- app_assoc. split; [reflexivity|].
  rewrite <- app_assoc in Hres. exact Hres.
Qed.

(** On a table with pairwise distinct column labels
    [extract_nested_fields] returns a new object with the row count and
    the index of its input, and leaves every object of the heap, the input
    among them, as it was. *)
Theorem extract_nested_fields_preserves (h : list DataFrame) (df : nat) (T : DataFrame)
    (M : list (string * list (string * string))) :
  h !! df = Some T ->
  wf_df T ->
  exists T',
    extract_nested_fields df M h = (Ok (length h), h ++ [T']) /\
    len T' = len T /\ index T' = index T /\
    (forall r, r < length h -> (h ++ [T']) !! r = h !! r).
Proof.
  intros HT _. exists (columns_content T M).
  split; [now apply extract_nested_fields_run|].
  destruct (columns_content_shape T M) as (Hlen & Hidx & _).
  split; [assumption|]. split; [assumption|].
  intros r Hr. now apply lookup_app_l.
Qed.

Lemma levels_content_cause d M e :
  index d = range_index (len d) ->
  levels_content d M = Raise e ->
  exists top_column mapping, In (top_column, mapping) M /\ is_mapping mapping = false.
Proof.
  revert d. induction M as [|[top_column mapping] rest IH]; simpl; intros d Hd H;
    [discriminate|].
  assert (Hrest : forall d', index d' = range_index (len d') ->
                             levels_content d' rest = Raise e ->
                             exists top_column0 mapping0,
                               ((top_column, mapping) = (top_column0, mapping0)
                                \/ In (top_column0, mapping0) rest)
                               /\ is_mapping mapping0 = false).
  { intros d' Hd' H'. destruct (IH d' Hd' H') as (t & m & Hin & Hm). eauto. }
  destruct (has_column d top_column) eqn:Hc; [|now apply (Hrest d)].
  destruct (has_column_getitem _ _ Hc) as [s Hs]. rewrite Hs in H. cbn [bind] in H.
  destruct (mapM (fun x => extract_from_dict_top x mapping) s) as [ex|e'] eqn:Hex;
    cbn [bind] in H.
  - assert (Hi : index d = index (json_normalize ex)).
    { rewrite json_normalize_index, Hd. f_equal.
      erewrite (mapM_length _ s ex) by eassumption.
      symmetry. eapply getitem_length; eauto. }
    destruct (concat_axis1_aligned _ _ Hi) as (c & Hcat & Hlen & Hidx).
    rewrite Hcat in H. cbn [bind] in H.
    apply (Hrest c); [|assumption]. now rewrite Hlen, Hidx.
  - apply mapM_error in Hex. destruct Hex as (x & _ & Hx).
    exists top_column, mapping. split; [now left|].
    destruct mapping as [dest|m|]; try reflexivity.
    unfold extract_from_dict_top in Hx. destruct x; discriminate.
Qed.

(** X23.  On a table that carries the default index and has pairwise
    distinct column labels, and for a mapping whose source columns are
    each the label of one column only when the loop reads them,
    [extract_nested_fields_n_level] either returns an object with the row
    count and the index of its input, or raises [AttributeError], which
    takes a top-level entry of the mapping whose value is not a mapping;
    it only allocates, so every object of the heap stays as it was. *)
Theorem extract_nested_fields_n_level_default_index (h : list DataFrame) (df : nat)
    (T : DataFrame) (M : NestedMapping) :
  h !! df = Some T ->
  NoDup (columns T) ->
  sources_unambiguous T M = true ->
  index T = range_index (len T) ->
  exists res extra,
    extract_nested_fields_n_level df M h = (res, h ++ extra) /\
    (forall r, r < length h -> (h ++ extra) !! r = h !! r) /\
    match res with
    | Ok r => exists T', (h ++ extra) !! r = Some T' /\ len T' = len T /\ index T' = index T
    | Raise e =>
        (exists msg, e = AttributeError msg) /\
        exists top_column mapping, In (top_column, mapping) M /\ is_mapping mapping = false
    end.
Proof.
  intros HT _ _ Hidx.
  destruct (extract_nested_fields_n_level_run M h df T HT) as (res & extra & Hrun & Hres).
  exists res, extra. split; [assumption|].
  split; [intros r Hr; now apply lookup_app_l|].
  pose proof (levels_content_range T M Hidx) as Hrange.
  destruct res as [r|e].
  - destruct Hres as (T' & HT' & Hr). rewrite HT' in Hrange. eauto.
  - split; [now rewrite Hres in Hrange|].
    eapply levels_content_cause; eauto.
Qed.

(** C5.  The table [apply_filters] returns for
    [{"Account": {"notna": True}}] on [contracts_df] has one row, labelled
    1.  [extract_nested_fields] returns one row for it;
    [extract_nested_fields_n_level] returns two, because [pd.concat] aligns
    the extracted frame (labelled 0) with the table (labelled 1) on the
    index labels. *)
Theorem n_level_row_count_filtered_table :
  apply_filters contracts_df [("Account", VDict [("notna", VBool true)])]
  = Ok with_account_df /\
  len with_account_df = 1 /\
  (exists T1, extract_nested_fields 0 account_mapping [with_account_df]
              = (Ok 1, [with_account_df; T1]) /\ len T1 = 1) /\
  exists T2, extract_nested_fields_n_level 0 account_mapping_n [with_account_df]
             = (Ok 2, [with_account_df; with_account_df; T2]) /\ len T2 = 2.
Proof.
  split; [reflexivity|]. split; [reflexivity|]. split.
  - exists {| columns := ["Id"; "Account"; "Account Name"];
              rows := [ (1%Z, [VStr "002"; VDict [("Name", VStr "ACME")]; VStr "ACME"]) ] |}.
    split; reflexivity.
  - exists {| columns := ["Id"; "Account"; "Account Name"];
              rows := [ (1%Z, [VStr "002"; VDict [("Name", VStr "ACME")]; VNull]);
                        (0%Z, [VNull; VNull; VStr "ACME"]) ] |}.
    split; [vm_compute|]; reflexivity.
Qed.

(** ** Null for a path that does not resolve *)

(** The recursion equation of [extract_from_dict], as the source writes
    it: a nested mapping calls [extract_from_dict] on the nested data and
    merges what it returns. *)
Lemma extract_item_nested d key m result :
  extract_item d key (MNested m) result =
  match dict_get d key with
  | Some (VDict nested_data) =>
      dict_update result (extract_from_dict (VDict nested_data) m)
  | _ => result
  end.
Proof.
  simpl. destruct (dict_get d key) as [[| | | | |nested_data|]|]; try reflexivity.
  f_equal. generalize (@nil (string * Value)).
  induction m as [|[k v] m IH]; intros acc; [reflexivity|].
  cbn [fold_left fst snd]. apply IH.
Qed.

Lemma extract_from_dict_cons d key value mapping :
  extract_from_dict (VDict d) ((key, value) :: mapping) =
  fold_left (fun result kv => extract_item d (fst kv) (snd kv) result) mapping
            (extract_item d key value []).
Proof. reflexivity. Qed.

Lemma unresolved_get_field field_name x :
  unresolved field_name x -> get_field field_name x = VNull.
Proof.
  destruct x; simpl; auto. unfold dict_get_default. now intros ->.
Qed.

Lemma extract_item_not_object d key m result :
  match dict_get d key with
  | Some (VDict _) => False
  | _ => True
  end ->
  extract_item d key (MNested m) result = result.
Proof. simpl. destruct (dict_get d key) as [[]|]; tauto. Qed.

(** C6.  The scenario of the specification, run through
    [extract_nested_fields_n_level]: the table has one row, whose
    [Account] is null, and the mapping is
    [{"Account": {"Name": "Account Name"}}].  [extract_from_dict] returns
    the empty dictionary for the null, so the extracted frame has no
    column and the table returned has no [Account Name] column: the row
    holds no null there, and reading the column, as usecase2 reads its
    destination right after the call, raises [KeyError].  The destination
    is null for the row only when another row resolves the path (the
    two-row table), and [extract_nested_fields] gives the null on the
    one-row table. *)
Theorem n_level_unresolved_path_no_column :
  cell no_account_df (0%Z, [VStr "001"; VNull]) "Account" = Some VNull /\
  extract_from_dict VNull [("Name", MLeaf "Account Name")] = [] /\
  (exists T', extract_nested_fields_n_level 0 account_mapping_n [no_account_df]
              = (Ok 2, [no_account_df; no_account_df; T']) /\
              columns T' = ["Id"; "Account"] /\
              getitem T' "Account Name" = Raise (KeyError "Account Name") /\
              forall r, In r (rows T') -> cell T' r "Account Name" <> Some VNull) /\
  (exists T', extract_nested_fields_n_level 0 account_mapping_n [contracts_df]
              = (Ok 2, [contracts_df; contracts_df; T']) /\
              getitem T' "Account Name" = Ok [VNull; VStr "ACME"]) /\
  (exists T', extract_nested_fields 0 account_mapping [no_account_df]
              = (Ok 1, [no_account_df; T']) /\
              getitem T' "Account Name" = Ok [VNull]).
Proof.
  split; [reflexivity|]. split; [reflexivity|]. split; [|split].
  - exists no_account_df. split; [vm_compute; reflexivity|]. split; [reflexivity|].
    split; [reflexivity|]. intros r _. discriminate.
  - eexists. split; [vm_compute; reflexivity|]. reflexivity.
  - eexists. split; reflexivity.
Qed.

(** The one-level flattener on a path that does not resolve.  On a table
    with pairwise distinct column labels [extract_nested_fields] raises no
    error.  When the table has the source column, the destination names of
    the mapping are pairwise distinct and the source column is not one of
    them, every row whose source value is null, is not an object or lacks
    the field holds null in the destination column of the result.  A
    source column the table does not have is skipped and leaves the table
    as it is.  [extract_from_dict] returns the empty dictionary for data
    that is not an object, and adds nothing for a nested mapping whose
    path segment is absent, null or not an object. *)
Theorem unresolved_path_gives_null (h : list DataFrame) (df : nat) (T : DataFrame)
    (M : list (string * list (string * string))) :
  h !! df = Some T ->
  wf_df T ->
  exists T',
    extract_nested_fields df M h = (Ok (length h), h ++ [T']) /\
    (forall nested_col field_mapping field_name new_col_name s i x,
       NoDup (destinations M) -> ~ In nested_col (destinations M) ->
       In (nested_col, field_mapping) M -> In (field_name, new_col_name) field_mapping ->
       getitem T nested_col = Ok s -> s !! i = Some x -> unresolved field_name x ->
       exists col, getitem T' new_col_name = Ok col /\ col !! i = Some VNull) /\
    (forall nested_col field_mapping,
       M = [(nested_col, field_mapping)] -> has_column T nested_col = false -> T' = T) /\
    (forall data mapping, is_dict data = false -> extract_from_dict data mapping = []) /\
    (forall d key m result,
       match dict_get d key with
       | Some (VDict _) => False
       | _ => True
       end ->
       extract_item d key (MNested m) result = result).
Proof.
  intros HT Hwf. exists (columns_content T M).
  split; [now apply extract_nested_fields_run|]. split; [|split; [|split]].
  - intros nested_col field_mapping field_name new_col_name s i x
      Hnd Hsrc HM Hfm Hs Hi Hx.
    exists (map (get_field field_name) s). split.
    + eapply columns_content_dest; eauto.
    + rewrite lookup_map, Hi. simpl. now rewrite unresolved_get_field.
  - intros nested_col field_mapping -> Hc. simpl. now rewrite Hc.
  - intros data mapping Hd. destruct data; try reflexivity. discriminate.
  - apply extract_item_not_object.
Qed.

(** C7, counterexample.  [Name] is a column of [named_df] and is not a
    source column of [{"Account": {"Name": "Name"}}], yet flattening
    replaces its value "Contract 7" by the account name. *)
Lemma destination_overwrites_existing_column :
  ~ In "Name" (sources account_mapping_name) /\
  getitem named_df "Name" = Ok [VStr "Contract 7"] /\
  exists T', extract_nested_fields 0 account_mapping_name [named_df]
             = (Ok 1, [named_df; T']) /\
             getitem T' "Name" = Ok [VStr "ACME"].
Proof.
  split; [simpl; intros [H|[]]; discriminate|]. split; [reflexivity|].
  eexists. split; reflexivity.
Qed.

(** C7, as amended.  Every column label that is not a destination name of
    the mapping reads the same in the flattened table as in [T]: the same
    values under the same index labels (and a label [T] does not have is
    still missing).  This covers the source columns that are not
    destinations themselves. *)
Theorem untargeted_columns_intact (h : list DataFrame) (df : nat) (T : DataFrame)
    (M : list (string * list (string * string))) (c : string) :
  h !! df = Some T ->
  wf_df T ->
  ~ In c (destinations M) ->
  exists T',
    extract_nested_fields df M h = (Ok (length h), h ++ [T']) /\
    index T' = index T /\
    getitem T' c = getitem T c.
Proof.
  intros HT Hwf Hc. exists (columns_content T M).
  split; [now apply extract_nested_fields_run|].
  split; [apply columns_content_shape|].
  now apply columns_content_frame.
Qed.

(** ** Pie segments *)

Lemma dict_get_set_other {V} (d : list (string * V)) k k' v :
  k' <> k -> dict_get (dict_set d k' v) k = dict_get d k.
Proof.
  intros Hne. induction d as [|[k0 v0] d IH]; simpl.
  - destruct (String.eqb_spec k' k); [contradiction|reflexivity].
  - destruct (String.eqb_spec k0 k'); simpl.
    + subst. destruct (String.eqb_spec k' k); [contradiction|reflexivity].
    + destruct (String.eqb k0 k); [reflexivity|exact IH].
Qed.

Lemma build_description_map_total llm_output dm0 :
  Forall title_well_typed llm_output ->
  exists dm, build_description_map llm_output dm0 = Ok dm.
Proof.
  intros H. revert dm0. induction H as [|item rest Hitem _ IH]; simpl; intros dm0; [eauto|].
  unfold title_well_typed in Hitem. unfold dict_get_default at 1.
  destruct (dict_get item "title") as [[]|]; try contradiction; simpl; apply IH.
Qed.

Lemma build_description_map_absent llm_output dm0 dm label :
  build_description_map llm_output dm0 = Ok dm ->
  (forall item, In item llm_output -> record_base_title item <> Some label) ->
  dict_get dm label = dict_get dm0 label.
Proof.
  revert dm0. induction llm_output as [|item rest IH]; simpl; intros dm0 H Hno.
  - now inversion H.
  - inv_bind H. rewrite (IH _ H) by (intros; apply Hno; now right).
    apply dict_get_set_other. intros Heq.
    apply (Hno item); [now left|]. unfold record_base_title.
    destruct (dict_get_default item "title" (VStr "")); try discriminate.
    inversion E; subst. reflexivity.
Qed.

Lemma pie_loop_titles dm lmap colors idx labels :
  map seg_title (pie_loop dm lmap colors idx labels) = List.filter (has_label lmap) labels.
Proof.
  revert idx. induction labels as [|label rest IH]; simpl; intros idx; [reflexivity|].
  unfold has_label at 1. destruct (dict_get lmap label); simpl; now rewrite IH.
Qed.

Lemma pie_loop_segments dm lmap colors idx labels :
  Forall (fun s => (exists df, dict_get lmap (seg_title s) = Some df /\ seg_count s = len df)
                   /\ seg_description s = dict_get_default dm (seg_title s) (VStr ""))
         (pie_loop dm lmap colors idx labels).
Proof.
  revert idx. induction labels as [|label rest IH]; simpl; intros idx; [constructor|].
  destruct (dict_get lmap label) as [df|] eqn:E; [|apply IH].
  constructor; [|apply IH]. simpl. eauto.
Qed.

Lemma segments_of_length label segs :
  length (segments_of label segs) = count_occ string_dec (map seg_title segs) label.
Proof.
  induction segs as [|s segs IH]; simpl; [reflexivity|].
  destruct (String.eqb_spec (seg_title s) label), (string_dec (seg_title s) label);
    simpl; congruence.
Qed.

Lemma count_occ_filter_true (p : string -> bool) l x :
  p x = true -> count_occ string_dec (List.filter p l) x = count_occ string_dec l x.
Proof.
  intros Hp. induction l as [|y l IH]; simpl; [reflexivity|].
  destruct (p y) eqn:E; simpl; destruct (string_dec y x); subst; try congruence.
Qed.

(** C9, counterexample.  A record whose title is null, or a number, is a
    record of a list of records, and [build_pie_segments] raises
    [TypeError] on it: the default of [item.get("title", "")] stands in
    for an absent key only. *)
Lemma non_string_title_raises :
  (exists msg,
     build_pie_segments [[("title", VNull); ("description", VStr "two contracts")]]
       [("Healthy", contracts_df)] ["Healthy"] ["#00FF00"]
     = Raise (TypeError msg)) /\
  (exists msg,
     build_pie_segments [[("segment_no", VNum 1); ("title", VNum 3)]]
       [("Healthy", contracts_df)] ["Healthy"] ["#00FF00"]
     = Raise (TypeError msg)).
Proof. split; eexists; reflexivity. Qed.

(** C9, as amended.  When every title present in the narrative records is
    a string, [build_pie_segments] returns, whether or not records lack a
    title or a description.  Its segments are, in order, one for each
    entry of [pie_labels] that is a key of [label_to_df_map]: a label
    listed once yields exactly one segment, with that label as title and
    the number of rows of the label's table as count (a label listed [k]
    times yields [k]); and a segment whose label is the base title of no
    record has the empty string as description. *)
Theorem build_pie_segments_tolerant (llm_output : list (list (string * Value)))
    (label_to_df_map : list (string * DataFrame)) (pie_labels pie_colors : list string) :
  Forall title_well_typed llm_output ->
  exists pie_segments,
    build_pie_segments llm_output label_to_df_map pie_labels pie_colors = Ok pie_segments /\
    map seg_title pie_segments = List.filter (has_label label_to_df_map) pie_labels /\
    (forall label, has_label label_to_df_map label = true ->
       length (segments_of label pie_segments) = count_occ string_dec pie_labels label) /\
    (forall label df,
       dict_get label_to_df_map label = Some df ->
       count_occ string_dec pie_labels label = 1 ->
       exists s, segments_of label pie_segments = [s] /\
                 seg_title s = label /\ seg_count s = len df) /\
    (forall s, In s pie_segments ->
       exists df, dict_get label_to_df_map (seg_title s) = Some df /\ seg_count s = len df) /\
    (forall s, In s pie_segments ->
       (forall item, In item llm_output -> record_base_title item <> Some (seg_title s)) ->
       seg_description s = VStr "").
Proof.
  intros Htitles. unfold build_pie_segments.
  destruct (build_description_map_total llm_output [] Htitles) as [dm Hdm].
  rewrite Hdm. cbn [bind]. eexists. split; [reflexivity|].
  pose proof (pie_loop_segments dm label_to_df_map pie_colors 0 pie_labels) as Hsegs.
  rewrite List.Forall_forall in Hsegs.
  assert (Hcount : forall label, has_label label_to_df_map label = true ->
            length (segments_of label
                      (pie_loop dm label_to_df_map pie_colors 0 pie_labels))
            = count_occ string_dec pie_labels label).
  { intros label Hl. rewrite segments_of_length, pie_loop_titles.
    now apply count_occ_filter_true. }
  split; [apply pie_loop_titles|]. split; [exact Hcount|]. split; [|split].
  - intros label df Hdf Hone.
    assert (Hl : has_label label_to_df_map label = true)
      by (unfold has_label; now rewrite Hdf).
    specialize (Hcount label Hl). rewrite Hone in Hcount.
    destruct (segments_of label (pie_loop dm label_to_df_map pie_colors 0 pie_labels))
      as [|s [|s' l]] eqn:Hseg; try discriminate.
    exists s. split; [reflexivity|].
    assert (Hin : In s (segments_of label
                          (pie_loop dm label_to_df_map pie_colors 0 pie_labels)))
      by (rewrite Hseg; now left).
    unfold segments_of in Hin. apply filter_In in Hin. destruct Hin as [Hin Ht].
    apply String.eqb_eq in Ht. split; [exact Ht|].
    destruct (Hsegs s Hin) as [(df' & Hdf' & Hc) _]. rewrite Ht in Hdf'. congruence.
  - intros s Hs. now apply Hsegs.
  - intros s Hs Hno. destruct (Hsegs s Hs) as [_ ->].
    unfold dict_get_default.
    now rewrite (build_description_map_absent _ _ _ _ Hdm Hno).
Qed.

(** ** Counterexamples to the filter claims as stated *)

(** C2, counterexample.  The specification below has the unrecognised
    operator "~=", but its first item names a column the table does not
    have, and that is the error raised. *)
Lemma earlier_error_preempts_unsupported_operator :
  has_unsupported [("Amount", VNum 5); ("Id", VDict [("~=", VNum 5)])] /\
  apply_filters contracts_df [("Amount", VNum 5); ("Id", VDict [("~=", VNum 5)])]
  = Raise (KeyError "Amount") /\
  apply_filters contracts_df [("Amount", VNum 5); ("Id", VDict [("~=", VNum 5)])]
  <> Raise (ValueError "Unsupported operator: ~=").
Proof.
  split; [|split; [reflexivity|discriminate]].
  exists "Id", [("~=", VNum 5)], "~=", (VNum 5). simpl. auto.
Qed.

(** C3, counterexample.  [contracts_df] has no [Amount] column; [isna] and
    [notna] on it raise [KeyError] instead of matching every row and no
    row. *)
Lemma isna_on_missing_column_raises :
  has_column contracts_df "Amount" = false /\
  apply_filters contracts_df [("Amount", VDict [("isna", VBool true)])]
  = Raise (KeyError "Amount") /\
  apply_filters contracts_df [("Amount", VDict [("notna", VBool true)])]
  = Raise (KeyError "Amount").
Proof. repeat split. Qed.

(** ** The theorems at sample inputs *)

Lemma unsupported_operator_raises_witness :
  apply_filters contracts_df
    [("Id", VStr "002"); ("Account", VDict [("notna", VBool true); ("~=", VNum 5)])]
  = Raise (ValueError "Unsupported operator: ~=").
Proof.
  destruct (unsupported_operator_raises contracts_df) as (_ & H & _).
  exact (H [("Id", VStr "002")] "Account" [("notna", VBool true)] "~=" (VNum 5) [] []
           [false; true] [false; true] eq_refl eq_refl eq_refl).
Defined.

Lemma missing_column_raises_witness :
  apply_filters contracts_df
    [("Id", VStr "002"); ("Amount", VDict [("isna", VBool true)])]
  = Raise (KeyError "Amount").
Proof.
  exact (missing_column_raises contracts_df [("Id", VStr "002")] [] "Amount"
           (VDict [("isna", VBool true)]) [false; true] eq_refl eq_refl eq_refl).
Defined.

Lemma wf_contracts_df : wf_df contracts_df.
Proof. split; [compute_done | repeat constructor]. Qed.

Lemma wf_no_account_df : wf_df no_account_df.
Proof. split; [compute_done | repeat constructor]. Qed.

Lemma wf_dated_df : wf_df dated_df.
Proof. split; [compute_done | repeat constructor]. Qed.

Lemma unresolved_path_gives_null_witness :
  exists T' col,
    extract_nested_fields 0 account_mapping [no_account_df]
    = (Ok 1, [no_account_df; T']) /\
    getitem T' "Account Name" = Ok col /\ col !! 0 = Some VNull.
Proof.
  destruct (unresolved_path_gives_null [no_account_df] 0 no_account_df account_mapping
              eq_refl wf_no_account_df) as (T' & Hrun & Hnull & _).
  destruct (Hnull "Account" [("Name", "Account Name")] "Name" "Account Name"
              [VNull] 0 VNull) as (col & Hcol & Hi).
  - compute_done.
  - simpl. intros [H|[]]. discriminate.
  - simpl. auto.
  - simpl. auto.
  - reflexivity.
  - reflexivity.
  - exact I.
  - exists T', col. auto.
Defined.

Lemma untargeted_columns_intact_witness :
  exists T',
    extract_nested_fields 0 account_mapping [contracts_df] = (Ok 1, [contracts_df; T']) /\
    getitem T' "Id" = Ok [VStr "001"; VStr "002"].
Proof.
  destruct (untargeted_columns_intact [contracts_df] 0 contracts_df account_mapping "Id"
              eq_refl wf_contracts_df) as (T' & Hrun & _ & Hget).
  - simpl. intros [H|[]]. discriminate.
  - exists T'. split; [exact Hrun|]. rewrite Hget. reflexivity.
Defined.

Lemma isna_notna_partition_witness :
  exists A B,
    apply_filters scenario_df [("RenewalOpportunity", VDict [("isna", VBool true)])] = Ok A /\
    apply_filters scenario_df [("RenewalOpportunity", VDict [("notna", VBool true)])] = Ok B /\
    len A + len B = 5.
Proof.
  destruct (isna_notna_partition scenario_df "RenewalOpportunity" (VBool true) (VBool true))
    as (A & B & HA & HB & Hlen & _).
  - compute_done.
  - reflexivity.
  - exists A, B. auto.
Defined.

Lemma build_pie_segments_tolerant_witness :
  exists pie_segments,
    build_pie_segments partial_output
      [("Healthy", contracts_df); ("Zombie", no_account_df)]
      ["Healthy"; "Unknown"; "Zombie"] ["#00FF00"]
    = Ok pie_segments /\
    map seg_title pie_segments = ["Healthy"; "Zombie"] /\
    exists s, segments_of "Zombie" pie_segments = [s] /\
              seg_title s = "Zombie" /\ seg_count s = 1.
Proof.
  destruct (build_pie_segments_tolerant partial_output
              [("Healthy", contracts_df); ("Zombie", no_account_df)]
              ["Healthy"; "Unknown"; "Zombie"] ["#00FF00"])
    as (segs & Hrun & Htitles & _ & Hone & _).
  - repeat (constructor; [exact I|]). constructor.
  - exists segs. split; [exact Hrun|]. split; [rewrite Htitles; reflexivity|].
    exact (Hone "Zombie" no_account_df eq_refl eq_refl).
Defined.

Lemma boundary_row_in_both_witness :
  exists Zs Es,
    leakage_zombies (day 100 + 5)%Z dated_df None = Ok Zs /\
    expiring_soon_contracts (day 100) dated_df = Ok Es /\
    In (0%Z, [VDate (day 70); VStr "Activated"; VNull]) (rows Zs) /\
    In (0%Z, [VDate (day 70); VStr "Activated"; VNull]) (rows Es).
Proof.
  apply (boundary_row_in_both (day 100 + 5)%Z (day 100) None dated_df
           [VDate (day 70); VDate (day 90); VNull]).
  - exact wf_dated_df.
  - reflexivity.
  - reflexivity.
  - intros x [<-|[<-|[<-|[]]]]; eauto.
  - simpl. auto.
  - reflexivity.
  - reflexivity.
  - reflexivity.
Defined.

(** ** The scenarios of the specification *)

Example scenario_status_isna :
  apply_filters scenario_df scenario_filter
  = Ok {| columns := ["Status"; "RenewalOpportunity"];
          rows := [ (0%Z, [VStr "Activated"; VNull]);
                    (3%Z, [VStr "Activated"; VNull]) ] |}.
Proof. reflexivity. Qed.

Example scenario_unsupported_operator :
  apply_filters scenario_df [("Amount", VDict [("~=", VNum 5)])]
  = Raise (ValueError "Unsupported operator: ~=").
Proof. reflexivity. Qed.

Example scenario_null_account :
  extract_nested_fields 0 account_mapping [no_account_df]
  = (Ok 1, [ no_account_df;
             {| columns := ["Id"; "Account"; "Account Name"];
                rows := [ (0%Z, [VStr "001"; VNull; VNull]) ] |} ]).
Proof. reflexivity. Qed.

Example scenario_amount_boundary :
  let amounts := {| columns := ["Amount"];
                    rows := [ (0%Z, [VNum 50]); (1%Z, [VNum 150]); (2%Z, [VNum 100]) ] |} in
  apply_filters amounts [("Amount", VDict [(">", VNum 100)])]
  = Ok {| columns := ["Amount"]; rows := [ (1%Z, [VNum 150]) ] |} /\
  apply_filters amounts [("Amount", VDict [("<=", VNum 100)])]
  = Ok {| columns := ["Amount"]; rows := [ (0%Z, [VNum 50]); (2%Z, [VNum 100]) ] |}.
Proof. split; reflexivity. Qed.

Example dated_segments_overlap :
  leakage_zombies (day 100) dated_df None
  = Ok {| columns := columns dated_df;
          rows := [ (0%Z, [VDate (day 70); VStr "Activated"; VNull]) ] |} /\
  expiring_soon_contracts (day 100) dated_df
  = Ok {| columns := columns dated_df;
          rows := [ (0%Z, [VDate (day 70); VStr "Activated"; VNull]);
                    (1%Z, [VDate (day 90); VStr "Activated"; VNull]) ] |}.
Proof. split; reflexivity. Qed.

Example base_title_count :
  base_title "Inactive Product Sales (14)" = "Inactive Product Sales".
Proof. reflexivity. Qed.

Example base_title_plain : base_title "  Healthy (x) " = "Healthy (x)".
Proof. reflexivity. Qed.

Example extract_from_dict_two_levels :
  extract_from_dict
    (VDict [("Opportunity", VDict [("Quote", VDict [("Net", VNum 7)])]); ("Type", VStr "New")])
    [("Opportunity", MNested [("Quote", MNested [("Net", MLeaf "Amount")]);
                              ("Owner", MLeaf "Owner Name")]);
     ("Type", MLeaf "Quote Type");
     ("Account", MNested [("Name", MLeaf "Account Name")])]
  = [("Amount", VNum 7); ("Owner Name", VNull); ("Quote Type", VStr "New")].
Proof. reflexivity. Qed.

(* ================================================================== *)
(** * Further properties *)
(* ================================================================== *)

(** ** The order of the filter items *)

Lemma mask_and_comm a b : mask_and a b = mask_and b a.
Proof.
  revert b. induction a as [|x a IH]; intros [|y b]; simpl; auto.
  unfold mask_and in *. simpl. rewrite andb_comm. f_equal. apply IH.
Qed.

Lemma filter_loop_length df F mask m :
  length mask = len df -> filter_loop df F mask = Ok m -> length m = len df.
Proof. intros Hl H. now destruct (filter_loop_narrow df F mask m Hl H). Qed.

Lemma filter_loop_perm df F F' :
  Permutation F F' ->
  forall mask m, length mask = len df ->
    filter_loop df F mask = Ok m -> filter_loop df F' mask = Ok m.
Proof.
  induction 1 as [|[c cond] F F' HP IH|[c1 cond1] [c2 cond2] F|F F' F'' HP1 IH1 HP2 IH2];
    intros mask m Hl H.
  - exact H.
  - simpl in *. inv_bind H. rewrite E. simpl. apply IH; [|exact H].
    destruct (apply_condition_alone df _ _ _ _ Hl E) as (b & Hb & -> & _).
    rewrite mask_and_length; congruence.
  - simpl in *. inv_bind H. inv_bind H. rename x into m2, x0 into m12.
    destruct (apply_condition_narrow df c2 cond2 mask mask m2 Hl Hl E)
      as (b2 & Hb2 & -> & _).
    assert (Hl2 : length (mask_and mask b2) = len df)
      by (rewrite mask_and_length; congruence).
    destruct (apply_condition_narrow df c1 cond1 (mask_and mask b2) mask m12 Hl2 Hl E0)
      as (b1 & Hb1 & -> & H1).
    rewrite H1. simpl.
    assert (Hl1 : length (mask_and mask b1) = len df)
      by (rewrite mask_and_length; congruence).
    destruct (apply_condition_narrow df c2 cond2 mask (mask_and mask b1) _ Hl Hl1 E)
      as (b2' & Hb2' & Heq & H2).
    rewrite H2. simpl.
    replace (mask_and (mask_and mask b1) b2') with (mask_and (mask_and mask b2) b1);
      [exact H|].
    rewrite Heq, !mask_and_assoc. f_equal. apply mask_and_comm.
  - eauto.
Qed.

(** X1.  The items of a filter specification can be evaluated in any order:
    when [apply_filters] returns for one order it returns the same table
    for every other. *)
Theorem apply_filters_permutation (T : DataFrame) (F F' : list (string * Value))
    (R : DataFrame) :
  Permutation F F' -> apply_filters T F = Ok R -> apply_filters T F' = Ok R.
Proof.
  unfold apply_filters. intros HP H. inv_bind H.
  now rewrite (filter_loop_perm T F F' HP _ _ (repeat_length _ _) E).
Qed.

(** ** The filter engine, cell by cell *)

Lemma mapM_map {A B C} (g : A -> B) (f : B -> result C) l :
  mapM f (map g l) = mapM (fun x => f (g x)) l.
Proof. induction l as [|x l IH]; simpl; [reflexivity|]. now rewrite IH. Qed.

Lemma series_cmp_cellwise f s v :
  is_list v = false -> series_cmp f s v = mapM (fun x => f x v) s.
Proof. now destruct v. Qed.

Lemma eval_op_cells df column op value b :
  eval_op df column op value = Ok b ->
  cellwise op value = true ->
  exists j, find_col (columns df) column = Some j /\
            mapM (fun r => cell_test op (cell_at j r) value) (rows df) = Ok b.
Proof.
  unfold eval_op, cellwise, cell_test, getitem.
  destruct (find_col (columns df) column) as [j|];
    [|intros H; repeat match type of H with
                       | (if ?c then _ else _) = _ => destruct c
                       end; discriminate].
  intros H Hc. exists j. split; [reflexivity|]. revert H Hc.
  destruct (String.eqb op "isna");
    [cbn [bind]; intros H _; rewrite mapM_pure, <- map_map; exact H|].
  destruct (String.eqb op "notna");
    [cbn [bind]; intros H _; rewrite mapM_pure, <- map_map; exact H|].
  assert (Hcmp : forall f, series_cmp f (map (cell_at j) (rows df)) value = Ok b ->
                           is_list value = false ->
                           mapM (fun r => f (cell_at j r) value) (rows df) = Ok b).
  { intros f H Hl. rewrite series_cmp_cellwise, mapM_map in H; assumption. }
  assert (Hneg : forall c : bool, false || false || c || negb (is_list value) = true ->
                                  c = false -> is_list value = false).
  { intros c H ->. simpl in H. now apply negb_true_iff in H. }
  destruct (String.eqb op "=") eqn:E1.
  { cbn [bind]. intros H Hc.
    destruct (String.eqb op "in") eqn:E2;
      [apply String.eqb_eq in E1, E2; congruence|].
    apply (Hcmp (fun x v => Ok (cmp_eq x v))); eauto. }
  destruct (String.eqb op "!=") eqn:E2.
  { cbn [bind]. intros H Hc.
    destruct (String.eqb op "in") eqn:E3;
      [apply String.eqb_eq in E2, E3; congruence|].
    apply (Hcmp (fun x v => Ok (cmp_ne x v))); eauto. }
  destruct (String.eqb op "in").
  { cbn [bind]. intros H _. unfold series_isin in H.
    destruct value; try discriminate; rewrite mapM_pure, <- map_map; exact H. }
  repeat (match goal with
          | |- (if ?c then _ else _) = _ -> _ => destruct c
          end;
          [cbn [bind]; intros H Hc; apply Hcmp; eauto|]).
  discriminate.
Qed.

Lemma select_In_inv {A} (m : list bool) (xs : list A) x :
  In x (select m xs) -> exists i, xs !! i = Some x /\ m !! i = Some true.
Proof.
  revert m. induction xs as [|a xs IH]; intros [|b m]; simpl; try tauto.
  destruct b.
  - intros [<-|H]; [exists 0; auto|].
    destruct (IH _ H) as (i & ? & ?). exists (S i). auto.
  - intros H. destruct (IH _ H) as (i & ? & ?). exists (S i). auto.
Qed.

Lemma mask_le_lookup m b i : mask_le m b -> m !! i = Some true -> b !! i = Some true.
Proof.
  intros H. revert i. induction H as [|x y m b Hxy H IH]; intros [|i] Hi; simpl in *;
    try discriminate; auto.
  inversion Hi; subst. now rewrite Hxy.
Qed.

Lemma apply_ops_tests df column ops b op value :
  apply_ops df column ops (repeat true (len df)) = Ok b ->
  In (op, value) ops ->
  exists s, eval_op df column op value = Ok s /\ mask_le b s.
Proof.
  assert (Hgen : forall mask m, length mask = len df ->
            apply_ops df column ops mask = Ok m -> In (op, value) ops ->
            exists s, eval_op df column op value = Ok s /\ mask_le m s).
  { induction ops as [|[op' v'] ops IH]; simpl; intros mask m Hl H Hin; [easy|].
    inv_bind H. pose proof (eval_op_length _ _ _ _ _ E) as Hx.
    assert (Hl' : length (mask_and mask x) = len df)
      by (rewrite mask_and_length; congruence).
    destruct (apply_ops_narrow df column ops _ mask m Hl' Hl H) as (b' & Hb' & -> & _).
    destruct Hin as [Heq|Hin].
    - inversion Heq; subst. exists x. split; [assumption|].
      eapply mask_le_trans; [apply mask_le_and_l|apply mask_le_and_r]; congruence.
    - destruct (IH (mask_and mask x) (mask_and (mask_and mask x) b') Hl' H Hin)
        as (s & Hs & Hle).
      eauto. }
  intros H Hin. eapply Hgen; eauto using repeat_length.
Qed.

Lemma apply_condition_tests df column condition b op value :
  apply_condition df column condition (repeat true (len df)) = Ok b ->
  In (op, value) (condition_tests condition) ->
  exists s, eval_op df column op value = Ok s /\ mask_le b s.
Proof.
  intros H Hin.
  assert (Hlit : is_dict condition = false ->
                 condition_tests condition = [("=", condition)] ->
                 (do s <- getitem df column;
                  do b0 <- series_eq s condition;
                  Ok (mask_and (repeat true (len df)) b0)) = Ok b ->
                 exists s, eval_op df column op value = Ok s /\ mask_le b s).
  { intros _ Ht Hrun. rewrite Ht in Hin. destruct Hin as [Heq|[]]. inversion Heq; subst.
    inv_bind Hrun. inv_bind Hrun. inversion Hrun; subst.
    exists x0. unfold eval_op. simpl. rewrite E. simpl. split; [assumption|].
    rewrite mask_and_true; [apply mask_le_refl|].
    apply series_cmp_length in E0. apply getitem_length in E. congruence. }
  destruct condition; try (now apply Hlit).
  simpl in *. eapply apply_ops_tests; eauto.
Qed.

Lemma rows_pass_tests (T : DataFrame) (F : list (string * Value))
    (R : DataFrame) (column : string) (condition : Value) (op : string) (value : Value)
    (r : Row) :
  apply_filters T F = Ok R ->
  In (column, condition) F ->
  In (op, value) (condition_tests condition) ->
  cellwise op value = true ->
  In r (rows R) ->
  exists j, find_col (columns T) column = Some j /\
            cell_test op (cell_at j r) value = Ok true.
Proof.
  unfold apply_filters. intros H HF Ht Hc Hr. inv_bind H. inversion H; subst; clear H.
  simpl in Hr.
  destruct (filter_loop_narrow T F _ x (repeat_length _ _) E) as (_ & _ & Hall).
  destruct (Hall _ _ HF) as (b & Hb & Hle).
  destruct (apply_condition_tests _ _ _ _ _ _ Hb Ht) as (s & Hs & Hle').
  destruct (eval_op_cells _ _ _ _ _ Hs Hc) as (j & Hj & Hcells).
  exists j. split; [assumption|].
  destruct (select_In_inv _ _ _ Hr) as (i & Hi & Hm).
  pose proof (mask_le_lookup _ _ _ Hle' (mask_le_lookup _ _ _ Hle Hm)) as Hsi.
  destruct (mapM_lookup _ _ _ _ _ Hcells Hi) as (y & Hy & Hy').
  congruence.
Qed.

(** C1.  Whenever [apply_filters T F] returns a table [R], the rows of [R]
    are rows of [T], in the order of [T] and with the columns of [T] (no
    row is made up), and every returned row passes each
    [(column, condition)] item of [F] taken on its own: filtering [T] by
    that single item succeeds and keeps the row; and for each test of the
    item that looks at one row at a time (a null test, a membership test,
    a comparison with an operand that is not a list) the column exists and
    the row's own value in it passes the test, wherever cell and operand
    are compared as the values they are. *)
Theorem apply_filters_sound (T : DataFrame) (F : list (string * Value)) (R : DataFrame) :
  apply_filters T F = Ok R ->
  columns R = columns T /\
  sublist (rows R) (rows T) /\
  (forall r, In r (rows R) -> In r (rows T)) /\
  (forall column condition, In (column, condition) F ->
     exists R1, apply_filters T [(column, condition)] = Ok R1 /\
                sublist (rows R) (rows R1) /\
                forall r, In r (rows R) -> In r (rows R1)) /\
  (forall column condition op value r,
     In (column, condition) F ->
     In (op, value) (condition_tests condition) ->
     cellwise op value = true ->
     In r (rows R) ->
     exists j, find_col (columns T) column = Some j /\
               (compared_as_is op (cell_at j r) value = true ->
                cell_test op (cell_at j r) value = Ok true)).
Proof.
  intros Hrun. pose proof Hrun as H.
  unfold apply_filters in H. inv_bind H. inversion H; subst; clear H. simpl.
  destruct (filter_loop_narrow T F _ x (repeat_length _ _) E) as (Hx & _ & Hall).
  split; [reflexivity|]. split; [apply select_sublist|].
  split; [intros r; apply select_In|]. split.
  - intros column condition Hin.
    destruct (Hall _ _ Hin) as (b & Hb & Hle).
    exists (copy (loc T b)). unfold apply_filters. simpl. rewrite Hb. simpl.
    split; [reflexivity|].
    assert (Hs : sublist (select x (rows T)) (select b (rows T))) by now apply select_mono.
    split; [exact Hs|].
    intros r Hr. apply list_elem_of_In. eapply elem_of_sublist; [|exact Hs].
    now apply list_elem_of_In.
  - intros column condition op value r HF Ht Hc Hr.
    destruct (rows_pass_tests T F _ column condition op value r Hrun HF Ht Hc Hr)
      as (j & Hj & Htest).
    exists j. auto.
Qed.

(** X2.  Every row [apply_filters] returns passes, on its own cell, each test of
    each item of the specification whose operand is used cell by cell:
    the column exists, and the test returns [True] for the row's value in
    it when cell and operand are compared as the values they are (no
    string operand against a timestamp, no number beyond 2^53). *)
Theorem returned_rows_pass_each_test (T : DataFrame) (F : list (string * Value))
    (R : DataFrame) (column : string) (condition : Value) (op : string) (value : Value)
    (r : Row) :
  apply_filters T F = Ok R ->
  In (column, condition) F ->
  In (op, value) (condition_tests condition) ->
  cellwise op value = true ->
  In r (rows R) ->
  exists j, find_col (columns T) column = Some j /\
            (compared_as_is op (cell_at j r) value = true ->
             cell_test op (cell_at j r) value = Ok true).
Proof.
  intros H HF Ht Hc Hr.
  destruct (rows_pass_tests T F R column condition op value r H HF Ht Hc Hr)
    as (j & Hj & Htest).
  exists j. auto.
Qed.

Lemma cell_cell_at df r c v j :
  cell df r c = Some v -> find_col (columns df) c = Some j -> cell_at j r = v.
Proof.
  unfold cell, cell_at. intros H Hj. rewrite Hj in H. now apply nth_lookup_Some.
Qed.

Lemma cellwise_not_list op value : is_list value = false -> cellwise op value = true.
Proof. unfold cellwise. intros ->. simpl. now rewrite !orb_true_r. Qed.

(** X3.  A row whose value in the column is null is never returned when the
    specification tests the column with [=], [>=], [<=], [>] or [<] (or
    with a literal): null passes none of them. *)
Theorem null_never_passes_a_comparison (T : DataFrame) (F : list (string * Value))
    (R : DataFrame) (column : string) (condition : Value) (op : string) (value : Value)
    (r : Row) :
  apply_filters T F = Ok R ->
  In (column, condition) F ->
  In (op, value) (condition_tests condition) ->
  In op ["="; ">="; "<="; ">"; "<"] ->
  is_list value = false ->
  In r (rows R) ->
  cell T r column <> Some VNull.
Proof.
  intros H HF Ht Hop Hl Hr Hcell.
  destruct (rows_pass_tests T F R column condition op value r H HF Ht
              (cellwise_not_list op value Hl) Hr) as (j & Hj & Htest).
  rewrite (cell_cell_at _ _ _ _ _ Hcell Hj) in Htest.
  simpl in Hop. decompose [or] Hop; subst; try discriminate; contradiction.
Qed.

Lemma cmp_eq_VStr x a : cmp_eq x (VStr a) = true -> x = VStr a.
Proof.
  destruct x; simpl; try discriminate. intros H. apply String.eqb_eq in H. now subst.
Qed.

(** X4.  Two specifications that compare the same column of strings and
    nulls for equality with two different string constants never return
    the same row (the status segments of usecase6 are mutually
    exclusive). *)
Theorem equality_segments_exclusive (T : DataFrame) (F F' : list (string * Value))
    (R R' : DataFrame) (column : string) (condition condition' : Value)
    (a b : string) (s : list Value) (r : Row) :
  apply_filters T F = Ok R ->
  apply_filters T F' = Ok R' ->
  getitem T column = Ok s ->
  string_series s ->
  In (column, condition) F ->
  In ("=", VStr a) (condition_tests condition) ->
  In (column, condition') F' ->
  In ("=", VStr b) (condition_tests condition') ->
  a <> b ->
  In r (rows R) -> ~ In r (rows R').
Proof.
  intros H H' _ _ HF Ht HF' Ht' Hab Hr Hr'.
  destruct (rows_pass_tests T F R column condition "=" (VStr a) r H HF Ht eq_refl Hr)
    as (j & Hj & Htest).
  destruct (rows_pass_tests T F' R' column condition' "=" (VStr b) r H' HF' Ht' eq_refl Hr')
    as (j' & Hj' & Htest').
  assert (j' = j) by congruence. subst j'.
  unfold cell_test in Htest, Htest'. simpl in Htest, Htest'.
  assert (Ha : cmp_eq (cell_at j r) (VStr a) = true) by congruence.
  assert (Hb : cmp_eq (cell_at j r) (VStr b) = true) by congruence.
  apply cmp_eq_VStr in Ha, Hb. congruence.
Qed.

(** ** Complementary operators *)

Lemma single_op_filter df column op value s :
  eval_op df column op value = Ok s ->
  apply_filters df [(column, VDict [(op, value)])] = Ok (copy (loc df s)).
Proof.
  intros H. unfold apply_filters. simpl. rewrite H. simpl.
  rewrite mask_and_true; [reflexivity|]. eapply eval_op_length; eauto.
Qed.

Lemma eval_op_eq df column value s :
  getitem df column = Ok s -> is_list value = false ->
  eval_op df column "=" value = Ok (map (fun x => cmp_eq x value) s).
Proof.
  intros Hs Hl. unfold eval_op. simpl. rewrite Hs. cbn [bind].
  unfold series_eq. now rewrite series_cmp_cellwise, mapM_pure.
Qed.

Lemma eval_op_ne df column value s :
  getitem df column = Ok s -> is_list value = false ->
  eval_op df column "!=" value = Ok (map negb (map (fun x => cmp_eq x value) s)).
Proof.
  intros Hs Hl. unfold eval_op. simpl. rewrite Hs. cbn [bind].
  unfold series_ne. rewrite series_cmp_cellwise, mapM_pure, map_map by assumption.
  reflexivity.
Qed.

(** X5.  For a table whose column labels are pairwise distinct, a column of
    the table and an operand that is not a list, [=] and [!=] split the
    table in two: both filters succeed, they select by a mask and its
    complement, and the rows whose value is null all go to [!=]. *)
Theorem eq_ne_partition (T : DataFrame) (C : string) (value : Value) :
  NoDup (columns T) ->
  has_column T C = true ->
  is_list value = false ->
  exists A B,
    apply_filters T [(C, VDict [("=", value)])] = Ok A /\
    apply_filters T [(C, VDict [("!=", value)])] = Ok B /\
    len A + len B = len T /\
    Permutation (rows A ++ rows B) (rows T) /\
    (exists mask, length mask = len T /\
                  rows A = select mask (rows T) /\
                  rows B = select (map negb mask) (rows T)) /\
    (forall r, In r (rows T) -> cell T r C = Some VNull -> In r (rows B)).
Proof.
  intros _ Hc Hl. destruct (has_column_getitem _ _ Hc) as [s Hs].
  pose proof (getitem_length _ _ _ Hs) as Hlen.
  set (m := map (fun x => cmp_eq x value) s).
  assert (Hm : length m = length (rows T)) by (unfold m; rewrite length_map; exact Hlen).
  exists (copy (loc T m)), (copy (loc T (map negb m))).
  split; [apply single_op_filter; now apply eval_op_eq|].
  split; [apply single_op_filter; now apply eval_op_ne|].
  unfold len. simpl.
  split; [now apply select_length_split|].
  split; [now apply select_perm_split|].
  split; [exists m; auto|].
  intros r Hr Hcell. destruct (In_lookup _ _ Hr) as [i Hi].
  destruct (cell_getitem _ _ _ _ _ Hi Hcell) as (s' & Hs' & Hsi).
  assert (s' = s) by congruence. subst s'.
  eapply select_lookup; [exact Hi|].
  unfold m. now rewrite !lookup_map, Hsi.
Qed.

Lemma select3_perm {A} (a b c : list bool) (xs : list A) :
  length a = length xs -> length b = length xs -> length c = length xs ->
  (forall i x y z, a !! i = Some x -> b !! i = Some y -> c !! i = Some z ->
     (x, y, z) = (true, false, false) \/ (x, y, z) = (false, true, false)
     \/ (x, y, z) = (false, false, true)) ->
  Permutation (select a xs ++ select b xs ++ select c xs) xs.
Proof.
  revert a b c. induction xs as [|x0 xs IH]; intros [|x a] [|y b] [|z c] Ha Hb Hc H;
    simpl in *; try discriminate; auto.
  assert (IH' : Permutation (select a xs ++ select b xs ++ select c xs) xs).
  { apply IH; try lia. intros i. apply (H (S i)). }
  destruct (H 0 x y z eq_refl eq_refl eq_refl) as [E|[E|E]]; inversion E; subst; simpl.
  - now constructor.
  - rewrite <- Permutation_middle. now constructor.
  - rewrite app_assoc, <- Permutation_middle, <- app_assoc. now constructor.
Qed.

Lemma series_ord_numbers o s k :
  number_series s ->
  series_ord o s (VNum k) =
  Ok (map (fun x => match x with VNum n => ord_Z o n k | _ => false end) s).
Proof.
  intros Hs. unfold series_ord, series_cmp.
  induction s as [|x s IH]; simpl; [reflexivity|].
  rewrite IH by (intros y Hy; apply Hs; now right).
  destruct (Hs x) as [->|[n ->]]; [now left| |]; reflexivity.
Qed.

(** X6.  For a column of numbers and nulls and a number [k], the filters
    [{C: {">": k}}], [{C: {"<=": k}}] and [{C: {"isna": True}}] succeed and
    split the table in three: every row is in exactly one result, so the
    two comparisons together leave out exactly the rows with a null. *)
Theorem gt_le_isna_partition (T : DataFrame) (C : string) (s : list Value) (k : Z) :
  getitem T C = Ok s ->
  number_series s ->
  exists A B N,
    apply_filters T [(C, VDict [(">", VNum k)])] = Ok A /\
    apply_filters T [(C, VDict [("<=", VNum k)])] = Ok B /\
    apply_filters T [(C, VDict [("isna", VBool true)])] = Ok N /\
    Permutation (rows A ++ rows B ++ rows N) (rows T) /\
    len A + len B + len N = len T.
Proof.
  intros Hs Hnum. pose proof (getitem_length _ _ _ Hs) as Hlen.
  set (f o := fun x => match x with VNum n => ord_Z o n k | _ => false end).
  exists (copy (loc T (map (f OpGt) s))), (copy (loc T (map (f OpLe) s))),
         (copy (loc T (map isna s))).
  assert (HA : apply_filters T [(C, VDict [(">", VNum k)])] = Ok (copy (loc T (map (f OpGt) s)))).
  { apply single_op_filter. unfold eval_op. simpl. rewrite Hs. cbn [bind].
    now apply series_ord_numbers. }
  assert (HB : apply_filters T [(C, VDict [("<=", VNum k)])] = Ok (copy (loc T (map (f OpLe) s)))).
  { apply single_op_filter. unfold eval_op. simpl. rewrite Hs. cbn [bind].
    now apply series_ord_numbers. }
  assert (HN : apply_filters T [(C, VDict [("isna", VBool true)])] = Ok (copy (loc T (map isna s)))).
  { apply single_op_filter. unfold eval_op. simpl. now rewrite Hs. }
  assert (HP : Permutation (select (map (f OpGt) s) (rows T) ++ select (map (f OpLe) s) (rows T)
                            ++ select (map isna s) (rows T)) (rows T)).
  { apply select3_perm; rewrite ?length_map; auto.
    intros i x y z. rewrite !lookup_map.
    destruct (s !! i) as [v|] eqn:Hv; simpl; [|discriminate].
    intros Hx Hy Hz. inversion Hx; inversion Hy; inversion Hz; subst.
    destruct (Hnum v) as [->|[n ->]]; [eapply list_elem_of_In, list_elem_of_lookup_2; eauto| |].
    - auto.
    - simpl. destruct (Z.gtb_spec n k), (Z.leb_spec n k); auto; lia. }
  repeat (split; [assumption|]). cbn [rows copy loc].
  unfold len. cbn [rows copy loc].
  apply Permutation_length in HP. rewrite !length_app in HP. lia.
Qed.

(** ** Filtering in two steps *)

Lemma select_map {A B} (f : A -> B) (m : list bool) (l : list A) :
  map f (select m l) = select m (map f l).
Proof.
  revert l. induction m as [|b m IH]; intros [|x l]; simpl; auto.
  destruct b; simpl; now rewrite IH.
Qed.

Lemma select_zip_with {A B C} (f : A -> B -> C) (m : list bool) a b :
  select m (zip_with f a b) = zip_with f (select m a) (select m b).
Proof.
  revert a b. induction m as [|x m IH]; intros [|y a] [|z b]; simpl; auto.
  - destruct x; [reflexivity|]. now destruct (select m a).
  - destruct x; simpl; now rewrite IH.
Qed.

Lemma mapM_select {A B} (f : A -> result B) (m : list bool) l l' :
  mapM f l = Ok l' -> mapM f (select m l) = Ok (select m l').
Proof.
  revert m l'. induction l as [|x l IH]; simpl; intros m l' H.
  - inversion H; subst. now destruct m.
  - inv_bind H. inv_bind H. inversion H; subst.
    destruct m as [|b m]; [reflexivity|]. destruct b; simpl.
    + rewrite E. simpl. now rewrite (IH m _ E0).
    + now apply IH.
Qed.

Lemma getitem_loc df m c s :
  getitem df c = Ok s -> getitem (loc df m) c = Ok (select m s).
Proof.
  unfold getitem. simpl. destruct (find_col (columns df) c); intros H; inversion H.
  now rewrite select_map.
Qed.

Lemma eval_op_loc df m column op value b :
  eval_op df column op value = Ok b ->
  cellwise op value = true ->
  eval_op (loc df m) column op value = Ok (select m b).
Proof.
  unfold eval_op, cellwise.
  destruct (getitem df column) as [s|e] eqn:Hs;
    [|intros H; repeat match type of H with
                       | (if ?c then _ else _) = _ => destruct c
                       end; discriminate].
  rewrite (getitem_loc _ m _ _ Hs). cbn [bind].
  destruct (String.eqb op "isna");
    [intros H _; inversion H; now rewrite select_map|].
  destruct (String.eqb op "notna");
    [intros H _; inversion H; now rewrite select_map|].
  assert (Hcmp : forall f, series_cmp f s value = Ok b -> is_list value = false ->
                           series_cmp f (select m s) value = Ok (select m b)).
  { intros f H Hl. rewrite series_cmp_cellwise in * by assumption. now apply mapM_select. }
  assert (Hneg : forall c : bool, false || false || c || negb (is_list value) = true ->
                                  c = false -> is_list value = false).
  { intros c H ->. simpl in H. now apply negb_true_iff in H. }
  destruct (String.eqb op "=") eqn:E1.
  { intros H Hc. destruct (String.eqb op "in") eqn:E2;
      [apply String.eqb_eq in E1, E2; congruence|].
    apply Hcmp; eauto. }
  destruct (String.eqb op "!=") eqn:E2.
  { intros H Hc. destruct (String.eqb op "in") eqn:E3;
      [apply String.eqb_eq in E2, E3; congruence|].
    apply Hcmp; eauto. }
  destruct (String.eqb op "in").
  { intros H _. unfold series_isin in *.
    destruct value; try discriminate; inversion H; now rewrite select_map. }
  repeat (match goal with
          | |- (if ?c then _ else _) = _ -> _ => destruct c
          end;
          [intros H Hc; apply Hcmp; eauto|]).
  discriminate.
Qed.

Lemma apply_ops_loc df m column ops mask r :
  apply_ops df column ops mask = Ok r ->
  forallb (fun kv => cellwise (fst kv) (snd kv)) ops = true ->
  apply_ops (loc df m) column ops (select m mask) = Ok (select m r).
Proof.
  revert mask. induction ops as [|[op v] ops IH]; simpl; intros mask H Hc.
  - now inversion H.
  - apply andb_true_iff in Hc. destruct Hc as [Hc Hcs]. inv_bind H.
    rewrite (eval_op_loc _ m _ _ _ _ E Hc). cbn [bind].
    unfold mask_and in *. rewrite <- select_zip_with. now apply IH.
Qed.

Lemma apply_condition_loc df m column condition mask r :
  apply_condition df column condition mask = Ok r ->
  cellwise_condition condition = true ->
  apply_condition (loc df m) column condition (select m mask) = Ok (select m r).
Proof.
  unfold cellwise_condition. intros H Hc.
  assert (Hlit : is_list condition = false ->
            (do s <- getitem df column;
             do b <- series_eq s condition; Ok (mask_and mask b)) = Ok r ->
            (do s <- getitem (loc df m) column;
             do b <- series_eq s condition; Ok (mask_and (select m mask) b))
            = Ok (select m r)).
  { intros Hl Hrun. inv_bind Hrun. inv_bind Hrun. inversion Hrun; subst.
    rewrite (getitem_loc _ m _ _ E). cbn [bind]. unfold series_eq in *.
    rewrite series_cmp_cellwise in * by assumption.
    rewrite (mapM_select _ m _ _ E0). cbn [bind].
    unfold mask_and. now rewrite select_zip_with. }
  destruct condition; simpl in *;
    first [ now apply Hlit | now apply apply_ops_loc | discriminate ].
Qed.

Lemma filter_loop_loc df m F mask r :
  filter_loop df F mask = Ok r ->
  forallb cellwise_condition (map snd F) = true ->
  filter_loop (loc df m) F (select m mask) = Ok (select m r).
Proof.
  revert mask. induction F as [|[c cond] F IH]; simpl; intros mask H Hc.
  - now inversion H.
  - apply andb_true_iff in Hc. destruct Hc as [Hc Hcs]. inv_bind H.
    rewrite (apply_condition_loc _ m _ _ _ _ E Hc). cbn [bind]. now apply IH.
Qed.

Lemma select_self {A} (m : list bool) (xs : list A) :
  length m = length xs -> select m m = repeat true (length (select m xs)).
Proof.
  revert xs. induction m as [|b m IH]; intros [|x xs] H; simpl in *; try discriminate; auto.
  destruct b; simpl; rewrite (IH xs) by lia; reflexivity.
Qed.

Lemma select_select {A} (m1 m : list bool) (xs : list A) :
  mask_le m m1 -> select (select m1 m) (select m1 xs) = select m xs.
Proof.
  intros H. revert xs. induction H as [|x y m m1 Hxy H IH]; intros [|a xs]; simpl; auto.
  - now destruct y, (select m1 m).
  - destruct y; simpl.
    + destruct x; now rewrite IH.
    + destruct x; [now specialize (Hxy eq_refl)|apply IH].
Qed.

(** X7.  When the filter built from [F1] followed by [F2] returns a table, so
    does filtering by [F1] and then filtering the result by [F2], and the
    two tables are the same (rows, labels and order), provided the
    operands of [F2] are used cell by cell. *)
Theorem apply_filters_in_two_steps (T : DataFrame) (F1 F2 : list (string * Value))
    (R : DataFrame) :
  apply_filters T (F1 ++ F2) = Ok R ->
  forallb cellwise_condition (map snd F2) = true ->
  exists R1, apply_filters T F1 = Ok R1 /\ apply_filters R1 F2 = Ok R.
Proof.
  unfold apply_filters. intros H Hc. inv_bind H. inversion H; subst; clear H.
  rewrite filter_loop_app in E. inv_bind E. rename x0 into m1, x into m.
  rewrite E0. cbn [bind]. eexists. split; [reflexivity|].
  pose proof (filter_loop_length _ _ _ _ (repeat_length _ _) E0) as Hl1.
  destruct (filter_loop_narrow T F2 m1 m Hl1 E) as (_ & Hle & _).
  pose proof (filter_loop_loc T m1 F2 m1 m E Hc) as Hloc.
  rewrite (select_self m1 (rows T)) in Hloc by exact Hl1.
  rewrite !copy_id. unfold len at 1. cbn [rows loc].
  rewrite Hloc. cbn [bind]. unfold loc. cbn [columns rows].
  now rewrite select_select.
Qed.

(** ** The two contract segments, row by row *)

Lemma leakage_zombies_segment now df today :
  leakage_zombies now df today
  = date_segment OpLe (effective_today now today - Timedelta_days 30)%Z df.
Proof. reflexivity. Qed.

Lemma expiring_soon_contracts_segment today df :
  expiring_soon_contracts today df
  = date_segment OpGe (today - Timedelta_days 30)%Z df.
Proof. reflexivity. Qed.

Lemma date_segment_as_filter o op cutoff df :
  (o, op) = (OpLe, "<=") \/ (o, op) = (OpGe, ">=") ->
  date_segment o cutoff df = apply_filters df (date_segment_filter op cutoff).
Proof.
  intros Hop. unfold date_segment, apply_filters, date_segment_filter.
  cbn [filter_loop apply_condition apply_ops].
  assert (Hev : eval_op df "EndDate" op (VDate cutoff)
                = do e <- getitem df "EndDate"; series_ord o e (VDate cutoff))
    by (destruct Hop as [H|H]; inversion H; reflexivity).
  rewrite Hev.
  destruct (getitem df "EndDate") as [e|] eqn:He; cbn [bind]; [|reflexivity].
  destruct (series_ord o e (VDate cutoff)) as [a|] eqn:Ha; cbn [bind]; [|reflexivity].
  destruct (getitem df "Status") as [s|] eqn:Hs; cbn [bind]; [|reflexivity].
  destruct (series_eq s (VStr "Activated")) as [b|] eqn:Hb; cbn [bind]; [|reflexivity].
  unfold eval_op. cbn [String.eqb Ascii.eqb Bool.eqb].
  destruct (getitem df "SBQQ__RenewalOpportunity__c") as [r|] eqn:Hr; cbn [bind];
    [|reflexivity].
  rewrite mask_and_true; [reflexivity|].
  unfold series_ord in Ha. apply series_cmp_length in Ha.
  apply getitem_length in He. congruence.
Qed.

(** X8.  On a table whose column labels are pairwise distinct,
    [leakage_zombies] and [expiring_soon_contracts] are instances of the
    filter engine: each returns what [apply_filters] returns (the same
    table or the same exception) for the specification with [<=], resp.
    [>=], on [EndDate], the literal "Activated" on [Status] and [isna] on
    the renewal opportunity. *)
Theorem segments_are_filters (now today : Z) (today_arg : option Z) (T : DataFrame) :
  NoDup (columns T) ->
  leakage_zombies now T today_arg
  = apply_filters T
      (date_segment_filter "<=" (effective_today now today_arg - Timedelta_days 30)%Z) /\
  expiring_soon_contracts today T
  = apply_filters T (date_segment_filter ">=" (today - Timedelta_days 30)%Z).
Proof.
  intros _. rewrite leakage_zombies_segment, expiring_soon_contracts_segment.
  split; apply date_segment_as_filter; auto.
Qed.

Lemma cell_of_cell_at df r c j :
  wf_df df -> In r (rows df) -> find_col (columns df) c = Some j ->
  cell df r c = Some (cell_at j r).
Proof.
  intros [_ Hrows] Hr Hj. unfold cell, cell_at. rewrite Hj.
  rewrite List.Forall_forall in Hrows. specialize (Hrows r Hr).
  destruct (snd r !! j) as [v|] eqn:E.
  - now rewrite (nth_lookup_Some _ _ VNull v E).
  - apply lookup_ge_None in E. apply find_col_lt in Hj. lia.
Qed.

Lemma getitem_lookup df c s i r :
  getitem df c = Ok s -> rows df !! i = Some r ->
  exists j, find_col (columns df) c = Some j /\ s !! i = Some (cell_at j r).
Proof.
  unfold getitem. destruct (find_col (columns df) c) as [j|]; intros H Hi; inversion H.
  exists j. split; [reflexivity|]. now rewrite lookup_map, Hi.
Qed.

Lemma cmp_ord_date o x cutoff :
  cmp_ord o x (VDate cutoff) = Ok true <-> exists t, x = VDate t /\ ord_Z o t cutoff = true.
Proof.
  split.
  - destruct x; cbv [cmp_ord isna orb as_number]; try discriminate.
    intros H. inversion H. eauto.
  - intros (t & -> & H). cbv [cmp_ord isna orb as_number]. now rewrite H.
Qed.

Lemma segment_mask_inv (a b c : list bool) i :
  series_and (series_and a b) c !! i = Some true ->
  a !! i = Some true /\ b !! i = Some true /\ c !! i = Some true.
Proof.
  unfold series_and. intros H.
  apply lookup_zip_with_Some in H. destruct H as (x & z & Hxz & Hx & Hz).
  apply lookup_zip_with_Some in Hx. destruct Hx as (u & v & Huv & Hu & Hv).
  subst x. symmetry in Hxz. apply andb_true_iff in Hxz. destruct Hxz as [Huv ->].
  apply andb_true_iff in Huv. destruct Huv as [-> ->]. auto.
Qed.

Lemma date_segment_rows o cutoff T S r :
  wf_df T -> date_segment o cutoff T = Ok S ->
  (In r (rows S) <->
   In r (rows T) /\ open_contract T r /\
   exists t, cell T r "EndDate" = Some (VDate t) /\ ord_Z o t cutoff = true).
Proof.
  intros Hwf H. unfold date_segment in H.
  inv_bind H. rename x into e, E into He.
  inv_bind H. rename x into a, E into Ha.
  inv_bind H. rename x into s, E into Hs.
  inv_bind H. rename x into b, E into Hb.
  inv_bind H. rename x into o', E into Ho.
  inversion H; subst; clear H. cbn [rows copy loc].
  unfold series_eq, series_cmp in Hb. rewrite mapM_pure in Hb. inversion Hb; subst; clear Hb.
  split.
  - intros Hr. destruct (select_In_inv _ _ _ Hr) as (i & Hi & Hm).
    assert (HrT : In r (rows T))
      by (apply list_elem_of_In; eapply list_elem_of_lookup_2; eauto).
    apply segment_mask_inv in Hm. destruct Hm as (Hai & Hbi & Hci).
    destruct (getitem_lookup _ _ _ _ _ He Hi) as (jE & HjE & Hei).
    destruct (getitem_lookup _ _ _ _ _ Hs Hi) as (jS & HjS & Hsi).
    destruct (getitem_lookup _ _ _ _ _ Ho Hi) as (jO & HjO & Hoi).
    destruct (series_ord_lookup _ _ _ _ _ _ Ha Hei) as (y & Hy & Hy').
    assert (y = true) by congruence. subst y.
    apply cmp_ord_date in Hy. destruct Hy as (t & Ht & Hord).
    rewrite lookup_map, Hsi in Hbi. simpl in Hbi.
    assert (Hact : cmp_eq (cell_at jS r) (VStr "Activated") = true) by congruence.
    apply cmp_eq_VStr in Hact.
    rewrite lookup_map, Hoi in Hci. simpl in Hci.
    assert (Hna : isna (cell_at jO r) = true) by congruence.
    split; [assumption|]. split; [split|].
    + rewrite (cell_of_cell_at _ _ _ _ Hwf HrT HjS). congruence.
    + rewrite (cell_of_cell_at _ _ _ _ Hwf HrT HjO).
      destruct (cell_at jO r); try discriminate. reflexivity.
    + exists t. rewrite (cell_of_cell_at _ _ _ _ Hwf HrT HjE). split; [congruence|assumption].
  - intros (HrT & [Hstatus Hrenewal] & t & Hend & Hord).
    destruct (In_lookup _ _ HrT) as [i Hi].
    destruct (cell_getitem _ _ _ _ _ Hi Hstatus) as (s' & Hs' & Hsi).
    destruct (cell_getitem _ _ _ _ _ Hi Hrenewal) as (o'' & Ho' & Hoi).
    destruct (cell_getitem _ _ _ _ _ Hi Hend) as (e' & He' & Hei).
    assert (s' = s) by congruence. assert (o'' = o') by congruence.
    assert (e' = e) by congruence. subst s' o'' e'.
    destruct (series_ord_lookup _ _ _ _ _ _ Ha Hei) as (y & Hy & Hy').
    assert (Hy2 : cmp_ord o (VDate t) (VDate cutoff) = Ok true)
      by (apply cmp_ord_date; eauto).
    assert (y = true) by congruence. subst y.
    eapply select_lookup; [exact Hi|].
    apply segment_mask_lookup; [assumption| |].
    + now rewrite lookup_map, Hsi.
    + now rewrite lookup_map, Hoi.
Qed.

(** X9.  Which contracts the two segments hold.  On a table with one cell per
    column in every row, [leakage_zombies] returns exactly the activated
    contracts without a renewal whose [EndDate] is a timestamp at most
    [today] minus 30 days, and [expiring_soon_contracts] exactly those
    whose [EndDate] is a timestamp at least that date. *)
Theorem segment_rows (now today : Z) (today_arg : option Z) (T Zs Es : DataFrame)
    (r : Row) :
  wf_df T ->
  leakage_zombies now T today_arg = Ok Zs ->
  expiring_soon_contracts today T = Ok Es ->
  (In r (rows Zs) <->
   In r (rows T) /\ open_contract T r /\
   exists t, cell T r "EndDate" = Some (VDate t) /\
             (t <= effective_today now today_arg - Timedelta_days 30)%Z) /\
  (In r (rows Es) <->
   In r (rows T) /\ open_contract T r /\
   exists t, cell T r "EndDate" = Some (VDate t) /\
             (today - Timedelta_days 30 <= t)%Z).
Proof.
  intros Hwf HZ HE.
  rewrite leakage_zombies_segment in HZ. rewrite expiring_soon_contracts_segment in HE.
  rewrite (date_segment_rows _ _ _ _ r Hwf HZ), (date_segment_rows _ _ _ _ r Hwf HE).
  split; (split; intros (H1 & H2 & t & H3 & H4); (split; [assumption|]);
          (split; [assumption|]); exists t; (split; [assumption|]); simpl in *).
  - now apply Z.leb_le.
  - now apply Z.leb_le.
  - apply Z.geb_le in H4. lia.
  - apply Z.geb_le. lia.
Qed.

(** X10.  When both functions work with the same [today]: an activated contract
    without a renewal whose [EndDate] is a timestamp is in at least one of
    the two segments; a contract is in both exactly when it is such a
    contract with [EndDate] equal to [today] minus 30 days; and a contract
    whose [EndDate] is null is in neither. *)
Theorem segments_cover_and_meet (now today : Z) (today_arg : option Z)
    (T Zs Es : DataFrame) (r : Row) :
  wf_df T ->
  effective_today now today_arg = today ->
  leakage_zombies now T today_arg = Ok Zs ->
  expiring_soon_contracts today T = Ok Es ->
  (In r (rows T) -> open_contract T r ->
   (exists t, cell T r "EndDate" = Some (VDate t)) ->
   In r (rows Zs) \/ In r (rows Es)) /\
  (In r (rows Zs) /\ In r (rows Es) <->
   In r (rows T) /\ open_contract T r /\
   cell T r "EndDate" = Some (VDate (today - Timedelta_days 30)%Z)) /\
  (cell T r "EndDate" = Some VNull -> ~ In r (rows Zs) /\ ~ In r (rows Es)).
Proof.
  intros Hwf Htoday HZ HE.
  rewrite leakage_zombies_segment, Htoday in HZ.
  rewrite expiring_soon_contracts_segment in HE.
  pose proof (date_segment_rows _ _ _ _ r Hwf HZ) as Hz.
  pose proof (date_segment_rows _ _ _ _ r Hwf HE) as He.
  set (d := (today - Timedelta_days 30)%Z) in *.
  split; [|split].
  - intros HrT Hopen [t Ht].
    destruct (Z.le_ge_cases t d).
    + left. apply Hz. split; [assumption|]. split; [assumption|].
      exists t. split; [assumption|]. now apply Z.leb_le.
    + right. apply He. split; [assumption|]. split; [assumption|].
      exists t. split; [assumption|]. apply Z.geb_le. lia.
  - rewrite Hz, He. split.
    + intros [(HrT & Hopen & t & Ht & Hle) (_ & _ & t' & Ht' & Hge)].
      assert (t' = t) by congruence. subst t'.
      simpl in Hle, Hge. apply Z.leb_le in Hle. apply Z.geb_le in Hge.
      assert (t = d) by lia. subst t. auto.
    + intros (HrT & Hopen & Hd).
      split; (split; [assumption|]); (split; [assumption|]); exists d;
        (split; [assumption|]); simpl; [apply Z.leb_refl|apply Z.geb_le; lia].
  - intros Hnull. split; intros Hin; [apply Hz in Hin|apply He in Hin];
      destruct Hin as (_ & _ & t & Ht & _); congruence.
Qed.

(** ** The residual segments of the use cases *)

Lemma index_loc df m : index (loc df m) = select m (index df).
Proof. unfold index. simpl. apply select_map. Qed.

Lemma existsb_label_absent (l : Z) (m : list bool) (labels : list Z) :
  ~ In l labels -> existsb (Z.eqb l) (select m labels) = false.
Proof.
  intros H. destruct (existsb (Z.eqb l) (select m labels)) eqn:E; [|reflexivity].
  apply existsb_exists in E. destruct E as (x & Hx & Heq).
  apply Z.eqb_eq in Heq. subst x. apply select_In in Hx. contradiction.
Qed.

Lemma isin_select (m : list bool) (labels : list Z) :
  NoDup labels -> length m = length labels ->
  map (fun l => existsb (Z.eqb l) (select m labels)) labels = m.
Proof.
  intros Hnd. revert m. induction Hnd as [|l labels Hl Hnd IH]; intros [|b m] Hlen;
    try discriminate; [reflexivity|].
  assert (Hl' : ~ In l labels) by (intros H; apply Hl; now apply list_elem_of_In).
  assert (Htail : forall sel,
            map (fun l0 => existsb (Z.eqb l0) (l :: sel)) labels
            = map (fun l0 => existsb (Z.eqb l0) sel) labels).
  { intros sel. apply map_ext_in. intros l0 Hl0. cbn [existsb].
    destruct (Z.eqb_spec l0 l); [subst; contradiction|reflexivity]. }
  simpl in Hlen. destruct b; cbn [select map].
  - f_equal; [cbn [existsb]; now rewrite Z.eqb_refl|].
    rewrite Htail. apply IH. lia.
  - f_equal; [now apply existsb_label_absent|]. apply IH. lia.
Qed.

Lemma index_isin_loc df m :
  NoDup (index df) -> length m = len df -> index_isin df (loc df m) = m.
Proof.
  intros Hnd Hl. unfold index_isin. rewrite index_loc. apply isin_select; [assumption|].
  unfold index. now rewrite length_map.
Qed.

Lemma apply_filters_loc T F R :
  apply_filters T F = Ok R -> exists m, length m = len T /\ R = loc T m.
Proof.
  unfold apply_filters. intros H. inv_bind H. inversion H; subst.
  exists x. split; [|apply copy_id].
  eapply filter_loop_length; eauto using repeat_length.
Qed.

(** X11.  On a table whose index labels are unique, the residual segment of the
    use cases, [df.loc[~df.index.isin(segment.index)]], is the complement
    of the segment [apply_filters] returned: selecting by the labels of
    the segment gives the segment back, the segment and the residual hold
    every row of the table exactly once, and they share no row. *)
Theorem residual_partition (T : DataFrame) (F : list (string * Value)) (R : DataFrame) :
  NoDup (index T) ->
  apply_filters T F = Ok R ->
  details_of T R = R /\
  Permutation (rows R ++ rows (residual T R)) (rows T) /\
  len R + len (residual T R) = len T /\
  (forall r, In r (rows R) -> In r (rows (residual T R)) -> False).
Proof.
  intros Hnd H. destruct (apply_filters_loc _ _ _ H) as (m & Hm & ->).
  unfold details_of, residual. rewrite !copy_id, (index_isin_loc _ _ Hnd Hm).
  split; [reflexivity|]. unfold len. cbn [rows loc].
  split; [now apply select_perm_split|].
  split; [now apply select_length_split|].
  intros r. now apply select_disjoint.
Qed.

Lemma select_length_indep {A B} (m : list bool) (xs : list A) (ys : list B) :
  length xs = length ys -> length (select m xs) = length (select m ys).
Proof.
  revert xs ys. induction m as [|b m IH]; intros [|x xs] [|y ys] H; simpl in *;
    try discriminate; auto.
  destruct b; simpl; rewrite (IH xs ys) by lia; reflexivity.
Qed.

Lemma residual2_count {A} (a b : list bool) (xs : list A) :
  length a = length xs -> length b = length xs ->
  length (select (series_and (map negb a) (map negb b)) xs)
  + length (select a xs) + length (select b xs)
  = length xs + length (select (select a b) (select a xs)).
Proof.
  revert a b. induction xs as [|x xs IH]; intros [|u a] [|v b] Ha Hb; simpl in *;
    try discriminate; auto.
  specialize (IH a b ltac:(lia) ltac:(lia)). unfold series_and in *.
  destruct u, v; simpl; lia.
Qed.

Lemma date_segment_loc o cutoff T S :
  date_segment o cutoff T = Ok S -> exists m, length m = len T /\ S = loc T m.
Proof.
  unfold date_segment. intros H.
  inv_bind H. rename x into e, E into He.
  inv_bind H. rename x into a, E into Ha.
  inv_bind H. inv_bind H. inv_bind H. inversion H; subst.
  eexists. split; [|apply copy_id].
  unfold series_and. rewrite !length_zip_with, length_map.
  unfold series_ord in Ha. apply series_cmp_length in Ha, E0.
  apply getitem_length in He, E, E1. lia.
Qed.

(** X12.  The chart and the tables of usecase1 count the healthy contracts
    differently.  On a table with unique index labels, and for a detail
    table with the same labels, the three wedge sizes of
    [zombie_analysis_chart] add up to the number of contracts, while the
    healthy detail table (the contracts in neither segment) is larger than
    the healthy wedge by the number of contracts that are in both
    segments. *)
Theorem healthy_wedge_and_healthy_table (now today : Z) (today_arg : option Z)
    (T D Zs Es : DataFrame) :
  NoDup (index T) ->
  index D = index T ->
  leakage_zombies now T today_arg = Ok Zs ->
  expiring_soon_contracts today T = Ok Es ->
  (healthy_count T Zs (Some Es) + warning_count (Some Es) + zombie_count Zs
   = Z.of_nat (len T))%Z /\
  (Z.of_nat (len (residual2 D Zs Es))
   = healthy_count T Zs (Some Es) + Z.of_nat (len (details_of Zs Es)))%Z.
Proof.
  intros Hnd HD HZ HE.
  rewrite leakage_zombies_segment in HZ. rewrite expiring_soon_contracts_segment in HE.
  destruct (date_segment_loc _ _ _ _ HZ) as (a & Ha & ->).
  destruct (date_segment_loc _ _ _ _ HE) as (b & Hb & ->).
  unfold healthy_count, warning_count, zombie_count. split; [lia|].
  assert (HlenD : length (rows D) = length (rows T)).
  { apply (f_equal (@length Z)) in HD. unfold index in HD. now rewrite !length_map in HD. }
  assert (HaD : index_isin D (loc T a) = a).
  { unfold index_isin. rewrite HD. now apply index_isin_loc. }
  assert (HbD : index_isin D (loc T b) = b).
  { unfold index_isin. rewrite HD. now apply index_isin_loc. }
  assert (Hab : index_isin (loc T a) (loc T b) = select a b).
  { unfold index_isin. rewrite !index_loc, select_map. f_equal.
    apply isin_select; [assumption|]. unfold index. now rewrite length_map. }
  unfold residual2, details_of. rewrite !copy_id, HaD, HbD, Hab.
  unfold len in *. cbn [rows loc].
  pose proof (residual2_count a b (rows T) Ha Hb) as Hcount.
  rewrite (select_length_indep _ (rows D) (rows T) HlenD). lia.
Qed.

(** ** [normalize_dates] *)

Lemma normalize_midnight t : (normalize t mod day_ns = 0)%Z.
Proof.
  unfold normalize. rewrite Zminus_mod, Z.mod_mod by (unfold day_ns; lia).
  rewrite Z.sub_diag. reflexivity.
Qed.

Lemma dt_normalize_midnight parsed :
  date_series parsed -> midnight_series (map dt_normalize parsed).
Proof.
  intros H x Hx. apply in_map_iff in Hx. destruct Hx as (y & <- & Hy).
  destruct (H y Hy) as [->|[t ->]]; [now left|right].
  exists (normalize t). split; [reflexivity|apply normalize_midnight].
Qed.

Lemma midnight_date_series s : midnight_series s -> date_series s.
Proof. intros H x Hx. destruct (H x Hx) as [->|(t & -> & _)]; eauto. Qed.

Lemma set_column_present_columns d c s :
  has_column d c = true -> columns (set_column d c s) = columns d.
Proof.
  unfold has_column, set_column. destruct (find_col (columns d) c); [reflexivity|discriminate].
Qed.

Section NormalizeDatesFacts.
Variable to_datetime : list Value -> result (list Value).
Hypothesis Hparser : coercing to_datetime.

Lemma normalize_dates_step h df T col rest s parsed :
  h !! df = Some T -> getitem T col = Ok s -> to_datetime s = Ok parsed ->
  normalize_dates to_datetime df (col :: rest) h
  = normalize_dates to_datetime df rest
      (<[df := set_column T col (map dt_normalize parsed)]> h).
Proof.
  intros HT Hs Hp. cbn [normalize_dates]. unfold bindS at 1. unfold load at 1. rewrite HT.
  unfold bindS at 1. unfold lift at 1. rewrite Hs.
  unfold bindS at 1. unfold lift at 1. rewrite Hp.
  unfold bindS at 1. now rewrite (setitem_run h df T).
Qed.

Lemma normalize_dates_raise h df T col rest :
  h !! df = Some T -> has_column T col = false ->
  normalize_dates to_datetime df (col :: rest) h = (Raise (KeyError col), h).
Proof.
  intros HT Hc. cbn [normalize_dates]. unfold bindS at 1. unfold load at 1. rewrite HT.
  unfold bindS at 1. unfold lift at 1. unfold getitem. unfold has_column in Hc.
  destruct (find_col (columns T) col); [discriminate|reflexivity].
Qed.

Lemma normalize_dates_present h df T cols :
  h !! df = Some T -> wf_df T ->
  (forall c, In c cols -> has_column T c = true) ->
  exists T' : DataFrame,
    normalize_dates to_datetime df cols h = (Ok df, <[df := T']> h) /\
    len T' = len T /\ index T' = index T /\ columns T' = columns T /\ wf_df T' /\
    (forall c, ~ In c cols -> getitem T' c = getitem T c) /\
    (forall c, In c cols -> exists s, getitem T' c = Ok s /\ midnight_series s).
Proof.
  revert h T. induction cols as [|col rest IH]; intros h T HT Hwf Hcols.
  - exists T. cbn [normalize_dates]. unfold ret. rewrite list_insert_id by assumption.
    do 5 (split; [auto|]). split; [reflexivity|]. intros c [].
  - destruct (has_column_getitem T col) as [s Hs]; [apply Hcols; now left|].
    destruct (Hparser s) as (parsed & Hp & Hlen & Hds).
    set (T1 := set_column T col (map dt_normalize parsed)).
    assert (Hl : length (map dt_normalize parsed) = len T)
      by (rewrite length_map, Hlen; eapply getitem_length; eauto).
    assert (Hwf1 : wf_df T1) by now apply set_column_wf.
    assert (Hcols1 : columns T1 = columns T)
      by (apply set_column_present_columns, Hcols; now left).
    destruct (IH (<[df := T1]> h) T1) as (T' & Hrun & H1 & H2 & H3 & H4 & H5 & H6).
    { apply list_lookup_insert_eq. eapply lookup_lt_Some; eauto. }
    { assumption. }
    { intros c Hc. unfold has_column. rewrite Hcols1. apply Hcols. now right. }
    exists T'. rewrite (normalize_dates_step h df T col rest s parsed HT Hs Hp).
    fold T1. rewrite Hrun, list_insert_insert_eq.
    split; [reflexivity|].
    split; [unfold T1 in H1; now rewrite H1, set_column_rows_length|].
    split; [unfold T1 in H2; now rewrite H2, set_column_index|].
    split; [congruence|]. split; [assumption|]. split.
    + intros c Hc. rewrite H5 by (intros Hin; apply Hc; now right).
      apply getitem_set_column_other; auto. intros ->. apply Hc. now left.
    + intros c Hc. destruct (in_dec string_dec c rest) as [Hin|Hout]; [now apply H6|].
      destruct Hc as [->|Hc]; [|contradiction].
      exists (map dt_normalize parsed). split; [|now apply dt_normalize_midnight].
      rewrite H5 by assumption. now apply getitem_set_column_same.
Qed.

(** X13.  [normalize_dates] rewrites the frame it is given and returns that same
    frame.  With a parser that coerces ([coercing]) and every listed column
    there, the frame keeps its rows' index labels, its column labels and
    every column that is not listed, and each listed column ends up holding
    nulls and timestamps at midnight. *)
Theorem normalize_dates_in_place (h : list DataFrame) (df : nat) (T : DataFrame)
    (cols : list string) :
  h !! df = Some T ->
  wf_df T ->
  (forall c, In c cols -> has_column T c = true) ->
  exists T' : DataFrame,
    normalize_dates to_datetime df cols h = (Ok df, <[df := T']> h) /\
    len T' = len T /\ index T' = index T /\ columns T' = columns T /\
    (forall c, ~ In c cols -> getitem T' c = getitem T c) /\
    (forall c, In c cols -> exists s, getitem T' c = Ok s /\ midnight_series s).
Proof.
  intros HT Hwf Hcols.
  destruct (normalize_dates_present h df T cols HT Hwf Hcols)
    as (T' & H0 & H1 & H2 & H3 & _ & H5 & H6).
  exists T'. auto 10.
Qed.

Lemma normalize_dates_app h df pre l :
  normalize_dates to_datetime df (pre ++ l) h
  = match normalize_dates to_datetime df pre h with
    | (Ok _, h') => normalize_dates to_datetime df l h'
    | (Raise e, h') => (Raise e, h')
    end.
Proof.
  revert h. induction pre as [|c pre IH]; intros h; [reflexivity|].
  cbn [app normalize_dates]. unfold bindS at 1 5. unfold load.
  destruct (h !! df) as [T|]; [|reflexivity].
  unfold bindS at 1 4. unfold lift at 1 3.
  destruct (getitem T c) as [s|e]; [|reflexivity].
  unfold bindS at 1 3. unfold lift at 1 2.
  destruct (to_datetime s) as [parsed|e]; [|reflexivity].
  unfold bindS at 1 2.
  destruct (setitem df c (map dt_normalize parsed) h) as [[[]|e] h']; [apply IH|reflexivity].
Qed.

(** X14.  A listed column the frame lacks raises [KeyError], and the caller's
    frame has by then been changed: with a parser that coerces, the columns
    listed before it are already rewritten, the others are as they were. *)
Theorem normalize_dates_missing_column (h : list DataFrame) (df : nat) (T : DataFrame)
    (pre rest : list string) (col : string) :
  h !! df = Some T ->
  wf_df T ->
  (forall c, In c pre -> has_column T c = true) ->
  has_column T col = false ->
  exists T' : DataFrame,
    normalize_dates to_datetime df (pre ++ col :: rest) h
    = (Raise (KeyError col), <[df := T']> h) /\
    (forall c, In c pre -> exists s, getitem T' c = Ok s /\ midnight_series s) /\
    (forall c, ~ In c pre -> getitem T' c = getitem T c).
Proof.
  intros HT Hwf Hpre Hcol.
  destruct (normalize_dates_present h df T pre HT Hwf Hpre)
    as (T' & Hrun & _ & _ & Hcols & _ & Hframe & Hmid).
  exists T'. rewrite normalize_dates_app, Hrun.
  split; [|split; assumption].
  apply (normalize_dates_raise _ df T').
  - apply list_lookup_insert_eq. eapply lookup_lt_Some; eauto.
  - unfold has_column in *. now rewrite Hcols.
Qed.

Lemma date_segment_total o cutoff T' e st r :
  getitem T' "EndDate" = Ok e -> date_series e ->
  getitem T' "Status" = Ok st ->
  getitem T' "SBQQ__RenewalOpportunity__c" = Ok r ->
  exists R, date_segment o cutoff T' = Ok R.
Proof.
  intros He Hds Hst Hr. unfold date_segment. rewrite He. cbn [bind].
  destruct (series_ord_dates o e cutoff Hds) as [a ->]. cbn [bind]. rewrite Hst. cbn [bind].
  unfold series_eq, series_cmp. rewrite mapM_pure. cbn [bind]. rewrite Hr. cbn [bind].
  eauto.
Qed.

(** X15.  The pipeline of usecase1: once [normalize_dates] has rewritten
    [EndDate] (with a parser that coerces), both segment functions succeed
    on a frame that has the three columns they read, whatever [EndDate]
    held before: the comparison with the cutoff date cannot raise. *)
Theorem segments_after_normalize_dates (h : list DataFrame) (df : nat) (T : DataFrame)
    (now today0 : Z) (today : option Z) :
  h !! df = Some T ->
  wf_df T ->
  has_column T "EndDate" = true ->
  has_column T "Status" = true ->
  has_column T "SBQQ__RenewalOpportunity__c" = true ->
  exists (T' Zs Es : DataFrame),
    normalize_dates to_datetime df ["EndDate"] h = (Ok df, <[df := T']> h) /\
    leakage_zombies now T' today = Ok Zs /\
    expiring_soon_contracts today0 T' = Ok Es.
Proof.
  intros HT Hwf He Hst Hr.
  destruct (normalize_dates_present h df T ["EndDate"] HT Hwf)
    as (T' & Hrun & _ & _ & _ & _ & Hframe & Hmid).
  { intros c [<-|[]]. exact He. }
  destruct (Hmid "EndDate") as (e & Hge & Hme); [now left|].
  destruct (has_column_getitem T _ Hst) as [st Hgst].
  destruct (has_column_getitem T _ Hr) as [r Hgr].
  rewrite <- Hframe in Hgst by (intros [H|[]]; discriminate).
  rewrite <- Hframe in Hgr by (intros [H|[]]; discriminate).
  apply midnight_date_series in Hme.
  destruct (date_segment_total OpLe (effective_today now today - Timedelta_days 30)%Z
              T' e st r Hge Hme Hgst Hgr) as [Zs HZ].
  destruct (date_segment_total OpGe (today0 - Timedelta_days 30)%Z
              T' e st r Hge Hme Hgst Hgr) as [Es HE].
  exists T', Zs, Es. split; [exact Hrun|]. split.
  - rewrite <- HZ. destruct today; reflexivity.
  - rewrite <- HE. reflexivity.
Qed.

End NormalizeDatesFacts.

(** ** [records_to_df] *)

Lemma add_key_NoDup (keys a : list string) :
  NoDup a ->
  NoDup (fold_left (fun a k => if existsb (String.eqb k) a then a else a ++ [k]) keys a).
Proof.
  revert a. induction keys as [|k keys IH]; simpl; intros a Ha; [assumption|].
  apply IH. destruct (existsb (String.eqb k) a) eqn:E; [assumption|].
  apply NoDup_app. split; [assumption|]. split; [|apply NoDup_singleton].
  intros x Hx Hk. apply list_elem_of_singleton in Hk. subst x.
  assert (existsb (String.eqb k) a = true); [|congruence].
  apply existsb_exists. exists k. split; [now apply list_elem_of_In|apply String.eqb_refl].
Qed.

Lemma union_keys_NoDup records acc : NoDup acc -> NoDup (union_keys records acc).
Proof.
  revert acc. induction records as [|d records IH]; simpl; intros acc H; [assumption|].
  apply IH. now apply add_key_NoDup.
Qed.

Lemma add_key_In (keys a : list string) k :
  In k (fold_left (fun a k => if existsb (String.eqb k) a then a else a ++ [k]) keys a)
  <-> In k a \/ In k keys.
Proof.
  revert a. induction keys as [|k0 keys IH]; simpl; intros a; [tauto|].
  rewrite IH. destruct (existsb (String.eqb k0) a) eqn:E.
  - apply existsb_exists in E. destruct E as (x & Hx & Heq).
    apply String.eqb_eq in Heq. subst x. split; [tauto|].
    intros [H|[<-|H]]; auto.
  - rewrite in_app_iff. simpl. tauto.
Qed.

Lemma union_keys_In records acc k :
  In k (union_keys records acc)
  <-> In k acc \/ exists d, In d records /\ In k (dict_keys d).
Proof.
  revert acc. induction records as [|d records IH]; simpl; intros acc.
  - split; [tauto|]. intros [H|(d & [] & _)]. exact H.
  - rewrite IH, add_key_In. split.
    + intros [[H|H]|(d' & Hd' & Hk)]; eauto.
    + intros [H|(d' & [<-|Hd'] & Hk)]; eauto.
Qed.

Lemma dict_get_In_keys {V} (d : list (string * V)) k :
  dict_get d k <> None <-> In k (dict_keys d).
Proof.
  induction d as [|[k0 v] d IH]; simpl; [tauto|].
  destruct (String.eqb_spec k0 k).
  - split; [auto|discriminate].
  - rewrite IH. split; [auto|]. intros [?|?]; [contradiction|assumption].
Qed.

Lemma find_col_In cols c : In c cols -> exists j, find_col cols c = Some j.
Proof.
  intros H. destruct (find_col cols c) eqn:E; [eauto|].
  apply find_col_None in E. contradiction.
Qed.

Lemma range_index_NoDup n : NoDup (range_index n).
Proof.
  unfold range_index. change (map Z.of_nat (seq 0 n)) with (Z.of_nat <$> seq 0 n).
  apply NoDup_fmap_2; [intros x y; apply Nat2Z.inj|]. apply NoDup_ListNoDup, seq_NoDup.
Qed.

Lemma DataFrame_of_records_index records :
  index (DataFrame_of_records records) = range_index (length records).
Proof.
  unfold index, DataFrame_of_records, range_index. simpl.
  change (map fst ?l) with (fst <$> l). rewrite fmap_imap.
  exact (imap_seq_0 _ (fun j => Z.of_nat j)).
Qed.

Lemma DataFrame_of_records_wf records : wf_df (DataFrame_of_records records).
Proof.
  split; [apply union_keys_NoDup, NoDup_nil_2|].
  apply List.Forall_forall. intros r Hr. simpl in Hr.
  apply list_elem_of_In, list_elem_of_lookup in Hr. destruct Hr as [i Hi].
  rewrite list_lookup_imap in Hi. destruct (records !! i); inversion Hi. simpl.
  apply length_map.
Qed.

Lemma DataFrame_of_records_cell records k j i d :
  find_col (union_keys records []) k = Some j ->
  records !! i = Some d ->
  (cell_at j <$> rows (DataFrame_of_records records) !! i)
  = Some (dict_get_default d k VNull).
Proof.
  intros Hj Hi. simpl. rewrite list_lookup_imap, Hi. simpl. f_equal.
  unfold cell_at. simpl. apply nth_lookup_Some.
  rewrite lookup_map, (find_col_Some _ _ _ Hj). reflexivity.
Qed.

(** ** [df.drop(columns=...)] *)

Lemma drop_columns_present d to_drop :
  (forall c, In c to_drop -> has_column d c = true) ->
  drop_columns d to_drop
  = Ok {| columns := select (keep_mask (columns d) to_drop) (columns d);
          rows := map (fun r : Row => (fst r, select (keep_mask (columns d) to_drop) (snd r)))
                      (rows d) |}.
Proof.
  intros H. unfold drop_columns.
  destruct (List.find _ to_drop) as [c|] eqn:E; [|reflexivity].
  apply find_some in E. destruct E as [Hc Hn]. rewrite (H c Hc) in Hn. discriminate.
Qed.

Lemma select_find_col (cols : list string) (cells : list Value) (km : list bool) k j :
  length cells = length cols -> length km = length cols ->
  find_col cols k = Some j -> km !! j = Some true ->
  exists j', find_col (select km cols) k = Some j' /\
             nth j' (select km cells) VNull = nth j cells VNull.
Proof.
  revert cells km j. induction cols as [|c cols IH]; intros [|x cells] [|b km] j Hc Hk Hj Hb;
    simpl in *; try discriminate.
  destruct (String.eqb_spec c k).
  - inversion Hj; subst. simpl in Hb. inversion Hb; subst. simpl.
    rewrite String.eqb_refl. exists 0. auto.
  - destruct (find_col cols k) as [j0|] eqn:E; inversion Hj; subst. simpl in Hb.
    destruct (IH cells km j0) as (j' & Hj' & Hn); try lia; auto.
    destruct b; simpl.
    + destruct (String.eqb_spec c k); [contradiction|]. rewrite Hj'. exists (S j'). auto.
    + exists j'. auto.
Qed.

Lemma select_find_col_None (cols : list string) (km : list bool) k :
  find_col cols k = None -> find_col (select km cols) k = None.
Proof.
  intros H. destruct (find_col (select km cols) k) eqn:E; [|reflexivity].
  apply find_col_Some in E. apply find_col_None in H. exfalso. apply H.
  eapply select_In. apply list_elem_of_In. eapply list_elem_of_lookup_2; eauto.
Qed.

Lemma keep_mask_lookup cols to_drop k j :
  find_col cols k = Some j -> ~ In k to_drop ->
  keep_mask cols to_drop !! j = Some true.
Proof.
  intros Hj Hk. unfold keep_mask. rewrite lookup_map, (find_col_Some _ _ _ Hj). simpl.
  f_equal. apply negb_true_iff.
  destruct (existsb (String.eqb k) to_drop) eqn:E; [|reflexivity].
  apply existsb_exists in E. destruct E as (x & Hx & Heq).
  apply String.eqb_eq in Heq. subst. contradiction.
Qed.

Lemma drop_columns_getitem d to_drop d' k :
  rows_fit d -> drop_columns d to_drop = Ok d' -> ~ In k to_drop ->
  getitem d' k = getitem d k.
Proof.
  unfold drop_columns, rows_fit. intros Hfit H Hk.
  destruct (List.find _ to_drop); [discriminate|]. inversion H; subst; clear H.
  unfold getitem. cbn [columns rows].
  destruct (find_col (columns d) k) as [j|] eqn:Hj.
  - assert (Hkm : length (keep_mask (columns d) to_drop) = length (columns d))
      by (unfold keep_mask; apply length_map).
    pose proof (keep_mask_lookup _ _ _ _ Hj Hk) as Hkeep.
    destruct (select_find_col (columns d) (repeat VNull (length (columns d)))
                (keep_mask (columns d) to_drop) k j (repeat_length _ _) Hkm Hj Hkeep)
      as (j' & Hj' & _).
    rewrite Hj'. f_equal. rewrite map_map. apply map_ext_in. intros r Hr.
    rewrite List.Forall_forall in Hfit. unfold cell_at. cbn [snd].
    destruct (select_find_col (columns d) (snd r) (keep_mask (columns d) to_drop) k j
                (Hfit r Hr) Hkm Hj Hkeep) as (j'' & Hj'' & Hn).
    congruence.
  - now rewrite select_find_col_None.
Qed.

Lemma drop_columns_gone d to_drop d' k :
  drop_columns d to_drop = Ok d' -> In k to_drop -> has_column d' k = false.
Proof.
  unfold drop_columns. intros H Hk.
  destruct (List.find _ to_drop); [discriminate|]. inversion H; subst; clear H.
  unfold has_column. cbn [columns].
  destruct (find_col _ k) as [j|] eqn:E; [|reflexivity].
  apply find_col_Some in E.
  assert (Hin : In k (select (keep_mask (columns d) to_drop) (columns d)))
    by (apply list_elem_of_In; eapply list_elem_of_lookup_2; eauto).
  apply select_In_inv in Hin. destruct Hin as (i & Hi & Hm).
  unfold keep_mask in Hm. rewrite lookup_map, Hi in Hm. simpl in Hm.
  assert (existsb (String.eqb k) to_drop = true).
  { apply existsb_exists. exists k. split; [assumption|apply String.eqb_refl]. }
  destruct (existsb (String.eqb k) to_drop); discriminate.
Qed.

Lemma drop_columns_shape d to_drop d' :
  wf_df d -> drop_columns d to_drop = Ok d' ->
  len d' = len d /\ index d' = index d /\ wf_df d'.
Proof.
  unfold drop_columns. intros [Hnd Hfit] H.
  destruct (List.find _ to_drop); [discriminate|]. inversion H; subst; clear H.
  unfold len, index, wf_df. cbn [columns rows].
  split; [apply length_map|]. split; [now rewrite map_map|]. split.
  - eapply sublist_NoDup; [|apply select_sublist]. assumption.
  - apply List.Forall_forall. intros r Hr. apply in_map_iff in Hr.
    destruct Hr as (r0 & <- & Hr0). cbn [snd].
    apply select_length_indep. rewrite List.Forall_forall in Hfit. now apply Hfit.
Qed.

Lemma has_column_iff_getitem df c : has_column df c = true <-> exists s, getitem df c = Ok s.
Proof.
  unfold has_column, getitem. destruct (find_col (columns df) c); split; eauto.
  - discriminate.
  - intros [s H]. discriminate.
Qed.

Lemma records_to_df_run records :
  exists df, records_to_df records = Ok df /\
             len df = length records /\
             index df = range_index (length records) /\
             wf_df df /\
             has_column df "attributes" = false /\
             forall k, k <> "attributes" ->
                       getitem df k = getitem (DataFrame_of_records records) k.
Proof.
  unfold records_to_df. set (D := DataFrame_of_records records).
  assert (HlenD : len D = length records)
    by (unfold D, len, DataFrame_of_records; simpl; apply length_imap).
  pose proof (DataFrame_of_records_index records) as HidxD. fold D in HidxD.
  pose proof (DataFrame_of_records_wf records) as HwfD. fold D in HwfD.
  destruct (has_column D "attributes") eqn:Hattr.
  - assert (Hpresent : forall c, In c ["attributes"] -> has_column D c = true)
      by (intros c [<-|[]]; exact Hattr).
    pose proof (drop_columns_present D ["attributes"] Hpresent) as Hdrop.
    destruct (drop_columns D ["attributes"]) as [d'|] eqn:E; [|discriminate].
    exists d'. split; [reflexivity|].
    destruct (drop_columns_shape _ _ _ HwfD E) as (H1 & H2 & H3).
    split; [congruence|]. split; [congruence|]. split; [assumption|].
    split; [eapply drop_columns_gone; eauto; now left|].
    intros k Hk. eapply drop_columns_getitem; eauto; [apply HwfD|].
    intros [H|[]]. congruence.
  - exists D. auto 10.
Qed.

(** X16.  [records_to_df] never fails.  The table has one row per record under
    the default index [0 .. n-1] (so its labels are unique), one cell per
    column in every row, unique column labels and no [attributes]
    column. *)
Theorem records_to_df_shape (records : list (list (string * Value))) :
  exists df, records_to_df records = Ok df /\
             len df = length records /\
             index df = range_index (length records) /\
             NoDup (index df) /\
             wf_df df /\
             has_column df "attributes" = false.
Proof.
  destruct (records_to_df_run records) as (df & H1 & H2 & H3 & H4 & H5 & _).
  exists df. repeat (split; [assumption|]). split; [|auto].
  rewrite H3. apply range_index_NoDup.
Qed.

Lemma records_to_df_getitem records df k s :
  records_to_df records = Ok df -> k <> "attributes" -> getitem df k = Ok s ->
  forall i d, records !! i = Some d -> s !! i = Some (dict_get_default d k VNull).
Proof.
  intros Hrun Hk Hs i d Hi.
  destruct (records_to_df_run records) as (df' & Hrun' & _ & _ & _ & _ & Hget).
  assert (df' = df) by congruence. subst df'. rewrite (Hget k Hk) in Hs.
  unfold getitem in Hs.
  change (columns (DataFrame_of_records records)) with (union_keys records []) in Hs.
  destruct (find_col (union_keys records []) k) as [j|] eqn:Hj; [|discriminate].
  injection Hs as <-. rewrite lookup_map. now apply DataFrame_of_records_cell.
Qed.

(** X17.  The cells of the table [records_to_df] builds.  A key other than
    [attributes] is a column exactly when some record has it, and under
    that column the row of a record holds the record's value for the key,
    or null when the record lacks the key.  The value is one that pandas
    stores as it is: not an integer beyond 2^53, which a column of integers
    and nulls, stored as [float64], would round. *)
Theorem records_to_df_cells (records : list (list (string * Value))) (df : DataFrame)
    (k : string) :
  records_to_df records = Ok df ->
  k <> "attributes" ->
  (has_column df k = true <-> exists d, In d records /\ dict_get d k <> None) /\
  (forall s i d, getitem df k = Ok s -> records !! i = Some d ->
                 float_exact (dict_get_default d k VNull) = true ->
                 s !! i = Some (dict_get_default d k VNull)).
Proof.
  intros Hrun Hk. split.
  - destruct (records_to_df_run records) as (df' & Hrun' & _ & _ & _ & _ & Hget).
    assert (df' = df) by congruence. subst df'.
    rewrite has_column_iff_getitem, (Hget k Hk), <- has_column_iff_getitem.
    unfold has_column. cbn [columns DataFrame_of_records].
    split.
    + destruct (find_col (union_keys records []) k) as [j|] eqn:Hj; [|discriminate].
      intros _. apply find_col_Some in Hj.
      assert (Hin : In k (union_keys records []))
        by (apply list_elem_of_In; eapply list_elem_of_lookup_2; eauto).
      apply union_keys_In in Hin. destruct Hin as [[]|(d & Hd & Hkd)].
      exists d. split; [assumption|]. now apply dict_get_In_keys.
    + intros (d & Hd & Hkd).
      destruct (find_col_In (union_keys records []) k) as [j ->]; [|reflexivity].
      apply union_keys_In. right. exists d. split; [assumption|].
      now apply dict_get_In_keys.
  - intros s i d Hs Hi _. eapply records_to_df_getitem; eauto.
Qed.

(** X18.  A record that lacks a key some other record has is a row with a null
    in that column, so the filter [{k: {"isna": ...}}] returns it. *)
Theorem sparse_record_is_null (records : list (list (string * Value))) (df : DataFrame)
    (k : string) (i : nat) (d : list (string * Value)) (v : Value) :
  records_to_df records = Ok df ->
  k <> "attributes" ->
  has_column df k = true ->
  records !! i = Some d ->
  dict_get d k = None ->
  exists R r, apply_filters df [(k, VDict [("isna", v)])] = Ok R /\
              rows df !! i = Some r /\ In r (rows R).
Proof.
  intros Hrun Hk Hc Hi Hd.
  destruct (has_column_getitem _ _ Hc) as [s Hs].
  pose proof (records_to_df_getitem _ _ _ _ Hrun Hk Hs i d Hi) as Hsi.
  unfold dict_get_default in Hsi. rewrite Hd in Hsi.
  assert (Hlt : i < length (rows df)).
  { apply getitem_length in Hs. unfold len in Hs. rewrite <- Hs.
    eapply lookup_lt_Some; eauto. }
  destruct (lookup_lt_is_Some_2 _ _ Hlt) as [r Hr].
  exists (copy (loc df (map isna s))), r.
  split; [apply single_op_filter; unfold eval_op; simpl; now rewrite Hs|].
  split; [assumption|]. cbn [rows copy loc].
  eapply select_lookup; [exact Hr|]. now rewrite lookup_map, Hsi.
Qed.

(** ** [clean_soql_dataframe] *)

(** The frame [clean_soql_dataframe] returns, from the content [T] of the
    frame it was given. *)
Lemma clean_soql_dataframe_run h df T ctd rn :
  h !! df = Some T ->
  exists r extra T1,
    clean_soql_dataframe df ctd rn h = (Ok r, h ++ extra) /\
    (h ++ extra) !! r = Some (match rn with
                              | Some (kv :: m) => rename_labels T1 (kv :: m)
                              | _ => T1
                              end) /\
    length h <= r /\
    match List.filter (has_column T) (dropped ctd) with
    | [] => T1 = T
    | ex => drop_columns T ex = Ok T1
    end.
Proof.
  intros Hdf. unfold clean_soql_dataframe, df_copy, bindS, load, alloc.
  rewrite Hdf, copy_id. rewrite list_lookup_middle by reflexivity.
  fold (dropped ctd).
  destruct (List.filter (has_column T) (dropped ctd)) as [|c ex] eqn:Hex.
  - unfold ret. destruct rn as [[|kv m]|].
    + exists (length h), [T], T. rewrite !list_lookup_middle by reflexivity. repeat split; auto.
    + unfold store. rewrite !list_lookup_middle by reflexivity.
      exists (length h), [rename_labels T (kv :: m)], T.
      rewrite insert_app_r_alt, Nat.sub_diag by reflexivity. cbn [insert list_insert].
      rewrite !list_lookup_middle by reflexivity. repeat split; auto.
    + exists (length h), [T], T. rewrite !list_lookup_middle by reflexivity. repeat split; auto.
  - assert (Hpresent : forall c', In c' (c :: ex) -> has_column T c' = true).
    { intros c' Hc'. rewrite <- Hex in Hc'. apply filter_In in Hc'. tauto. }
    pose proof (drop_columns_present T (c :: ex) Hpresent) as Hdrop.
    unfold lift. rewrite Hdrop.
    set (T1 := {| columns := _; rows := _ |}) in *.
    assert (Hlen : length (h ++ [T]) = length h + 1) by (rewrite length_app; simpl; lia).
    assert (Hlk : forall X, (h ++ [T; X]) !! length (h ++ [T]) = Some X).
    { intros X. change (h ++ [T; X]) with (h ++ [T] ++ [X]). rewrite app_assoc.
      now apply list_lookup_middle. }
    unfold ret. destruct rn as [[|kv m]|].
    + exists (length (h ++ [T])), [T; T1], T1. rewrite <- app_assoc. simpl.
      rewrite Hlk. repeat split; auto; lia.
    + unfold store. rewrite <- app_assoc. simpl. rewrite Hlk.
      exists (length (h ++ [T])), [T; rename_labels T1 (kv :: m)], T1.
      rewrite Hlk. repeat split; auto; [|lia].
      do 2 f_equal. change (h ++ [T; T1]) with (h ++ [T] ++ [T1]).
      rewrite app_assoc, insert_app_r_alt, Nat.sub_diag by reflexivity.
      cbn [insert list_insert]. now rewrite <- app_assoc.
    + exists (length (h ++ [T])), [T; T1], T1. rewrite <- app_assoc. simpl.
      rewrite Hlk. repeat split; auto; lia.
Qed.

Lemma drop_columns_rows d to_drop d' :
  drop_columns d to_drop = Ok d' -> len d' = len d /\ index d' = index d.
Proof.
  unfold drop_columns. intros H.
  destruct (List.find _ to_drop); [discriminate|]. inversion H; subst; clear H.
  unfold len, index. cbn [columns rows].
  split; [apply length_map|]. now rewrite map_map.
Qed.

Lemma select_map_filter {A} (p : A -> bool) (l : list A) :
  select (map p l) l = List.filter p l.
Proof. induction l as [|x l IH]; simpl; [reflexivity|]. destruct (p x); now rewrite IH. Qed.

Lemma existsb_filter_present T D c :
  In c (columns T) ->
  existsb (String.eqb c) (List.filter (has_column T) D) = existsb (String.eqb c) D.
Proof.
  intros Hc. induction D as [|a D IH]; simpl; [reflexivity|].
  destruct (has_column T a) eqn:Ha; simpl; rewrite IH; [reflexivity|].
  destruct (String.eqb_spec c a) as [->|]; [|reflexivity].
  destruct (find_col_In _ _ Hc) as [j Hj]. unfold has_column in Ha.
  rewrite Hj in Ha. discriminate.
Qed.

Lemma existsb_eqb_In (c : string) l : existsb (String.eqb c) l = true <-> In c l.
Proof.
  rewrite existsb_exists. split.
  - intros (x & Hx & Heq). apply String.eqb_eq in Heq. now subst.
  - intros H. exists c. split; [assumption|apply String.eqb_refl].
Qed.

Lemma clean_kept_columns T ctd T1 :
  match List.filter (has_column T) (dropped ctd) with
  | [] => T1 = T
  | ex => drop_columns T ex = Ok T1
  end ->
  columns T1
  = List.filter (fun c => negb (existsb (String.eqb c) (dropped ctd))) (columns T).
Proof.
  intros H.
  assert (Hfilter : List.filter (fun c => negb (existsb (String.eqb c)
                                   (List.filter (has_column T) (dropped ctd)))) (columns T)
                    = List.filter (fun c => negb (existsb (String.eqb c) (dropped ctd)))
                                  (columns T)).
  { apply filter_ext_in. intros c Hc. now rewrite existsb_filter_present. }
  rewrite <- Hfilter.
  destruct (List.filter (has_column T) (dropped ctd)) as [|c ex] eqn:Hex.
  - subst T1. simpl. clear. induction (columns T); simpl; congruence.
  - rewrite drop_columns_present in H.
    + inversion H; subst. cbn [columns]. apply select_map_filter.
    + intros c' Hc'. rewrite <- Hex in Hc'. apply filter_In in Hc'. tauto.
Qed.

Lemma find_col_map (f : string -> string) cols c :
  (forall c', In c' cols -> f c' = f c -> c' = c) ->
  find_col (map f cols) (f c) = find_col cols c.
Proof.
  induction cols as [|c0 cols IH]; intros Hinj; simpl; [reflexivity|].
  destruct (String.eqb_spec c0 c) as [->|Hne].
  - now rewrite String.eqb_refl.
  - destruct (String.eqb_spec (f c0) (f c)) as [Heq|_].
    + exfalso. apply Hne, Hinj; [now left|assumption].
    + rewrite IH; [reflexivity|]. intros c' Hc'. apply Hinj. now right.
Qed.

(** X19.  [clean_soql_dataframe] never fails and never touches the frame it is
    given: the result is a new object, every frame that existed before
    keeps its content, the rows and their index labels are those of the
    input, and the column labels are the input's labels that are not among
    the columns to drop ([attributes] when none are given), each renamed
    by the mapping.  Columns to drop that the frame lacks are ignored. *)
Theorem clean_soql_dataframe_shape (h : list DataFrame) (df : nat) (T : DataFrame)
    (columns_to_drop : option (list string))
    (rename_columns : option (list (string * string))) :
  h !! df = Some T ->
  exists r extra T',
    clean_soql_dataframe df columns_to_drop rename_columns h = (Ok r, h ++ extra) /\
    (h ++ extra) !! r = Some T' /\
    length h <= r /\
    (forall r0 d, h !! r0 = Some d -> (h ++ extra) !! r0 = Some d) /\
    len T' = len T /\
    index T' = index T /\
    columns T'
    = map (renamed rename_columns)
          (List.filter (fun c => negb (existsb (String.eqb c) (dropped columns_to_drop)))
                       (columns T)).
Proof.
  intros Hdf.
  destruct (clean_soql_dataframe_run h df T columns_to_drop rename_columns Hdf)
    as (r & extra & T1 & Hrun & Hr & Hfresh & HT1).
  pose proof (clean_kept_columns _ _ _ HT1) as Hcols.
  assert (Hrows : len T1 = len T /\ index T1 = index T).
  { destruct (List.filter (has_column T) (dropped columns_to_drop)).
    - now subst.
    - eapply drop_columns_rows; eauto. }
  destruct Hrows as [Hlen Hidx].
  eexists r, extra, _. split; [exact Hrun|]. split; [exact Hr|].
  split; [exact Hfresh|].
  split; [intros r0 d H0; now apply lookup_app_l_Some|].
  destruct rename_columns as [[|kv m]|]; cbn [renamed].
  - repeat split; try assumption. rewrite Hcols. symmetry. apply map_id.
  - repeat split; try assumption. cbn [rename_labels columns]. now rewrite Hcols.
  - repeat split; try assumption. rewrite Hcols. symmetry. apply map_id.
Qed.

(** X20.  What [clean_soql_dataframe] keeps.  A column of the input that is not
    to be dropped is read from the result, under its new label, with the
    values it had, provided no other kept column is renamed to the same
    label. *)
Theorem clean_soql_dataframe_values (h : list DataFrame) (df : nat) (T : DataFrame)
    (columns_to_drop : option (list string))
    (rename_columns : option (list (string * string))) (c : string) :
  h !! df = Some T ->
  rows_fit T ->
  In c (columns T) ->
  ~ In c (dropped columns_to_drop) ->
  (forall c', In c' (columns T) -> ~ In c' (dropped columns_to_drop) ->
              renamed rename_columns c' = renamed rename_columns c -> c' = c) ->
  exists r h' T',
    clean_soql_dataframe df columns_to_drop rename_columns h = (Ok r, h') /\
    h' !! r = Some T' /\
    getitem T' (renamed rename_columns c) = getitem T c.
Proof.
  intros Hdf Hfit Hin Hc Hinj.
  destruct (clean_soql_dataframe_run h df T columns_to_drop rename_columns Hdf)
    as (r & extra & T1 & Hrun & Hr & Hfresh & HT1).
  pose proof (clean_kept_columns _ _ _ HT1) as Hcols.
  assert (Hget : getitem T1 c = getitem T c).
  { destruct (List.filter (has_column T) (dropped columns_to_drop)) as [|c0 ex] eqn:Hex.
    - now subst.
    - eapply drop_columns_getitem; eauto. rewrite <- Hex. intros Hin'.
      apply filter_In in Hin'. tauto. }
  assert (Hinj1 : forall c', In c' (columns T1) ->
                             renamed rename_columns c' = renamed rename_columns c -> c' = c).
  { intros c' Hc'. rewrite Hcols in Hc'. apply filter_In in Hc'. destruct Hc' as [Hin' Hk].
    apply Hinj; [assumption|]. intros Hd. apply existsb_eqb_In in Hd.
    rewrite Hd in Hk. discriminate. }
  eexists r, (h ++ extra), _. split; [exact Hrun|]. split; [exact Hr|].
  destruct rename_columns as [[|kv m]|]; try exact Hget.
  rewrite <- Hget. unfold getitem. cbn [rename_labels columns rows].
  change (map (fun c0 => dict_get_default (kv :: m) c0 c0) (columns T1))
    with (map (renamed (Some (kv :: m))) (columns T1)).
  rewrite (find_col_map _ _ _ Hinj1).
  destruct (find_col (columns T1) c) as [j|] eqn:Hj; [reflexivity|].
  apply find_col_None in Hj. exfalso. apply Hj. rewrite Hcols.
  apply filter_In. split; [assumption|].
  destruct (existsb (String.eqb c) (dropped columns_to_drop)) eqn:E; [|reflexivity].
  apply existsb_eqb_In in E. contradiction.
Qed.

(** ** [extract_nested_fields]: what it writes *)

Lemma set_column_columns d c s :
  exists new, columns (set_column d c s) = columns d ++ new /\
              forall c', In c' new -> c' = c.
Proof.
  unfold set_column. destruct (find_col (columns d) c); cbn [columns].
  - exists []. split; [now rewrite app_nil_r|]. intros c' [].
  - exists [c]. split; [reflexivity|]. intros c' [<-|[]]. reflexivity.
Qed.

Lemma fields_content_columns d nested_col fm :
  exists new, columns (fields_content d nested_col fm) = columns d ++ new /\
              forall c, In c new -> In c (map snd fm).
Proof.
  revert d. induction fm as [|[field_name new_col_name] rest IH]; simpl; intros d.
  - exists []. split; [now rewrite app_nil_r|]. intros c [].
  - destruct (getitem d nested_col) as [s|].
    + destruct (set_column_columns d new_col_name (map (get_field field_name) s))
        as (n1 & H1 & Hn1).
      destruct (IH (set_column d new_col_name (map (get_field field_name) s)))
        as (n2 & H2 & Hn2).
      exists (n1 ++ n2). split; [now rewrite H2, H1, app_assoc|].
      intros c Hc. apply in_app_iff in Hc. destruct Hc as [Hc|Hc]; [left|right; auto].
      symmetry. now apply Hn1.
    + exists []. split; [now rewrite app_nil_r|]. intros c [].
Qed.

Lemma columns_content_columns d M :
  exists new, columns (columns_content d M) = columns d ++ new /\
              forall c, In c new -> In c (destinations M).
Proof.
  revert d. induction M as [|[nested_col fm] rest IH]; simpl; intros d.
  - exists []. split; [now rewrite app_nil_r|]. intros c [].
  - destruct (has_column d nested_col).
    + destruct (fields_content_columns d nested_col fm) as (n1 & H1 & Hn1).
      destruct (IH (fields_content d nested_col fm)) as (n2 & H2 & Hn2).
      exists (n1 ++ n2). split; [now rewrite H2, H1, app_assoc|].
      intros c Hc. apply in_app_iff. apply in_app_iff in Hc. destruct Hc; auto.
    + destruct (IH d) as (n2 & H2 & Hn2). exists n2. split; [assumption|].
      intros c Hc. apply in_app_iff. auto.
Qed.

(** X21.  The destination columns of [extract_nested_fields].  When the
    destination names are pairwise distinct and the source column is not
    itself a destination, the destination column of a [(field, new name)]
    entry holds, row by row, [x.get(field)] for an object [x] of the source
    column and null for anything else, wherever that value is one pandas
    stores as it is (not an integer beyond 2^53, which a column of
    integers and nulls, stored as [float64], would round). *)
Theorem extract_nested_fields_destination (h : list DataFrame) (df : nat) (T : DataFrame)
    (M : list (string * list (string * string)))
    (nested_col : string) (field_mapping : list (string * string))
    (field_name new_col_name : string) (s : list Value) :
  h !! df = Some T ->
  wf_df T ->
  NoDup (destinations M) ->
  ~ In nested_col (destinations M) ->
  In (nested_col, field_mapping) M ->
  In (field_name, new_col_name) field_mapping ->
  getitem T nested_col = Ok s ->
  exists T' col,
    extract_nested_fields df M h = (Ok (length h), h ++ [T']) /\
    getitem T' new_col_name = Ok col /\
    length col = length s /\
    forall i x, s !! i = Some x -> float_exact (get_field field_name x) = true ->
                col !! i = Some (get_field field_name x).
Proof.
  intros HT Hwf Hnd Hsrc HM Hfm Hs.
  exists (columns_content T M), (map (get_field field_name) s).
  split; [now apply extract_nested_fields_run|].
  split; [eapply columns_content_dest; eauto|].
  split; [apply length_map|].
  intros i x Hi _. now rewrite lookup_map, Hi.
Qed.

(** X22.  [extract_nested_fields] only appends columns: the column labels of
    the input come first in the result, in their order, each row keeps one
    cell per column, and every label that follows is a destination name of
    the mapping. *)
Theorem extract_nested_fields_appends (h : list DataFrame) (df : nat) (T : DataFrame)
    (M : list (string * list (string * string))) :
  h !! df = Some T ->
  wf_df T ->
  exists T' new,
    extract_nested_fields df M h = (Ok (length h), h ++ [T']) /\
    columns T' = columns T ++ new /\
    (forall c, In c new -> In c (destinations M)) /\
    wf_df T'.
Proof.
  intros HT Hwf.
  destruct (columns_content_columns T M) as (new & Hcols & Hnew).
  exists (columns_content T M), new.
  split; [now apply extract_nested_fields_run|].
  split; [assumption|]. split; [assumption|].
  now apply columns_content_shape.
Qed.

(** ** [extract_from_dict] *)

Lemma mapping_value_nested_ind (P : mapping_value -> Prop) :
  (forall dest, P (MLeaf dest)) ->
  (forall m, Forall (fun kv => P (snd kv)) m -> P (MNested m)) ->
  P MOther ->
  forall v, P v.
Proof.
  intros Hleaf Hnested Hother.
  fix IH 1. intros [dest|m|]; [apply Hleaf| |apply Hother].
  apply Hnested. induction m as [|[k v] m IHm]; constructor; [apply IH|exact IHm].
Qed.

Lemma leaves_of_nested m : leaves_of (MNested m) = leaves m.
Proof.
  unfold leaves. induction m as [|[k v] m IH]; [reflexivity|].
  cbn [flat_map snd]. rewrite <- IH. reflexivity.
Qed.

Lemma dict_get_set_same {V} (d : list (string * V)) k v :
  dict_get (dict_set d k v) k = Some v.
Proof.
  induction d as [|[k0 v0] d IH]; simpl.
  - now rewrite String.eqb_refl.
  - destruct (String.eqb_spec k0 k); simpl.
    + subst. now rewrite String.eqb_refl.
    + destruct (String.eqb_spec k0 k); [contradiction|exact IH].
Qed.

Lemma dict_get_keys {V} (d : list (string * V)) k :
  dict_get d k <> None <-> In k (dict_keys d).
Proof.
  induction d as [|[k0 v0] d IH]; simpl; [tauto|].
  destruct (String.eqb_spec k0 k); [|tauto]. split; [auto|discriminate].
Qed.

Lemma dict_set_keys {V} (d : list (string * V)) k v :
  dict_keys (dict_set d k v)
  = dict_keys d ++ match dict_get d k with
                   | Some _ => []
                   | None => [k]
                   end.
Proof.
  induction d as [|[k0 v0] d IH]; simpl; [reflexivity|].
  destruct (String.eqb_spec k0 k); simpl.
  - now rewrite app_nil_r.
  - now rewrite IH.
Qed.

Lemma dict_set_NoDup {V} (d : list (string * V)) k v :
  NoDup (dict_keys d) -> NoDup (dict_keys (dict_set d k v)).
Proof.
  intros H. rewrite dict_set_keys. destruct (dict_get d k) eqn:E.
  - now rewrite app_nil_r.
  - apply NoDup_app. split; [assumption|]. split; [|apply NoDup_singleton].
    intros x Hx Hk. apply list_elem_of_singleton in Hk. subst.
    apply list_elem_of_In, dict_get_keys in Hx. contradiction.
Qed.

Lemma dict_update_NoDup {V} (d d' : list (string * V)) :
  NoDup (dict_keys d) -> NoDup (dict_keys (dict_update d d')).
Proof.
  unfold dict_update. revert d. induction d' as [|[k v] d' IH]; simpl; intros d H;
    [assumption|].
  apply IH. now apply dict_set_NoDup.
Qed.

Lemma dict_update_other {V} (d d' : list (string * V)) c :
  ~ In c (dict_keys d') -> dict_get (dict_update d d') c = dict_get d c.
Proof.
  unfold dict_update. revert d. induction d' as [|[k v] d' IH]; simpl; intros d H;
    [reflexivity|].
  rewrite IH by tauto. apply dict_get_set_other. tauto.
Qed.

Lemma dict_update_get {V} (d d' : list (string * V)) c v :
  NoDup (dict_keys d') -> dict_get d' c = Some v ->
  dict_get (dict_update d d') c = Some v.
Proof.
  revert d. induction d' as [|[k0 v0] d' IH]; simpl; intros d Hnd H; [discriminate|].
  apply NoDup_cons in Hnd. destruct Hnd as [Hk0 Hnd].
  change (dict_update d ((k0, v0) :: d')) with (dict_update (dict_set d k0 v0) d').
  destruct (String.eqb_spec k0 c).
  - subst. inversion H; subst. rewrite dict_update_other.
    + apply dict_get_set_same.
    + intros Hin. apply Hk0. now apply list_elem_of_In.
  - now apply IH.
Qed.

Lemma dict_update_keys {V} (d d' : list (string * V)) c :
  dict_get (dict_update d d') c <> None ->
  dict_get d c <> None \/ In c (dict_keys d').
Proof.
  intros H. destruct (in_dec string_dec c (dict_keys d')) as [Hin|Hout]; [now right|].
  left. now rewrite dict_update_other in H.
Qed.

Lemma extract_items_keys d (m : NestedMapping) :
  Forall (fun kv =>
            forall key result c,
              dict_get (extract_item d key (snd kv) result) c <> None ->
              dict_get result c <> None \/ In c (leaves_of (snd kv))) m ->
  forall result c,
    dict_get (fold_left (fun result kv => extract_item d (fst kv) (snd kv) result) m result) c
    <> None ->
    dict_get result c <> None \/ In c (leaves m).
Proof.
  unfold leaves. induction 1 as [|[k v] m Hv Hm IH]; simpl; intros result c H; [now left|].
  apply IH in H. rewrite in_app_iff. destruct H as [H|H]; [|tauto].
  apply Hv in H. tauto.
Qed.

Lemma extract_item_keys value :
  forall d key result c,
    dict_get (extract_item d key value result) c <> None ->
    dict_get result c <> None \/ In c (leaves_of value).
Proof.
  induction value as [dest|m IH|] using mapping_value_nested_ind; intros d key result c H.
  - cbn [extract_item] in H. cbn [leaves_of].
    destruct (String.eqb_spec dest c) as [->|Hne]; [right; now left|].
    left. now rewrite dict_get_set_other in H.
  - rewrite extract_item_nested in H. rewrite leaves_of_nested.
    destruct (dict_get d key) as [[| | | | |nested_data|]|]; try (now left).
    apply dict_update_keys in H. destruct H as [H|H]; [now left|right].
    apply dict_get_keys in H. unfold extract_from_dict in H.
    apply extract_items_keys in H.
    + destruct H as [H|H]; [now contradiction H|assumption].
    + eapply Forall_impl; [exact IH|]. intros kv Hkv k r c'. apply Hkv.
  - now left.
Qed.

Lemma extract_from_dict_keys_in data mapping c :
  dict_get (extract_from_dict data mapping) c <> None -> In c (leaves mapping).
Proof.
  unfold extract_from_dict. destruct data as [| | | | |d|]; try (now intros []).
  intros H. apply extract_items_keys in H.
  - destruct H as [H|H]; [now contradiction H|assumption].
  - apply List.Forall_forall. intros kv _ key result c'. apply extract_item_keys.
Qed.

Lemma extract_item_NoDup d key value result :
  NoDup (dict_keys result) -> NoDup (dict_keys (extract_item d key value result)).
Proof.
  intros H. destruct value as [dest|m|]; [now apply dict_set_NoDup| |assumption].
  rewrite extract_item_nested.
  destruct (dict_get d key) as [[| | | | |nested_data|]|]; try assumption.
  now apply dict_update_NoDup.
Qed.

Lemma extract_items_NoDup d (m : NestedMapping) result :
  NoDup (dict_keys result) ->
  NoDup (dict_keys (fold_left (fun result kv => extract_item d (fst kv) (snd kv) result)
                              m result)).
Proof.
  revert result. induction m as [|[k v] m IH]; simpl; intros result H; [assumption|].
  apply IH. now apply extract_item_NoDup.
Qed.

Lemma extract_from_dict_NoDup data mapping :
  NoDup (dict_keys (extract_from_dict data mapping)).
Proof.
  unfold extract_from_dict. destruct data; try apply NoDup_nil_2.
  apply extract_items_NoDup. apply NoDup_nil_2.
Qed.

Lemma extract_item_frame d key value result c :
  ~ In c (leaves_of value) ->
  dict_get (extract_item d key value result) c = dict_get result c.
Proof.
  intros Hc. destruct value as [dest|m|]; [| |reflexivity].
  - cbn [extract_item]. apply dict_get_set_other. cbn [leaves_of] in Hc. simpl in Hc. tauto.
  - rewrite extract_item_nested.
    destruct (dict_get d key) as [[| | | | |nested_data|]|]; try reflexivity.
    apply dict_update_other. intros Hin. apply Hc. rewrite leaves_of_nested.
    apply dict_get_keys in Hin. now apply extract_from_dict_keys_in in Hin.
Qed.

Lemma extract_items_frame d (m : NestedMapping) result c :
  ~ In c (leaves m) ->
  dict_get (fold_left (fun result kv => extract_item d (fst kv) (snd kv) result) m result) c
  = dict_get result c.
Proof.
  unfold leaves. revert result. induction m as [|[k v] m IH]; simpl; intros result Hc;
    [reflexivity|].
  rewrite in_app_iff in Hc. rewrite IH by tauto. apply extract_item_frame. tauto.
Qed.

(** The value [extract_from_dict] holds under [c] when the item that
    writes [c] sits between [pre] and [post], whose destinations are all
    other names. *)
Lemma extract_from_dict_split d pre key value post c :
  ~ In c (leaves pre) -> ~ In c (leaves post) ->
  dict_get (extract_from_dict (VDict d) (pre ++ (key, value) :: post)) c
  = dict_get (extract_item d key value
                (fold_left (fun result kv => extract_item d (fst kv) (snd kv) result) pre []))
             c.
Proof.
  intros Hpre Hpost. unfold extract_from_dict. rewrite fold_left_app. cbn [fold_left fst snd].
  now rewrite extract_items_frame.
Qed.

Lemma leaves_app m1 m2 : leaves (m1 ++ m2) = leaves m1 ++ leaves m2.
Proof. unfold leaves. apply flat_map_app. Qed.

Lemma leaves_split_NoDup pre key value post c :
  NoDup (leaves (pre ++ (key, value) :: post)) -> In c (leaves_of value) ->
  ~ In c (leaves pre) /\ ~ In c (leaves post).
Proof.
  rewrite leaves_app. change (leaves ((key, value) :: post))
    with (leaves_of value ++ leaves post).
  intros Hnd Hc. apply NoDup_app in Hnd. destruct Hnd as (_ & Hdisj & Hnd).
  apply NoDup_app in Hnd. destruct Hnd as (_ & Hdisj' & _).
  split.
  - intros Hin. apply (Hdisj c); apply list_elem_of_In; [assumption|].
    apply in_app_iff. now left.
  - intros Hin. apply (Hdisj' c); now apply list_elem_of_In.
Qed.

(** X24.  [extract_from_dict] writes only destination names of its mapping:
    a key of the dictionary it returns is a leaf of the mapping, at any
    depth. *)
Theorem extract_from_dict_keys (data : Value) (mapping : NestedMapping) (c : string) :
  In c (dict_keys (extract_from_dict data mapping)) -> In c (leaves mapping).
Proof. intros H. apply dict_get_keys in H. now apply extract_from_dict_keys_in in H. Qed.

(** X25.  A leaf of the mapping is always written: for an entry
    [key -> new name] of a mapping whose destination names are pairwise
    distinct, the dictionary returned for an object holds [data.get(key)]
    under the new name, so null when the object lacks the key. *)
Theorem extract_from_dict_leaf (d : list (string * Value)) (mapping : NestedMapping)
    (key dest : string) :
  NoDup (leaves mapping) ->
  In (key, MLeaf dest) mapping ->
  dict_get (extract_from_dict (VDict d) mapping) dest = Some (dict_get_default d key VNull).
Proof.
  intros Hnd Hin. apply in_split in Hin. destruct Hin as (pre & post & ->).
  destruct (leaves_split_NoDup pre key (MLeaf dest) post dest Hnd) as [Hpre Hpost];
    [now left|].
  rewrite extract_from_dict_split by assumption. cbn [extract_item].
  apply dict_get_set_same.
Qed.

(** X26.  A nested entry whose key resolves to an object contributes what the
    recursive call returns: under every destination name of the nested
    mapping the result holds what [extract_from_dict] holds for the nested
    object (nothing, when the recursive call wrote nothing there). *)
Theorem extract_from_dict_nested (d nested_data : list (string * Value))
    (mapping m : NestedMapping) (key c : string) :
  NoDup (leaves mapping) ->
  In (key, MNested m) mapping ->
  dict_get d key = Some (VDict nested_data) ->
  In c (leaves m) ->
  dict_get (extract_from_dict (VDict d) mapping) c
  = dict_get (extract_from_dict (VDict nested_data) m) c.
Proof.
  intros Hnd Hin Hkey Hc. apply in_split in Hin. destruct Hin as (pre & post & ->).
  destruct (leaves_split_NoDup pre key (MNested m) post c Hnd) as [Hpre Hpost];
    [now rewrite leaves_of_nested|].
  rewrite extract_from_dict_split by assumption.
  rewrite extract_item_nested, Hkey.
  destruct (dict_get (extract_from_dict (VDict nested_data) m) c) as [v|] eqn:E.
  - apply dict_update_get; [apply extract_from_dict_NoDup|assumption].
  - rewrite dict_update_other.
    + now apply extract_items_frame.
    + intros H. apply dict_get_keys in H. contradiction.
Qed.

(** ** [build_pie_segments] *)

Lemma take_while_app_stop {A} (p : A -> bool) l x r :
  forallb p l = true -> p x = false -> take_while p (l ++ x :: r) = l.
Proof.
  intros Hl Hx. induction l as [|y l IH]; simpl in *; [now rewrite Hx|].
  apply andb_prop in Hl. destruct Hl as [-> Hl]. now rewrite IH.
Qed.

Lemma drop_while_app_stop {A} (p : A -> bool) l x r :
  forallb p l = true -> p x = false -> drop_while p (l ++ x :: r) = x :: r.
Proof.
  intros Hl Hx. induction l as [|y l IH]; simpl in *; [now rewrite Hx|].
  apply andb_prop in Hl. destruct Hl as [-> Hl]. now apply IH.
Qed.

Lemma drop_while_app_all {A} (p : A -> bool) l r :
  forallb p l = true -> drop_while p (l ++ r) = drop_while p r.
Proof.
  intros Hl. induction l as [|y l IH]; simpl in *; [reflexivity|].
  apply andb_prop in Hl. destruct Hl as [-> Hl]. now apply IH.
Qed.

Lemma forallb_rev {A} (p : A -> bool) l : forallb p (rev l) = forallb p l.
Proof.
  induction l as [|x l IH]; simpl; [reflexivity|].
  rewrite forallb_app, IH. simpl. rewrite andb_true_r. apply andb_comm.
Qed.

Lemma strip_trimmed l : trimmed l -> strip l = l.
Proof. intros [H1 H2]. unfold strip. now rewrite H1, H2, rev_involutive. Qed.

Lemma re_sub_count_counted label ws digits :
  trimmed label -> forallb is_space ws = true ->
  digits <> [] -> forallb is_digit digits = true ->
  re_sub_count (label ++ ws ++ "("%char :: digits ++ [")"%char]) = label.
Proof.
  intros [_ Hr] Hws Hne Hd. unfold re_sub_count.
  assert (Hrev : rev (label ++ ws ++ "("%char :: digits ++ [")"%char])
                 = ")"%char :: rev digits ++ "("%char :: rev ws ++ rev label).
  { rewrite !rev_app_distr. cbn [rev app]. rewrite !rev_app_distr. cbn [rev app].
    now rewrite <- !app_assoc. }
  rewrite Hrev.
  assert (Hcase : strip_count_group
                    (")"%char :: rev digits ++ "("%char :: rev ws ++ rev label)
                  = Some (rev label)).
  { cbn [strip_count_group].
    rewrite take_while_app_stop, drop_while_app_stop
      by (rewrite ?forallb_rev; auto).
    destruct (rev digits) eqn:E.
    - apply (f_equal (@rev ascii)) in E. rewrite rev_involutive in E. contradiction.
    - rewrite drop_while_app_all by now rewrite forallb_rev. now rewrite Hr. }
  rewrite Hcase. now rewrite rev_involutive.
Qed.

Lemma list_ascii_of_string_app a b :
  list_ascii_of_string (a +:+ b) = list_ascii_of_string a ++ list_ascii_of_string b.
Proof. induction a as [|c a IH]; simpl; [reflexivity|]. now rewrite IH. Qed.

(** X27.  The titles the reports print, [f"{label} ({len(df)})"], lead back to
    the label: for a label without whitespace at either end, any run of
    whitespace and a parenthesised run of one or more digits after it are
    removed by the base-title computation. *)
Theorem base_title_counted (label : string) (ws digits : list ascii) :
  trimmed (list_ascii_of_string label) ->
  forallb is_space ws = true ->
  digits <> [] ->
  forallb is_digit digits = true ->
  base_title (label +:+ string_of_list_ascii ws +:+ "(" +:+ string_of_list_ascii digits +:+ ")")
  = label.
Proof.
  intros Ht Hws Hne Hd. unfold base_title.
  rewrite !list_ascii_of_string_app, !list_ascii_of_string_of_list_ascii.
  change (list_ascii_of_string "(") with ["("%char].
  change (list_ascii_of_string ")") with [")"%char].
  change (["("%char] ++ digits ++ [")"%char]) with ("("%char :: digits ++ [")"%char]).
  rewrite re_sub_count_counted, strip_trimmed by assumption.
  apply string_of_list_ascii_of_string.
Qed.

Lemma build_description_map_app l1 l2 dm0 :
  build_description_map (l1 ++ l2) dm0
  = do dm <- build_description_map l1 dm0; build_description_map l2 dm.
Proof.
  revert dm0. induction l1 as [|item l1 IH]; intros dm0; [reflexivity|].
  cbn [app build_description_map].
  destruct (dict_get_default item "title" (VStr "")); try reflexivity.
  cbn [bind]. apply IH.
Qed.

Lemma build_description_map_last pre item post dm0 dm label :
  build_description_map (pre ++ item :: post) dm0 = Ok dm ->
  record_base_title item = Some label ->
  (forall it, In it post -> record_base_title it <> Some label) ->
  dict_get dm label = Some (dict_get_default item "description" (VStr "")).
Proof.
  intros H Hitem Hpost. rewrite build_description_map_app in H.
  apply bind_Ok in H. destruct H as (dm1 & _ & H).
  cbn [build_description_map] in H. unfold record_base_title in Hitem.
  destruct (dict_get_default item "title" (VStr "")) as [| | |raw| | |]; try discriminate.
  cbn [bind] in H. inversion Hitem; subst label.
  rewrite (build_description_map_absent _ _ _ _ H Hpost).
  apply dict_get_set_same.
Qed.

Lemma pie_loop_description dm lmap colors idx labels s :
  In s (pie_loop dm lmap colors idx labels) ->
  seg_description s = dict_get_default dm (seg_title s) (VStr "").
Proof.
  revert idx. induction labels as [|label rest IH]; simpl; intros idx H; [contradiction|].
  destruct (dict_get lmap label); [|eauto].
  destruct H as [<-|H]; [reflexivity|eauto].
Qed.

(** X28.  Which record describes a segment: the last one whose base title is
    the segment's label.  Its description, or the empty string when it has
    none, is the description of every segment with that label. *)
Theorem last_record_describes_segment (pre post : list (list (string * Value)))
    (item : list (string * Value)) (label : string)
    (label_to_df_map : list (string * DataFrame)) (pie_labels pie_colors : list string)
    (pie_segments : list Segment) (s : Segment) :
  build_pie_segments (pre ++ item :: post) label_to_df_map pie_labels pie_colors
  = Ok pie_segments ->
  record_base_title item = Some label ->
  (forall it, In it post -> record_base_title it <> Some label) ->
  In s pie_segments ->
  seg_title s = label ->
  seg_description s = dict_get_default item "description" (VStr "").
Proof.
  unfold build_pie_segments. intros H Hitem Hpost Hs Htitle.
  apply bind_Ok in H. destruct H as (dm & Hdm & H). inversion H; subst pie_segments.
  rewrite (pie_loop_description _ _ _ _ _ _ Hs), Htitle.
  unfold dict_get_default at 1.
  now rewrite (build_description_map_last _ _ _ _ _ _ Hdm Hitem Hpost).
Qed.

Lemma pie_loop_at dm lmap colors idx labels i label df :
  labels !! i = Some label -> dict_get lmap label = Some df ->
  In {| seg_title := label;
        seg_count := len df;
        seg_description := dict_get_default dm label (VStr "");
        seg_color := nth (idx + i) colors "#CCCCCC" |}
     (pie_loop dm lmap colors idx labels).
Proof.
  revert idx i. induction labels as [|l rest IH]; intros idx [|i] Hi Hdf;
    try discriminate.
  - cbn in Hi. inversion Hi; subst l. cbn [pie_loop]. rewrite Hdf, Nat.add_0_r. now left.
  - cbn in Hi. cbn [pie_loop].
    replace (idx + S i) with (S idx + i) by lia.
    destruct (dict_get lmap l); [right|]; now apply IH.
Qed.

Lemma pie_loop_from dm lmap colors idx labels s :
  In s (pie_loop dm lmap colors idx labels) ->
  exists i, labels !! i = Some (seg_title s) /\
            seg_color s = nth (idx + i) colors "#CCCCCC".
Proof.
  revert idx. induction labels as [|l rest IH]; simpl; intros idx H; [contradiction|].
  assert (Hrest : In s (pie_loop dm lmap colors (S idx) rest) ->
                  exists i, (l :: rest) !! i = Some (seg_title s) /\
                            seg_color s = nth (idx + i) colors "#CCCCCC").
  { intros H'. destruct (IH _ H') as (i & Hi & Hc). exists (S i). split; [exact Hi|].
    now replace (idx + S i) with (S idx + i) by lia. }
  destruct (dict_get lmap l); [|auto].
  destruct H as [<-|H]; [|auto].
  exists 0. split; [reflexivity|]. cbn [seg_color]. now rewrite Nat.add_0_r.
Qed.

(** X29.  Colours go by the position of the label in [pie_labels], not by the
    position of the segment in the result: a label at position [idx] that
    has a table gives a segment coloured [pie_colors[idx]], or "#CCCCCC"
    when [pie_colors] is too short, and every segment of the result comes
    from such a position.  A skipped label uses up its colour. *)
Theorem build_pie_segments_colors (llm_output : list (list (string * Value)))
    (label_to_df_map : list (string * DataFrame)) (pie_labels pie_colors : list string)
    (pie_segments : list Segment) :
  build_pie_segments llm_output label_to_df_map pie_labels pie_colors = Ok pie_segments ->
  (forall idx label df,
     pie_labels !! idx = Some label -> dict_get label_to_df_map label = Some df ->
     exists s, In s pie_segments /\ seg_title s = label /\ seg_count s = len df /\
               seg_color s = nth idx pie_colors "#CCCCCC") /\
  (forall s, In s pie_segments ->
     exists idx, pie_labels !! idx = Some (seg_title s) /\
                 seg_color s = nth idx pie_colors "#CCCCCC").
Proof.
  unfold build_pie_segments. intros H.
  apply bind_Ok in H. destruct H as (dm & Hdm & H). inversion H; subst pie_segments.
  split.
  - intros idx label df Hi Hdf. eexists. split.
    + exact (pie_loop_at dm label_to_df_map pie_colors 0 pie_labels idx label df Hi Hdf).
    + auto.
  - intros s Hs. exact (pie_loop_from _ _ _ 0 _ _ Hs).
Qed.

Lemma build_description_map_bad_title llm_output dm0 :
  Exists (fun item => ~ title_well_typed item) llm_output ->
  exists msg, build_description_map llm_output dm0 = Raise (TypeError msg).
Proof.
  intros H. revert dm0. induction H as [item rest Hbad|item rest _ IH]; intros dm0;
    cbn [build_description_map].
  - unfold title_well_typed in Hbad. unfold dict_get_default.
    destruct (dict_get item "title") as [[]|]; cbn [bind]; eauto; now contradiction Hbad.
  - destruct (dict_get_default item "title" (VStr "")); cbn [bind]; eauto.
Qed.

(** X30.  A record whose title is there but is not a string makes
    [build_pie_segments] raise [TypeError]; no segment is returned, also
    not for the labels the other records describe. *)
Theorem build_pie_segments_bad_title (llm_output : list (list (string * Value)))
    (label_to_df_map : list (string * DataFrame)) (pie_labels pie_colors : list string) :
  Exists (fun item => ~ title_well_typed item) llm_output ->
  exists msg,
    build_pie_segments llm_output label_to_df_map pie_labels pie_colors
    = Raise (TypeError msg).
Proof.
  intros H. unfold build_pie_segments.
  destruct (build_description_map_bad_title llm_output [] H) as [msg ->]. simpl. eauto.
Qed.

(** ** The further properties at sample inputs *)

Lemma wf_stamped_df : wf_df stamped_df.
Proof. split; [compute_done | repeat constructor]. Qed.

Lemma keep_timestamps_coercing : coercing keep_timestamps.
Proof.
  intros s. eexists. split; [reflexivity|]. split; [apply length_map|].
  intros x Hx. apply in_map_iff in Hx. destruct Hx as (y & <- & _).
  destruct y; eauto.
Qed.

Lemma apply_filters_permutation_witness :
  apply_filters scenario_df
    [("RenewalOpportunity", VDict [("isna", VBool true)]); ("Status", VStr "Activated")]
  = Ok {| columns := ["Status"; "RenewalOpportunity"];
          rows := [ (0%Z, [VStr "Activated"; VNull]);
                    (3%Z, [VStr "Activated"; VNull]) ] |}.
Proof.
  apply (apply_filters_permutation scenario_df scenario_filter).
  - apply perm_swap.
  - reflexivity.
Defined.

Lemma apply_filters_sound_witness :
  sublist [ (0%Z, [VStr "Activated"; VNull]); (3%Z, [VStr "Activated"; VNull]) ]
          (rows scenario_df) /\
  exists j, find_col (columns scenario_df) "RenewalOpportunity" = Some j /\
            cell_test "isna" (cell_at j (3%Z, [VStr "Activated"; VNull])) (VBool true)
            = Ok true.
Proof.
  destruct (apply_filters_sound scenario_df scenario_filter
              {| columns := ["Status"; "RenewalOpportunity"];
                 rows := [ (0%Z, [VStr "Activated"; VNull]);
                           (3%Z, [VStr "Activated"; VNull]) ] |} eq_refl)
    as (_ & H & _ & _ & Hcell).
  split; [exact H|].
  destruct (Hcell "RenewalOpportunity" (VDict [("isna", VBool true)]) "isna" (VBool true)
              (3%Z, [VStr "Activated"; VNull])) as (j & Hj & Htest).
  - simpl. auto.
  - simpl. auto.
  - reflexivity.
  - simpl. auto.
  - exists j. split; [exact Hj|]. apply Htest. reflexivity.
Defined.

Lemma returned_rows_pass_each_test_witness :
  exists j, find_col (columns scenario_df) "Status" = Some j /\
            cell_test "=" (cell_at j (0%Z, [VStr "Activated"; VNull])) (VStr "Activated")
            = Ok true.
Proof.
  destruct (returned_rows_pass_each_test scenario_df scenario_filter
              {| columns := ["Status"; "RenewalOpportunity"];
                 rows := [ (0%Z, [VStr "Activated"; VNull]);
                           (3%Z, [VStr "Activated"; VNull]) ] |}
              "Status" (VStr "Activated") "=" (VStr "Activated")
              (0%Z, [VStr "Activated"; VNull])) as (j & Hj & Htest).
  - reflexivity.
  - simpl. auto.
  - simpl. auto.
  - reflexivity.
  - simpl. auto.
  - exists j. split; [exact Hj|]. apply Htest.
    vm_compute in Hj. injection Hj as <-. reflexivity.
Defined.

Lemma null_never_passes_a_comparison_witness :
  cell scenario_df (0%Z, [VStr "Activated"; VNull]) "Status" <> Some VNull.
Proof.
  apply (null_never_passes_a_comparison scenario_df scenario_filter
           {| columns := ["Status"; "RenewalOpportunity"];
              rows := [ (0%Z, [VStr "Activated"; VNull]);
                        (3%Z, [VStr "Activated"; VNull]) ] |}
           "Status" (VStr "Activated") "=" (VStr "Activated")).
  - reflexivity.
  - simpl. auto.
  - simpl. auto.
  - simpl. auto.
  - reflexivity.
  - simpl. auto.
Defined.

Lemma equality_segments_exclusive_witness :
  ~ In (2%Z, [VStr "Draft"; VNull])
       (rows {| columns := ["Status"; "RenewalOpportunity"];
                rows := [ (0%Z, [VStr "Activated"; VNull]);
                          (1%Z, [VStr "Activated"; VStr "X"]);
                          (3%Z, [VStr "Activated"; VNull]);
                          (4%Z, [VStr "Activated"; VStr "Y"]) ] |}).
Proof.
  apply (equality_segments_exclusive scenario_df
           [("Status", VStr "Draft")] [("Status", VStr "Activated")]
           {| columns := ["Status"; "RenewalOpportunity"];
              rows := [ (2%Z, [VStr "Draft"; VNull]) ] |}
           _ "Status" (VStr "Draft") (VStr "Activated") "Draft" "Activated"
           [VStr "Activated"; VStr "Activated"; VStr "Draft"; VStr "Activated";
            VStr "Activated"]).
  - reflexivity.
  - reflexivity.
  - reflexivity.
  - intros x [<-|[<-|[<-|[<-|[<-|[]]]]]]; eauto.
  - simpl. auto.
  - simpl. auto.
  - simpl. auto.
  - simpl. auto.
  - discriminate.
  - simpl. auto.
Defined.

Lemma eq_ne_partition_witness :
  exists A B,
    apply_filters scenario_df [("Status", VDict [("=", VStr "Draft")])] = Ok A /\
    apply_filters scenario_df [("Status", VDict [("!=", VStr "Draft")])] = Ok B /\
    len A + len B = 5.
Proof.
  destruct (eq_ne_partition scenario_df "Status" (VStr "Draft"))
    as (A & B & HA & HB & Hlen & _).
  - compute_done.
  - reflexivity.
  - reflexivity.
  - exists A, B. auto.
Defined.

Lemma gt_le_isna_partition_witness :
  exists A B N,
    apply_filters amounts_df [("Amount", VDict [(">", VNum 10)])] = Ok A /\
    apply_filters amounts_df [("Amount", VDict [("<=", VNum 10)])] = Ok B /\
    apply_filters amounts_df [("Amount", VDict [("isna", VBool true)])] = Ok N /\
    len A + len B + len N = 3.
Proof.
  destruct (gt_le_isna_partition amounts_df "Amount" [VNum 5; VNull; VNum 40] 10)
    as (A & B & N & HA & HB & HN & _ & Hlen).
  - reflexivity.
  - intros x [<-|[<-|[<-|[]]]]; eauto.
  - exists A, B, N. auto.
Defined.

Lemma apply_filters_in_two_steps_witness :
  exists R1,
    apply_filters scenario_df [("Status", VStr "Activated")] = Ok R1 /\
    apply_filters R1 [("RenewalOpportunity", VDict [("isna", VBool true)])]
    = Ok {| columns := ["Status"; "RenewalOpportunity"];
            rows := [ (0%Z, [VStr "Activated"; VNull]);
                      (3%Z, [VStr "Activated"; VNull]) ] |}.
Proof.
  apply (apply_filters_in_two_steps scenario_df [("Status", VStr "Activated")]
           [("RenewalOpportunity", VDict [("isna", VBool true)])]).
  - reflexivity.
  - reflexivity.
Defined.

Lemma segments_are_filters_witness :
  leakage_zombies (day 100 + 5)%Z dated_df None
  = apply_filters dated_df (date_segment_filter "<=" (day 100 - Timedelta_days 30)%Z) /\
  expiring_soon_contracts (day 100) dated_df
  = apply_filters dated_df (date_segment_filter ">=" (day 100 - Timedelta_days 30)%Z).
Proof.
  apply (segments_are_filters (day 100 + 5)%Z (day 100) None dated_df).
  compute_done.
Defined.

Lemma segment_rows_witness :
  In (1%Z, [VDate (day 90); VStr "Activated"; VNull])
     (rows {| columns := ["EndDate"; "Status"; "SBQQ__RenewalOpportunity__c"];
              rows := [ (0%Z, [VDate (day 70); VStr "Activated"; VNull]);
                        (1%Z, [VDate (day 90); VStr "Activated"; VNull]) ] |})
  <-> In (1%Z, [VDate (day 90); VStr "Activated"; VNull]) (rows dated_df) /\
      open_contract dated_df (1%Z, [VDate (day 90); VStr "Activated"; VNull]) /\
      exists t, cell dated_df (1%Z, [VDate (day 90); VStr "Activated"; VNull]) "EndDate"
                = Some (VDate t) /\
                (day 100 - Timedelta_days 30 <= t)%Z.
Proof.
  destruct (segment_rows (day 100 + 5)%Z (day 100) None dated_df
              {| columns := ["EndDate"; "Status"; "SBQQ__RenewalOpportunity__c"];
                 rows := [ (0%Z, [VDate (day 70); VStr "Activated"; VNull]) ] |}
              {| columns := ["EndDate"; "Status"; "SBQQ__RenewalOpportunity__c"];
                 rows := [ (0%Z, [VDate (day 70); VStr "Activated"; VNull]);
                           (1%Z, [VDate (day 90); VStr "Activated"; VNull]) ] |}
              (1%Z, [VDate (day 90); VStr "Activated"; VNull])
              wf_dated_df eq_refl eq_refl) as [_ H].
  exact H.
Defined.

Lemma segments_cover_and_meet_witness :
  ~ In (2%Z, [VNull; VStr "Draft"; VStr "006"])
       [ (0%Z, [VDate (day 70); VStr "Activated"; VNull]) ] /\
  ~ In (2%Z, [VNull; VStr "Draft"; VStr "006"])
       [ (0%Z, [VDate (day 70); VStr "Activated"; VNull]);
         (1%Z, [VDate (day 90); VStr "Activated"; VNull]) ].
Proof.
  destruct (segments_cover_and_meet (day 100 + 5)%Z (day 100) None dated_df
              {| columns := ["EndDate"; "Status"; "SBQQ__RenewalOpportunity__c"];
                 rows := [ (0%Z, [VDate (day 70); VStr "Activated"; VNull]) ] |}
              {| columns := ["EndDate"; "Status"; "SBQQ__RenewalOpportunity__c"];
                 rows := [ (0%Z, [VDate (day 70); VStr "Activated"; VNull]);
                           (1%Z, [VDate (day 90); VStr "Activated"; VNull]) ] |}
              (2%Z, [VNull; VStr "Draft"; VStr "006"])
              wf_dated_df eq_refl eq_refl eq_refl) as (_ & _ & H).
  exact (H eq_refl).
Defined.

Lemma residual_partition_witness :
  len {| columns := ["Status"; "RenewalOpportunity"];
         rows := [ (0%Z, [VStr "Activated"; VNull]);
                   (3%Z, [VStr "Activated"; VNull]) ] |}
  + len (residual scenario_df
           {| columns := ["Status"; "RenewalOpportunity"];
              rows := [ (0%Z, [VStr "Activated"; VNull]);
                        (3%Z, [VStr "Activated"; VNull]) ] |})
  = len scenario_df.
Proof.
  destruct (residual_partition scenario_df scenario_filter
              {| columns := ["Status"; "RenewalOpportunity"];
                 rows := [ (0%Z, [VStr "Activated"; VNull]);
                           (3%Z, [VStr "Activated"; VNull]) ] |})
    as (_ & _ & H & _).
  - compute_done.
  - reflexivity.
  - exact H.
Defined.

Lemma healthy_wedge_and_healthy_table_witness :
  (Z.of_nat
     (len (residual2 dated_df
             {| columns := ["EndDate"; "Status"; "SBQQ__RenewalOpportunity__c"];
                rows := [ (0%Z, [VDate (day 70); VStr "Activated"; VNull]) ] |}
             {| columns := ["EndDate"; "Status"; "SBQQ__RenewalOpportunity__c"];
                rows := [ (0%Z, [VDate (day 70); VStr "Activated"; VNull]);
                          (1%Z, [VDate (day 90); VStr "Activated"; VNull]) ] |}))
   = 0 + 1)%Z.
Proof.
  destruct (healthy_wedge_and_healthy_table (day 100 + 5)%Z (day 100) None
              dated_df dated_df
              {| columns := ["EndDate"; "Status"; "SBQQ__RenewalOpportunity__c"];
                 rows := [ (0%Z, [VDate (day 70); VStr "Activated"; VNull]) ] |}
              {| columns := ["EndDate"; "Status"; "SBQQ__RenewalOpportunity__c"];
                 rows := [ (0%Z, [VDate (day 70); VStr "Activated"; VNull]);
                           (1%Z, [VDate (day 90); VStr "Activated"; VNull]) ] |})
    as [_ H].
  - compute_done.
  - reflexivity.
  - reflexivity.
  - reflexivity.
  - exact H.
Defined.

Lemma normalize_dates_in_place_witness :
  exists T' : DataFrame,
    normalize_dates keep_timestamps 0 ["EndDate"] [stamped_df] = (Ok 0, [T']) /\
    getitem T' "Status" = Ok [VStr "Activated"] /\
    exists s, getitem T' "EndDate" = Ok s /\ midnight_series s.
Proof.
  destruct (normalize_dates_in_place keep_timestamps keep_timestamps_coercing
              [stamped_df] 0 stamped_df ["EndDate"] eq_refl wf_stamped_df)
    as (T' & Hrun & _ & _ & _ & Hframe & Hmid).
  - intros c [<-|[]]. reflexivity.
  - exists T'. split; [exact Hrun|]. split.
    + rewrite Hframe; [reflexivity|]. intros [H|[]]. discriminate.
    + apply Hmid. simpl. auto.
Defined.

Lemma normalize_dates_missing_column_witness :
  exists T' : DataFrame,
    normalize_dates keep_timestamps 0 ["EndDate"; "StartDate"] [stamped_df]
    = (Raise (KeyError "StartDate"), [T']) /\
    exists s, getitem T' "EndDate" = Ok s /\ midnight_series s.
Proof.
  destruct (normalize_dates_missing_column keep_timestamps keep_timestamps_coercing
              [stamped_df] 0 stamped_df ["EndDate"] [] "StartDate" eq_refl wf_stamped_df)
    as (T' & Hrun & Hmid & _).
  - intros c [<-|[]]. reflexivity.
  - reflexivity.
  - exists T'. split; [exact Hrun|]. apply Hmid. simpl. auto.
Defined.

Lemma segments_after_normalize_dates_witness :
  exists T' Zs Es : DataFrame,
    normalize_dates keep_timestamps 0 ["EndDate"] [stamped_df] = (Ok 0, [T']) /\
    leakage_zombies (day 100 + 5)%Z T' None = Ok Zs /\
    expiring_soon_contracts (day 100) T' = Ok Es.
Proof.
  exact (segments_after_normalize_dates keep_timestamps keep_timestamps_coercing
           [stamped_df] 0 stamped_df (day 100 + 5)%Z (day 100) None
           eq_refl wf_stamped_df eq_refl eq_refl eq_refl).
Defined.

Lemma records_to_df_cells_witness :
  (has_column contract_records_df "Amount" = true
   <-> exists d, In d contract_records /\ dict_get d "Amount" <> None) /\
  getitem contract_records_df "Amount" = Ok [VNull; VNum 5] /\
  [VNull; VNum 5] !! 1 = Some (VNum 5).
Proof.
  destruct (records_to_df_cells contract_records contract_records_df "Amount")
    as [Hcol Hcell].
  - reflexivity.
  - discriminate.
  - split; [exact Hcol|]. split; [reflexivity|].
    exact (Hcell [VNull; VNum 5] 1
             [("attributes", VDict [("type", VStr "Contract")]); ("Id", VStr "002");
              ("Amount", VNum 5)] eq_refl eq_refl eq_refl).
Defined.

Lemma sparse_record_is_null_witness :
  exists R r,
    apply_filters contract_records_df [("Amount", VDict [("isna", VBool true)])] = Ok R /\
    rows contract_records_df !! 0 = Some r /\ In r (rows R).
Proof.
  apply (sparse_record_is_null contract_records contract_records_df "Amount" 0
           [("attributes", VDict [("type", VStr "Contract")]); ("Id", VStr "001");
            ("Account", VDict [("Name", VStr "ACME")])]).
  - reflexivity.
  - discriminate.
  - reflexivity.
  - reflexivity.
  - reflexivity.
Defined.

Lemma clean_soql_dataframe_shape_witness :
  exists r extra T',
    clean_soql_dataframe 0 (Some ["attributes"; "Account"]) (Some [("Id", "Contract Id")])
      [contracts_df]
    = (Ok r, [contracts_df] ++ extra) /\
    ([contracts_df] ++ extra) !! r = Some T' /\
    len T' = 2 /\
    columns T' = ["Contract Id"].
Proof.
  destruct (clean_soql_dataframe_shape [contracts_df] 0 contracts_df
              (Some ["attributes"; "Account"]) (Some [("Id", "Contract Id")]) eq_refl)
    as (r & extra & T' & Hrun & Hr & _ & _ & Hlen & _ & Hcols).
  exists r, extra, T'. auto.
Defined.

Lemma clean_soql_dataframe_values_witness :
  exists r h' T',
    clean_soql_dataframe 0 (Some ["attributes"; "Account"]) (Some [("Id", "Contract Id")])
      [contracts_df]
    = (Ok r, h') /\
    h' !! r = Some T' /\
    getitem T' "Contract Id" = Ok [VStr "001"; VStr "002"].
Proof.
  apply (clean_soql_dataframe_values [contracts_df] 0 contracts_df
           (Some ["attributes"; "Account"]) (Some [("Id", "Contract Id")]) "Id").
  - reflexivity.
  - repeat constructor.
  - simpl. auto.
  - simpl. intros [H|[H|[]]]; discriminate.
  - intros c' [<-|[<-|[]]] Hd Hr; [reflexivity|].
    exfalso. apply Hd. simpl. auto.
Defined.

Lemma extract_nested_fields_destination_witness :
  exists T' col,
    extract_nested_fields 0 account_mapping [contracts_df] = (Ok 1, [contracts_df; T']) /\
    getitem T' "Account Name" = Ok col /\
    col !! 1 = Some (VStr "ACME").
Proof.
  destruct (extract_nested_fields_destination [contracts_df] 0 contracts_df account_mapping
              "Account" [("Name", "Account Name")] "Name" "Account Name"
              [VNull; VDict [("Name", VStr "ACME")]] eq_refl wf_contracts_df)
    as (T' & col & Hrun & Hcol & _ & Hcell).
  - compute_done.
  - simpl. intros [H|[]]. discriminate.
  - simpl. auto.
  - simpl. auto.
  - reflexivity.
  - exists T', col. split; [exact Hrun|]. split; [exact Hcol|].
    exact (Hcell 1 (VDict [("Name", VStr "ACME")]) eq_refl eq_refl).
Defined.

Lemma extract_nested_fields_appends_witness :
  exists T' new,
    extract_nested_fields 0 account_mapping [contracts_df] = (Ok 1, [contracts_df; T']) /\
    columns T' = ["Id"; "Account"] ++ new /\
    (forall c, In c new -> In c ["Account Name"]) /\
    wf_df T'.
Proof.
  exact (extract_nested_fields_appends [contracts_df] 0 contracts_df account_mapping
           eq_refl wf_contracts_df).
Defined.

Lemma extract_nested_fields_n_level_default_index_witness :
  exists res extra,
    extract_nested_fields_n_level 0
      [("Account", MNested [("Name", MLeaf "Account Name")]);
       ("Owner", MNested [("Name", MLeaf "Owner Name")])] [owner_df]
    = (res, [owner_df] ++ extra) /\
    match res with
    | Ok r => exists T', ([owner_df] ++ extra) !! r = Some T' /\ len T' = 1
    | Raise e => exists msg, e = AttributeError msg
    end.
Proof.
  destruct (extract_nested_fields_n_level_default_index [owner_df] 0 owner_df
              [("Account", MNested [("Name", MLeaf "Account Name")]);
               ("Owner", MNested [("Name", MLeaf "Owner Name")])] eq_refl)
    as (res & extra & Hrun & _ & Hres).
  - compute_done.
  - reflexivity.
  - reflexivity.
  - exists res, extra. split; [exact Hrun|].
    destruct res as [r|e]; [|exact (proj1 Hres)].
    destruct Hres as (T' & HT' & Hlen & _). exists T'. auto.
Defined.

Lemma extract_from_dict_keys_witness :
  In "Owner Name" (leaves owner_mapping).
Proof.
  apply (extract_from_dict_keys
           (VDict [("Owner", VDict [("Name", VStr "Bob")])]) owner_mapping "Owner Name").
  simpl. auto.
Defined.

Lemma extract_from_dict_leaf_witness :
  dict_get (extract_from_dict (VDict [("Owner", VDict [("Name", VStr "Bob")])]) owner_mapping)
           "Account Name"
  = Some VNull.
Proof.
  apply (extract_from_dict_leaf [("Owner", VDict [("Name", VStr "Bob")])] owner_mapping
           "Name" "Account Name").
  - compute_done.
  - simpl. auto.
Defined.

Lemma extract_from_dict_nested_witness :
  dict_get (extract_from_dict (VDict [("Owner", VDict [("Name", VStr "Bob")])]) owner_mapping)
           "Owner Name"
  = dict_get (extract_from_dict (VDict [("Name", VStr "Bob")]) [("Name", MLeaf "Owner Name")])
             "Owner Name".
Proof.
  apply (extract_from_dict_nested [("Owner", VDict [("Name", VStr "Bob")])]
           [("Name", VStr "Bob")] owner_mapping [("Name", MLeaf "Owner Name")] "Owner").
  - compute_done.
  - simpl. auto.
  - reflexivity.
  - simpl. auto.
Defined.

Lemma base_title_counted_witness : base_title "Healthy (14)" = "Healthy".
Proof.
  apply (base_title_counted "Healthy" [" "%char] ["1"%char; "4"%char]).
  - split; reflexivity.
  - reflexivity.
  - discriminate.
  - reflexivity.
Defined.

Lemma last_record_describes_segment_witness :
  seg_description {| seg_title := "Healthy"; seg_count := 2;
                     seg_description := VStr "second"; seg_color := "#00FF00" |}
  = dict_get_default [("title", VStr "Healthy"); ("description", VStr "second")]
      "description" (VStr "").
Proof.
  apply (last_record_describes_segment
           [[("title", VStr "Healthy (2)"); ("description", VStr "first")]] []
           [("title", VStr "Healthy"); ("description", VStr "second")] "Healthy"
           [("Healthy", contracts_df)] ["Healthy"] ["#00FF00"]
           [{| seg_title := "Healthy"; seg_count := 2;
               seg_description := VStr "second"; seg_color := "#00FF00" |}]).
  - reflexivity.
  - reflexivity.
  - intros it [].
  - simpl. auto.
  - reflexivity.
Defined.

Lemma build_pie_segments_colors_witness :
  exists s,
    In s [ {| seg_title := "Healthy"; seg_count := 2;
              seg_description := VStr ""; seg_color := "#00FF00" |};
           {| seg_title := "Zombie"; seg_count := 1;
              seg_description := VStr ""; seg_color := "#CCCCCC" |} ] /\
    seg_title s = "Zombie" /\ seg_count s = 1 /\ seg_color s = "#CCCCCC".
Proof.
  destruct (build_pie_segments_colors partial_output
              [("Healthy", contracts_df); ("Zombie", no_account_df)]
              ["Healthy"; "Unknown"; "Zombie"] ["#00FF00"]
              [ {| seg_title := "Healthy"; seg_count := 2;
                   seg_description := VStr ""; seg_color := "#00FF00" |};
                {| seg_title := "Zombie"; seg_count := 1;
                   seg_description := VStr ""; seg_color := "#CCCCCC" |} ]
              eq_refl) as [H _].
  exact (H 2 "Zombie" no_account_df eq_refl eq_refl).
Defined.

Lemma build_pie_segments_bad_title_witness :
  exists msg,
    build_pie_segments [[("title", VNum 3)]] [("Healthy", contracts_df)]
      ["Healthy"] ["#00FF00"]
    = Raise (TypeError msg).
Proof.
  apply build_pie_segments_bad_title.
  apply Exists_cons_hd. intros H. exact H.
Defined.
